(** * jishuhost: the token registry, the authorization ledger, the command
      gate and the dispatch loop of [main.py]

    The development embeds [BotConfig] (the in-memory configuration
    document and its mutators) and [universal_message_handler] (the gate
    and the send loop) and states the properties of the specification
    over them.

    Conventions of the embedding
    - Python [int] is [Z]; [list] is [list]; the [user_secret_codes]
      dictionary is a [gmap string Z] (its insertion order is only
      observed by the listing commands, which are not modelled).
    - A Python [str] is a [string] whose characters are the code points
      below 256.
    - [save_config] writes the document to disk and leaves the in-memory
      document unchanged; the disk is not modelled.
    - The configuration document carries its six keys, as
      [DEFAULT_CONFIG] does, so the defaults of the [dict.get] calls in
      the property getters never apply. *)

From Stdlib Require Import ZArith List String Ascii Bool Lia.
From stdpp Require Import base decidable option list gmap strings pretty.

Local Open Scope string_scope.
Local Open Scope Z_scope.

(** ** The configuration document *)

Module Config.

(** The JSON document held in [BotConfig.config]. *)
Record BotConfig := MkConfig {
  authorized_users : list Z;
  authorized_chats : list Z;
  spam_command : string;
  spam_messages : list string;
  owner_id : Z;
  user_secret_codes : gmap string Z
}.

(** [DEFAULT_CONFIG], for the [OWNER_ID] read from the environment. *)
Definition DEFAULT_CONFIG (OWNER_ID : Z) : BotConfig :=
  {| authorized_users := [];
     authorized_chats := [];
     spam_command := "/s";
     spam_messages := ["Hello {mention}! Welcome to the group!"];
     owner_id := OWNER_ID;
     user_secret_codes := ∅ |}.



(** The property setters: assign the key, then [save_config]. *)
Definition set_authorized_users (users : list Z) (c : BotConfig) : BotConfig :=
  {| authorized_users := users;
     authorized_chats := authorized_chats c;
     spam_command := spam_command c;
     spam_messages := spam_messages c;
     owner_id := owner_id c;
     user_secret_codes := user_secret_codes c |}.

Definition set_authorized_chats (chats : list Z) (c : BotConfig) : BotConfig :=
  {| authorized_users := authorized_users c;
     authorized_chats := chats;
     spam_command := spam_command c;
     spam_messages := spam_messages c;
     owner_id := owner_id c;
     user_secret_codes := user_secret_codes c |}.

Definition set_spam_command (command : string) (c : BotConfig) : BotConfig :=
  let command := if String.prefix "/" command then command else "/" ++ command in
  {| authorized_users := authorized_users c;
     authorized_chats := authorized_chats c;
     spam_command := command;
     spam_messages := spam_messages c;
     owner_id := owner_id c;
     user_secret_codes := user_secret_codes c |}.

Definition set_spam_messages (messages : list string) (c : BotConfig) : BotConfig :=
  {| authorized_users := authorized_users c;
     authorized_chats := authorized_chats c;
     spam_command := spam_command c;
     spam_messages := messages;
     owner_id := owner_id c;
     user_secret_codes := user_secret_codes c |}.

Definition set_user_secret_codes (codes : gmap string Z) (c : BotConfig) : BotConfig :=
  {| authorized_users := authorized_users c;
     authorized_chats := authorized_chats c;
     spam_command := spam_command c;
     spam_messages := spam_messages c;
     owner_id := owner_id c;
     user_secret_codes := codes |}.

(** [BotConfig.__init__]: load, then make sure the owner is listed. *)
Definition init (loaded : BotConfig) : BotConfig :=
  if bool_decide (owner_id loaded ∈ authorized_users loaded) then loaded
  else set_authorized_users (authorized_users loaded ++ [owner_id loaded]) loaded.

(** [list.remove(x)]: drops the first occurrence.  The callers test
    [x in l] first, so the [ValueError] of an absent [x] never arises. *)
Fixpoint list_remove_first (x : Z) (l : list Z) : list Z :=
  match l with
  | [] => []
  | y :: l' => if bool_decide (y = x) then l' else y :: list_remove_first x l'
  end.

Definition add_spam_message (message : string) (c : BotConfig) : BotConfig :=
  if bool_decide (message ∈ spam_messages c) then c
  else set_spam_messages (spam_messages c ++ [message]) c.

(** [messages.pop(index)] under the guard [0 <= index < len(messages)]. *)
Definition remove_spam_message (index : Z) (c : BotConfig) : BotConfig :=
  if (0 <=? index) && (index <? Z.of_nat (length (spam_messages c)))
  then set_spam_messages (delete (Z.to_nat index) (spam_messages c)) c
  else c.

Definition add_authorized_chat (chat_id : Z) (c : BotConfig) : BotConfig :=
  if bool_decide (chat_id ∈ authorized_chats c) then c
  else set_authorized_chats (authorized_chats c ++ [chat_id]) c.

Definition remove_authorized_chat (chat_id : Z) (c : BotConfig) : BotConfig :=
  if bool_decide (chat_id ∈ authorized_chats c)
  then set_authorized_chats (list_remove_first chat_id (authorized_chats c)) c
  else c.

Definition add_authorized_user (user_id : Z) (c : BotConfig) : BotConfig :=
  if negb (bool_decide (user_id ∈ authorized_users c)) && negb (user_id =? owner_id c)
  then set_authorized_users (authorized_users c ++ [user_id]) c
  else c.

Definition remove_authorized_user (user_id : Z) (c : BotConfig) : BotConfig :=
  if bool_decide (user_id ∈ authorized_users c) && negb (user_id =? owner_id c)
  then set_authorized_users (list_remove_first user_id (authorized_users c)) c
  else c.

(** The loop [while code in codes: code = secrets.token_urlsafe(16)].
    [draws] is what the later calls of [secrets.token_urlsafe] return, in
    order; the result is [None] when the draws end before a fresh code
    came up. *)
Fixpoint fresh_code (codes : gmap string Z) (code : string) (draws : list string)
  : option (string * list string) :=
  match codes !! code with
  | None => Some (code, draws)
  | Some _ =>
      match draws with
      | [] => None
      | code' :: draws' => fresh_code codes code' draws'
      end
  end.

(** [generate_secret_code]: returns the code, the new document and the
    draws that are left. *)
Definition generate_secret_code (user_id : Z) (c : BotConfig) (draws : list string)
  : option (string * BotConfig * list string) :=
  match draws with
  | [] => None
  | code :: draws =>
      match fresh_code (user_secret_codes c) code draws with
      | None => None
      | Some (code, draws) =>
          Some (code,
                set_user_secret_codes (<[code := user_id]> (user_secret_codes c)) c,
                draws)
      end
  end.

Definition get_user_id_from_code (code : string) (c : BotConfig) : option Z :=
  user_secret_codes c !! code.

Definition revoke_secret_code (code : string) (c : BotConfig) : BotConfig * bool :=
  match user_secret_codes c !! code with
  | Some _ => (set_user_secret_codes (delete code (user_secret_codes c)) c, true)
  | None => (c, false)
  end.

(** [is_authorized], [is_owner], [is_chat_authorized]. *)
Definition is_authorized (user_id : Z) (c : BotConfig) : bool :=
  bool_decide (user_id ∈ authorized_users c).

Definition is_owner (user_id : Z) (c : BotConfig) : bool :=
  user_id =? owner_id c.

Definition is_chat_authorized (chat_id : Z) (c : BotConfig) : bool :=
  bool_decide (chat_id ∈ authorized_chats c).

(** *** Sequences of mutations *)

(** The two ledger mutators the owner commands [/a] and [/r] reach. *)
Inductive LedgerOp :=
| Authorize (user_id : Z)
| Deauthorize (user_id : Z).

Definition apply_ledger_op (c : BotConfig) (op : LedgerOp) : BotConfig :=
  match op with
  | Authorize u => add_authorized_user u c
  | Deauthorize u => remove_authorized_user u c
  end.

(** Every mutation of the document the program performs. *)
Inductive ConfigOp :=
| OpLedger (op : LedgerOp)
| OpAddChat (chat_id : Z)
| OpRemoveChat (chat_id : Z)
| OpAddMessage (message : string)
| OpRemoveMessage (index : Z)
| OpSetMessages (messages : list string)
| OpSetCommand (command : string)
| OpGenerate (user_id : Z)
| OpRevoke (code : string).

(** The document together with the pending draws of the token source. *)
Definition Store : Type := BotConfig * list string.

Definition apply_op (s : Store) (op : ConfigOp) : option Store :=
  let '(c, draws) := s in
  match op with
  | OpLedger o => Some (apply_ledger_op c o, draws)
  | OpAddChat i => Some (add_authorized_chat i c, draws)
  | OpRemoveChat i => Some (remove_authorized_chat i c, draws)
  | OpAddMessage m => Some (add_spam_message m c, draws)
  | OpRemoveMessage i => Some (remove_spam_message i c, draws)
  | OpSetMessages l => Some (set_spam_messages l c, draws)
  | OpSetCommand s => Some (set_spam_command s c, draws)
  | OpGenerate u =>
      match generate_secret_code u c draws with
      | Some (_, c', draws') => Some (c', draws')
      | None => None
      end
  | OpRevoke code => Some (fst (revoke_secret_code code c), draws)
  end.

Fixpoint apply_ops (s : Store) (ops : list ConfigOp) : option Store :=
  match ops with
  | [] => Some s
  | op :: ops' =>
      match apply_op s op with
      | Some s' => apply_ops s' ops'
      | None => None
      end
  end.

End Config.

(** ** The Python string functions the handler calls *)

Module Py.

Definition code_point (a : ascii) : N := N_of_ascii a.

(** [str.isspace] of one character, for the code points below 256. *)
Definition isspace (a : ascii) : bool :=
  let n := code_point a in
  (((9 <=? n) && (n <=? 13)) || ((28 <=? n) && (n <=? 32))
   || (n =? 133) || (n =? 160))%N.

(** The ASCII digits, the only decimal digits below 256. *)
Definition is_decimal (a : ascii) : bool :=
  let n := code_point a in ((48 <=? n) && (n <=? 57))%N.

Definition decimal_value (a : ascii) : Z := Z.of_N (code_point a) - 48.

(** [str.isdigit] of one character: the decimal digits and the
    superscripts two, three and one. *)
Definition isdigit_char (a : ascii) : bool :=
  let n := code_point a in
  (is_decimal a || (n =? 178) || (n =? 179) || (n =? 185))%N.

Fixpoint all_chars (p : ascii -> bool) (s : string) : bool :=
  match s with
  | EmptyString => true
  | String a s' => p a && all_chars p s'
  end.

(** [s.isdigit()]: false on the empty string. *)
Definition isdigit (s : string) : bool :=
  negb (String.eqb s "") && all_chars isdigit_char s.

(** [s.startswith(p)]. *)
Definition startswith (s p : string) : bool := String.prefix p s.

(** [s[1:]]. *)
Definition tail (s : string) : string :=
  match s with
  | EmptyString => EmptyString
  | String _ s' => s'
  end.

(** [s.lstrip(chars)] for a one-character [chars]. *)
Fixpoint lstrip (c : ascii) (s : string) : string :=
  match s with
  | EmptyString => EmptyString
  | String a s' => if Ascii.eqb a c then lstrip c s' else s
  end.

(** [s.split()]: the maximal runs of characters that are not
    whitespace.  [word] is the run being read, last character first. *)
Fixpoint split_from (word : list ascii) (s : string) : list string :=
  let flush (rest : list string) :=
    match word with
    | [] => rest
    | _ => string_of_list_ascii (rev word) :: rest
    end in
  match s with
  | EmptyString => flush []
  | String a s' =>
      if isspace a then flush (split_from [] s')
      else split_from (a :: word) s'
  end.

Definition split (s : string) : list string := split_from [] s.

(** [s.strip()]. *)
Fixpoint lstrip_space (l : list ascii) : list ascii :=
  match l with
  | [] => []
  | a :: l' => if isspace a then lstrip_space l' else l
  end.

Definition strip (s : string) : string :=
  string_of_list_ascii
    (rev (lstrip_space (rev (lstrip_space (list_ascii_of_string s))))).

(** The digits of an [int] literal: decimal digits, single underscores
    between them.  [after_digit] tells that the character before was a
    digit. *)
Fixpoint int_digits (acc : Z) (after_digit : bool) (s : string) : option Z :=
  match s with
  | EmptyString => if after_digit then Some acc else None
  | String a s' =>
      if is_decimal a then int_digits (10 * acc + decimal_value a) true s'
      else if Ascii.eqb a "_" && after_digit then int_digits acc false s'
      else None
  end.

(** [int(s)]; [None] stands for [ValueError]. *)
Definition int (s : string) : option Z :=
  match strip s with
  | String "+" s' => int_digits 0 false s'
  | String "-" s' => Z.opp <$> int_digits 0 false s'
  | s' => int_digits 0 false s'
  end.

(** [str(n)]. *)
Definition str (n : Z) : string := pretty n.

(** Truth value of a string that may be [None]. *)
Definition truthy (s : option string) : bool :=
  match s with
  | Some s => negb (String.eqb s "")
  | None => false
  end.

End Py.

(** ** The chat platform *)

Module Platform.

(** [pyrogram.enums.ChatType]. *)
Inductive ChatType := PRIVATE | BOT | GROUP | SUPERGROUP | CHANNEL.

Definition is_private (t : ChatType) : bool :=
  match t with PRIVATE => true | _ => false end.

(** [pyrogram.enums.ChatMemberStatus]. *)
Inductive ChatMemberStatus :=
| OWNER | ADMINISTRATOR | MEMBER | RESTRICTED | LEFT | BANNED.

(** The fields of [pyrogram.types.User] the handler reads. *)
Record User := MkUser {
  uid : Z;
  first_name : option string;
  username : option string
}.

Record Chat := MkChat {
  chat_id : Z;
  chat_type : ChatType
}.

(** The fields of [pyrogram.types.Message] the handler reads.
    [from_user] is [None] for an anonymous or channel-authored post. *)
Record Message := MkMessage {
  message_id : Z;
  chat : Chat;
  text : option string;
  from_user : option User
}.

(** The texts the handler posts with [message.reply_text]. *)
Inductive Notice :=
| PmHelp (command : string)
    (* Spam command detected in PM! ... *)
| InvalidCode
    (* Unauthorized user. Command ignored. *)
| SenderMismatch
    (* Command sent by a user ID that does not match the secret code's
       assigned user ID. Command ignored. *)
| AccountNotAuthorized.
    (* Unauthorized user (code valid, but linked user ID is not
       authorized). Command ignored. *)

(** The argument of [asyncio.sleep]: a number of seconds, or the pause
    [random.uniform(0.1, 0.5)] whose value is not modelled. *)
Inductive Delay :=
| Seconds (n : Z)
| RandomPause.

(** How [client.delete_messages] ends: it returns, raises
    [MessageDeleteForbidden], or raises something else. *)
Inductive DeleteResult := Deleted | DeleteForbidden | DeleteFailed.

(** How [client.get_users] ends: the user, one of [PeerIdInvalid],
    [UsernameInvalid], [UsernameNotOccupied], or another exception. *)
Inductive UsersResult := UserFound (u : User) | UserInvalid | UsersFailed.

(** How [client.get_chat_member] ends: the member's status,
    [ChatAdminRequired], or another exception. *)
Inductive MemberResult :=
| MemberStatus (s : ChatMemberStatus) | AdminRequired | MemberFailed.

(** How [client.send_message] ends: it returns, raises [FloodWait] with
    its [value], raises [ChatWriteForbidden], or raises something else. *)
Inductive SendResult :=
| Sent | FloodWait (value : Z) | ChatWriteForbidden | SendFailed.

(** The calls the handler makes outside itself, indexed by what comes
    back.  [reply_text] gives the id of the posted message, or [None]
    when it raises; [random_sample population] is
    [random.sample(population, len(population))], a rearrangement of the
    population. *)
Inductive Call : Type -> Type :=
| delete_messages (chat_id message_id : Z) : Call DeleteResult
| reply_text (message : Message) (notice : Notice) : Call (option Z)
| sleep (delay : Delay) : Call unit
| get_users (who : string + Z) : Call UsersResult
| get_chat_member_me (chat_id : Z) : Call MemberResult
| send_message (chat_id : Z) (text : string) : Call SendResult
| random_sample (population : list string)
    : Call { shuffled : list string | Permutation shuffled population }.

(** A handler: it returns, lets an exception escape, or makes a call
    and goes on with the answer. *)
Inductive Prog (A : Type) : Type :=
| Ret (a : A)
| Throw
| Vis {R : Type} (c : Call R) (k : R -> Prog A).

Arguments Ret {A} a.
Arguments Throw {A}.
Arguments Vis {A R} c k.

Fixpoint bind {A B : Type} (p : Prog A) (f : A -> Prog B) : Prog B :=
  match p with
  | Ret a => f a
  | Throw => Throw
  | Vis c k => Vis c (fun r => bind (k r) f)
  end.

Definition call {R : Type} (c : Call R) : Prog R := Vis c Ret.

(** One call with its answer. *)
Inductive Event : Type :=
| Ev {R : Type} (c : Call R) (r : R).

(** The outside world: the answer to the [n]-th call of a run. *)
Definition Env : Type := forall R : Type, nat -> Call R -> R.

(** Runs a handler whose next call is the [n]-th: the calls made with
    their answers, and the value returned ([None] when an exception
    escaped). *)
Fixpoint run {A : Type} (env : Env) (n : nat) (p : Prog A) : list Event * option A :=
  match p with
  | Ret a => ([], Some a)
  | Throw => ([], None)
  | Vis c k =>
      let r := env _ n c in
      let '(t, o) := run env (S n) (k r) in
      (Ev c r :: t, o)
  end.

Definition is_send (e : Event) : bool :=
  match e with
  | Ev c _ => match c with send_message _ _ => true | _ => false end
  end.

Definition is_sent (e : Event) : bool :=
  match e with
  | Ev c r =>
      match c in Call R return R -> bool with
      | send_message _ _ => fun r => match r with Sent => true | _ => false end
      | _ => fun _ => false
      end r
  end.

Definition is_reply (e : Event) : bool :=
  match e with
  | Ev c _ => match c with reply_text _ _ => true | _ => false end
  end.

(** The text of a send attempt. *)
Definition sent_text (e : Event) : option string :=
  match e with
  | Ev c _ => match c with send_message _ t => Some t | _ => None end
  end.

(** The answer to a send attempt, and the delay of a sleep. *)
Definition send_result (e : Event) : option SendResult :=
  match e with
  | Ev c r =>
      match c in Call R return R -> option SendResult with
      | send_message _ _ => fun r => Some r
      | _ => fun _ => None
      end r
  end.

Definition slept (e : Event) : option Delay :=
  match e with
  | Ev c _ => match c with sleep d => Some d | _ => None end
  end.

(** Number of [send_message] calls, of those that returned, and of
    [reply_text] calls in a trace. *)
Definition send_attempts (t : list Event) : nat := length (List.filter is_send t).
Definition sends (t : list Event) : nat := length (List.filter is_sent t).
Definition replies (t : list Event) : nat := length (List.filter is_reply t).

End Platform.

(** ** The handler of every inbound message *)

Module Handler.
Import Config Platform.

Notation "'do' x <- p ; q" := (bind p (fun x => q))
  (at level 10, x name, p at level 100, q at level 200).

Section Handler.

(** [msg_text.format(mention=mention)], a function of the standard
    library: the formatted text, or [None] when it raises (a stray brace,
    a field other than [mention]). *)
Variable format_mention : string -> string -> option string.

(** [resolve_user_id]: a number is taken as it is, anything else is
    looked up as a user name.  Whatever is raised ends in [None]. *)
Definition resolve_user_id (user_input : string) : Prog (option Z) :=
  if Py.isdigit user_input
     || (Py.startswith user_input "-" && Py.isdigit (Py.tail user_input))
  then Ret (Py.int user_input)
  else
    let user_input :=
      if Py.startswith user_input "@" then Py.tail user_input else user_input in
    do r <- call (get_users (inl user_input));
    match r with
    | UserFound u => Ret (Some (uid u))
    | UserInvalid => Ret None
    | UsersFailed => Ret None
    end.

(** The block [try: await client.delete_messages(...) except ...]: both
    handlers only log. *)
Definition try_delete (chat_id message_id : Z) : Prog unit :=
  do r <- call (delete_messages chat_id message_id);
  match r with
  | Deleted => Ret tt
  | DeleteForbidden => Ret tt
  | DeleteFailed => Ret tt
  end.

(** The rejection block the handler repeats for an invalid code, a
    sender mismatch and an account that is not authorized: delete the
    command, post the notice, wait 20 seconds, delete the notice.
    [reply_text] is not guarded: what it raises escapes the handler. *)
Definition reject (message : Message) (notice : Notice) : Prog unit :=
  do _ <- try_delete (chat_id (chat message)) (message_id message);
  do posted <- call (reply_text message notice);
  match posted with
  | None => Throw
  | Some unauth_msg =>
      do _ <- call (sleep (Seconds 20));
      try_delete (chat_id (chat message)) unauth_msg
  end.

(** [display_name] and [mention] of the target. *)
Definition display_name (target_user : User) : string :=
  if Py.truthy (first_name target_user) then default "" (first_name target_user)
  else if Py.truthy (username target_user) then default "" (username target_user)
  else Py.str (uid target_user).

Definition dquote : string := String "034"%char EmptyString.

Definition mention (target_user : User) : string :=
  ("<a href=" ++ dquote ++ "tg://user?id=" ++ Py.str (uid target_user) ++ dquote
   ++ ">" ++ display_name target_user ++ "</a>")%string.

(** The loop [for i in range(quantity)] that fills [message_pool];
    [range] is what is left of [range(quantity)].  An empty [messages] makes
    [i % len(messages)] raise. *)
Fixpoint fill_pool (messages : list string) (range : list nat) (message_pool : list string)
  : Prog (list string) :=
  match range with
  | [] => Ret message_pool
  | i :: range' =>
      match length messages with
      | O => Throw
      | len =>
          if (i mod len =? 0)%nat then
            do shuffled <- call (random_sample messages);
            fill_pool messages range' (message_pool ++ proj1_sig shuffled)
          else fill_pool messages range' message_pool
      end
  end.

(** The pool: filled, then cut to [message_pool[:quantity]]. *)
Definition build_message_pool (messages : list string) (quantity : Z)
  : Prog (list string) :=
  do message_pool <- fill_pool messages (seq 0 (Z.to_nat quantity)) [];
  Ret (take (Z.to_nat quantity) message_pool).

(** The send loop; returns [success_count]. *)
Fixpoint send_loop (chat_id : Z) (mention : string) (message_pool : list string)
    (success_count : nat) : Prog nat :=
  match message_pool with
  | [] => Ret success_count
  | msg_text :: rest =>
      match format_mention msg_text mention with
      | None => send_loop chat_id mention rest success_count
      | Some formatted_msg =>
          do r <- call (send_message chat_id formatted_msg);
          match r with
          | Sent =>
              do _ <- call (sleep RandomPause);
              send_loop chat_id mention rest (S success_count)
          | FloodWait value =>
              do _ <- call (sleep (Seconds value));
              send_loop chat_id mention rest success_count
          | ChatWriteForbidden => Ret success_count
          | SendFailed => send_loop chat_id mention rest success_count
          end
      end
  end.

(** The handler from the target resolution on, for a validated
    [quantity]. *)
Definition dispatch (cfg : BotConfig) (message : Message)
    (target_input : string) (quantity : Z) : Prog unit :=
  do target_id <- resolve_user_id target_input;
  match target_id with
  | None => Ret tt
  | Some 0 => Ret tt
  | Some target_id =>
      do found <- call (get_users (inr target_id));
      match found with
      | UserInvalid => Ret tt
      | UsersFailed => Throw
      | UserFound target_user =>
          do member <- call (get_chat_member_me (chat_id (chat message)));
          match member with
          | AdminRequired => Ret tt
          | MemberFailed => Ret tt
          | MemberStatus status =>
              match status with
              | ADMINISTRATOR | OWNER =>
                  let messages := spam_messages cfg in
                  match messages with
                  | [] => Ret tt
                  | _ =>
                      do message_pool <- build_message_pool messages quantity;
                      do success_count <-
                        send_loop (chat_id (chat message)) (mention target_user)
                                  message_pool 0;
                      Ret tt
                  end
              | _ => Ret tt
              end
          end
      end
  end.

(** The handler from the final authorization on: the account bound to
    the code must be listed; then the command is deleted and the
    quantity validated. *)
Definition authorize_and_dispatch (cfg : BotConfig) (message : Message)
    (authorized_user_id_from_code : Z) (target_input quantity_input : string)
  : Prog unit :=
  if negb (is_authorized authorized_user_id_from_code cfg)
  then reject message AccountNotAuthorized
  else
    do _ <- try_delete (chat_id (chat message)) (message_id message);
    match Py.int quantity_input with
    | None => Ret tt
    | Some quantity =>
        if (quantity <? 1) || (quantity >? 100) then Ret tt
        else dispatch cfg message target_input quantity
    end.

(** [universal_message_handler].  [cfg] is the configuration and
    [current_spam_command] the global of that name, as they stand while
    the handler runs. *)
Definition universal_message_handler (cfg : BotConfig)
    (current_spam_command : string) (message : Message) : Prog unit :=
  if negb (Py.truthy (text message)) then Ret tt
  else
    let txt := default "" (text message) in
    let spam_cmd := Py.lstrip "/" current_spam_command in
    if negb (Py.startswith txt ("/" ++ spam_cmd)) && negb (Py.startswith txt spam_cmd)
    then Ret tt
    else if negb (is_private (chat_type (chat message)))
            && negb (is_chat_authorized (chat_id (chat message)) cfg)
    then try_delete (chat_id (chat message)) (message_id message)
    else if is_private (chat_type (chat message))
    then
      do posted <- call (reply_text message (PmHelp current_spam_command));
      match posted with
      | None => Throw
      | Some _ => Ret tt
      end
    else
      match Py.split txt with
      | command :: potential_code :: target_input :: quantity_input :: _ =>
          match get_user_id_from_code potential_code cfg with
          | None => reject message InvalidCode
          | Some 0 => reject message InvalidCode
          | Some authorized_user_id_from_code =>
              match from_user message with
              | Some sender =>
                  if negb (uid sender =? authorized_user_id_from_code)
                  then reject message SenderMismatch
                  else authorize_and_dispatch cfg message
                         authorized_user_id_from_code target_input quantity_input
              | None =>
                  authorize_and_dispatch cfg message
                    authorized_user_id_from_code target_input quantity_input
              end
          end
      | _ => try_delete (chat_id (chat message)) (message_id message)
      end.

End Handler.

End Handler.

(** ** Vocabulary of the specification *)

Module Spec.
Import Config Platform.

(** An inbound command: a message whose text is not empty and starts
    with the trigger, with or without its leading slash. *)
Definition is_command (current_spam_command : string) (message : Message) : bool :=
  let txt := default "" (text message) in
  let spam_cmd := Py.lstrip "/" current_spam_command in
  Py.truthy (text message)
  && (Py.startswith txt ("/" ++ spam_cmd) || Py.startswith txt spam_cmd).

(** The whitespace-separated fields of the message text. *)
Definition fields (message : Message) : list string :=
  Py.split (default "" (text message)).

(** The two-phase cleanup of a rejected command, as a shape of runs:
    the command is deleted and the notice posted; once the platform has
    returned the posted notice, the handler sleeps the fixed 20 seconds
    and deletes it.  The results of the two deletions are free: a
    deletion that fails is not escalated.  When posting the notice
    raises, the exception escapes and nothing is left to delete. *)
Inductive two_phase_cleanup (message : Message) (notice : Notice)
  : list Event -> option unit -> Prop :=
| cleanup_done (d1 d2 : DeleteResult) (warning : Z) :
    two_phase_cleanup message notice
      [Ev (delete_messages (chat_id (chat message)) (message_id message)) d1;
       Ev (reply_text message notice) (Some warning);
       Ev (sleep (Seconds 20)) tt;
       Ev (delete_messages (chat_id (chat message)) warning) d2]
      (Some tt)
| cleanup_post_raised (d1 : DeleteResult) :
    two_phase_cleanup message notice
      [Ev (delete_messages (chat_id (chat message)) (message_id message)) d1;
       Ev (reply_text message notice) None]
      None.

(** Each of [shuffles] is a rearrangement of the templates. *)
Definition shuffles_of (messages : list string) (shuffles : list (list string)) : Prop :=
  Forall (fun shuffled => Permutation shuffled messages) shuffles.

(** The runs of the send loop over a pool, from a success count to the
    final one.  A template that does not format is passed over without a
    call.  A send that returns is followed by the random pause and
    counted; a flood wait is followed by a sleep of the reported value
    and the loop goes on with the rest of the pool; a forbidden write
    ends the loop; any other failure goes on with the rest. *)
Inductive loop_run (format_mention : string -> string -> option string)
    (chat_id : Z) (mention : string)
  : list string -> nat -> list Event -> nat -> Prop :=
| loop_end (count : nat) :
    loop_run format_mention chat_id mention [] count [] count
| loop_unformatted msg_text rest count t final :
    format_mention msg_text mention = None ->
    loop_run format_mention chat_id mention rest count t final ->
    loop_run format_mention chat_id mention (msg_text :: rest) count t final
| loop_sent msg_text formatted rest count t final :
    format_mention msg_text mention = Some formatted ->
    loop_run format_mention chat_id mention rest (S count) t final ->
    loop_run format_mention chat_id mention (msg_text :: rest) count
      (Ev (send_message chat_id formatted) Sent
       :: Ev (sleep RandomPause) tt :: t) final
| loop_flood_wait msg_text formatted value rest count t final :
    format_mention msg_text mention = Some formatted ->
    loop_run format_mention chat_id mention rest count t final ->
    loop_run format_mention chat_id mention (msg_text :: rest) count
      (Ev (send_message chat_id formatted) (FloodWait value)
       :: Ev (sleep (Seconds value)) tt :: t) final
| loop_write_forbidden msg_text formatted rest count :
    format_mention msg_text mention = Some formatted ->
    loop_run format_mention chat_id mention (msg_text :: rest) count
      [Ev (send_message chat_id formatted) ChatWriteForbidden] count
| loop_send_failed msg_text formatted rest count t final :
    format_mention msg_text mention = Some formatted ->
    loop_run format_mention chat_id mention rest count t final ->
    loop_run format_mention chat_id mention (msg_text :: rest) count
      (Ev (send_message chat_id formatted) SendFailed :: t) final.

(** [str.format] for the templates that use nothing but the field
    [{mention}] and the doubled braces: used to run the handler on
    examples. *)
Fixpoint format_plain (fuel : nat) (template mention : string) : option string :=
  match fuel with
  | O => match template with EmptyString => Some EmptyString | _ => None end
  | S fuel =>
      match template with
      | EmptyString => Some EmptyString
      | String a rest =>
          if Ascii.eqb a "{" then
            if String.prefix "{" rest
            then String "{" <$> format_plain fuel (Py.tail rest) mention
            else if String.prefix "mention}" rest
            then String.append mention
                   <$> format_plain fuel (String.substring 8 (String.length rest - 8) rest) mention
            else None
          else if Ascii.eqb a "}" then
            if String.prefix "}" rest
            then String "}" <$> format_plain fuel (Py.tail rest) mention
            else None
          else String a <$> format_plain fuel rest mention
      end
  end.

Definition format_basic (template mention : string) : option string :=
  format_plain (String.length template) template mention.

(** A platform for the examples: every deletion ends as [deleted], a
    posted notice gets the id [posted], users are found under the id
    asked for (77 for a name), the bot has [status] in every chat, the
    [k]-th call of a run, when it is a send, ends as [outcome k], and
    [random.sample] happens to keep the order. *)
Definition example_env (deleted : DeleteResult) (posted : option Z)
    (status : ChatMemberStatus) (outcome : nat -> SendResult) : Env :=
  fun R k c =>
    match c in Call R return R with
    | delete_messages _ _ => deleted
    | reply_text _ _ => posted
    | sleep _ => tt
    | get_users who =>
        UserFound {| uid := match who with inr i => i | inl _ => 77 end;
                     first_name := Some "Alice";
                     username := Some "alice" |}
    | get_chat_member_me _ => MemberStatus status
    | send_message _ _ => outcome k
    | random_sample population => exist _ population (Permutation_refl population)
    end.

Definition calm_env : Env :=
  example_env Deleted (Some 9000) ADMINISTRATOR (fun _ => Sent).

(** The configuration of the end-to-end scenarios: owner 1, account 42
    authorized and bound to the code ABC123, chat 100 authorized, two
    templates. *)
Definition example_config : BotConfig :=
  {| authorized_users := [1; 42];
     authorized_chats := [100];
     spam_command := "/s";
     spam_messages := ["Hi {mention}!"; "Yo {mention}"];
     owner_id := 1;
     user_secret_codes := {[ "ABC123" := 42 ]} |}.

(** Message 7 of a supergroup. *)
Definition example_message (chat_id : Z) (txt : string) (sender : option Z) : Message :=
  {| message_id := 7;
     chat := {| chat_id := chat_id; chat_type := SUPERGROUP |};
     text := Some txt;
     from_user := (fun i => {| uid := i; first_name := None; username := None |})
                  <$> sender |}.

(** The inputs of the scenarios below. *)

(** The command of the end-to-end scenario, sent by account 42. *)
Definition accepted_command : Message :=
  example_message 100 "/s ABC123 @alice 3" (Some 42).

(** The same command with a code that is not bound. *)
Definition unknown_code_command : Message :=
  example_message 100 "/s NOPE99 @alice 3" (Some 42).

(** A command of two fields whose second field is not bound. *)
Definition short_command : Message :=
  example_message 100 "/s NOPE99" (Some 42).

(** The command of account 42 sent by account 43, in the authorized
    chat 100 and in the chat 200, which is not authorized. *)
Definition mismatched_command : Message :=
  example_message 100 "/s ABC123 @alice 3" (Some 43).

Definition mismatched_command_elsewhere : Message :=
  example_message 200 "/s ABC123 @alice 3" (Some 43).

(** The command of account 42, sent by 42 in the chat 300, which is
    not authorized. *)
Definition command_in_unauthorized_chat : Message :=
  example_message 300 "/s ABC123 @alice 3" (Some 42).

(** The command of account 42 with a quantity out of range. *)
Definition zero_quantity_command : Message :=
  example_message 100 "/s ABC123 @alice 0" (Some 42).

(** A command of two fields whose code is bound to account 42, sent by
    account 43. *)
Definition short_mismatched_command : Message :=
  example_message 100 "/s ABC123" (Some 43).

(** The private chat of account 43 with the bot, and a configuration
    that lists that chat among the authorized chats. *)
Definition private_message (txt : string) : Message :=
  {| message_id := 7;
     chat := {| chat_id := 43; chat_type := PRIVATE |};
     text := Some txt;
     from_user := Some {| uid := 43; first_name := None; username := None |} |}.

Definition private_config : BotConfig :=
  set_authorized_chats [100; 43] example_config.

(** An anonymous command with a code bound to account 55, which is not
    authorized. *)
Definition stale_config : BotConfig :=
  set_user_secret_codes {[ "ABC123" := 55 ]} example_config.

Definition anonymous_command : Message :=
  example_message 100 "/s ABC123 @alice 3" None.

(** A platform on which posting a notice raises. *)
Definition refusing_env : Env :=
  example_env Deleted None ADMINISTRATOR (fun _ => Sent).

(** A platform that answers the first call with a flood wait of five
    seconds, the third with a success and any other send with a
    forbidden write. *)
Definition flooding_env : Env :=
  example_env Deleted (Some 9000) OWNER
    (fun k => match k with
              | 0%nat => FloodWait 5
              | 2%nat => Sent
              | _ => ChatWriteForbidden
              end).

End Spec.

(** ** The owner commands *)

Module Owner.
Import Config Platform Handler.

(** The globals the command handlers work on: [config], the trigger
    [current_spam_command], and what the later calls of
    [secrets.token_urlsafe] return. *)
Record Bot := MkBot {
  config : BotConfig;
  current_spam_command : string;
  token_source : list string
}.

Definition with_config (c : BotConfig) (bot : Bot) : Bot :=
  {| config := c;
     current_spam_command := current_spam_command bot;
     token_source := token_source bot |}.

(** The texts the owner commands answer with.  Every branch of an
    owner command ends in one [message.reply_text]; a command is
    modelled up to that reply, which it returns together with the
    globals it leaves. *)
Inductive Reply :=
| OwnerOnly
| Usage
| InvalidUser
| OwnerAlreadyAuthorized
| UserAuthorized (user_id : Z)
| CannotRemoveOwner
| UserNotListed
| UserRemoved (user_id : Z)
| UserNotAuthorizedYet (user_id : Z)
| SecretGenerated (user_id : Z) (code : string)
| SecretRevoked (code : string)
| SecretNotFound (code : string)
| InvalidChat
| ChatAlreadyAuthorized
| ChatAuthorized (chat_id : Z)
| ChatNotListed
| ChatRemoved (chat_id : Z)
| CommandUpdated (old_command new_command : string)
| MessageExists
| MessageAdded (total : nat) (new_message : string)
| NoMessagesConfigured
| MessageListing (messages : list string)
| InvalidIndex (total : nat)
| MessageDeleted (remaining : nat) (deleted_message : string)
| IndexNotNumber
| NoMessagesToClear
| MessagesCleared.

(** How [app.get_chat] ends: the chat id, one of [UsernameInvalid],
    [UsernameNotOccupied], [PeerIdInvalid], or another exception. *)
Inductive ChatResult := ChatFound (chat_id : Z) | ChatInvalid | ChatFailed.

(** [' '.join(words)]. *)
Fixpoint join (words : list string) : string :=
  match words with
  | [] => EmptyString
  | [w] => w
  | w :: rest => (w ++ " " ++ join rest)%string
  end.

Definition default_message : string := "Hello {mention}! Welcome to the group!".

Section Commands.

(** The answer of the platform to [app.get_chat] for a name. *)
Variable get_chat : string -> ChatResult.

(** [resolve_chat_id]: a number is taken as it is, anything else is
    looked up as a chat name.  Whatever is raised ends in [None]. *)
Definition resolve_chat_id (chat_input : string) : option Z :=
  if Py.isdigit chat_input
     || (Py.startswith chat_input "-" && Py.isdigit (Py.tail chat_input))
  then Py.int chat_input
  else
    let chat_input :=
      if Py.startswith chat_input "@" then Py.tail chat_input else chat_input in
    match get_chat chat_input with
    | ChatFound chat_id => Some chat_id
    | ChatInvalid => None
    | ChatFailed => None
    end.

(** [add_user_command]; [sender] is [message.from_user.id] and
    [command] is [message.command]. *)
Definition add_user_command (bot : Bot) (sender : Z) (command : list string)
  : Prog (Reply * Bot) :=
  if negb (is_owner sender (config bot)) then Ret (OwnerOnly, bot)
  else
    match command with
    | _ :: user_input :: _ =>
        do user_id <- resolve_user_id user_input;
        match user_id with
        | None => Ret (InvalidUser, bot)
        | Some 0 => Ret (InvalidUser, bot)
        | Some user_id =>
            if user_id =? owner_id (config bot) then Ret (OwnerAlreadyAuthorized, bot)
            else Ret (UserAuthorized user_id,
                      with_config (add_authorized_user user_id (config bot)) bot)
        end
    | _ => Ret (Usage, bot)
    end.

Definition remove_user_command (bot : Bot) (sender : Z) (command : list string)
  : Prog (Reply * Bot) :=
  if negb (is_owner sender (config bot)) then Ret (OwnerOnly, bot)
  else
    match command with
    | _ :: user_input :: _ =>
        do user_id <- resolve_user_id user_input;
        match user_id with
        | None => Ret (InvalidUser, bot)
        | Some 0 => Ret (InvalidUser, bot)
        | Some user_id =>
            if user_id =? owner_id (config bot) then Ret (CannotRemoveOwner, bot)
            else if negb (bool_decide (user_id ∈ authorized_users (config bot)))
            then Ret (UserNotListed, bot)
            else Ret (UserRemoved user_id,
                      with_config (remove_authorized_user user_id (config bot)) bot)
        end
    | _ => Ret (Usage, bot)
    end.

(** [generate_secret_command]; [None] when the token source ends
    before a fresh code came up. *)
Definition generate_secret_command (bot : Bot) (sender : Z) (command : list string)
  : Prog (option (Reply * Bot)) :=
  if negb (is_owner sender (config bot)) then Ret (Some (OwnerOnly, bot))
  else
    match command with
    | _ :: user_input :: _ =>
        do user_id <- resolve_user_id user_input;
        match user_id with
        | None => Ret (Some (InvalidUser, bot))
        | Some 0 => Ret (Some (InvalidUser, bot))
        | Some user_id =>
            if negb (bool_decide (user_id ∈ authorized_users (config bot)))
            then Ret (Some (UserNotAuthorizedYet user_id, bot))
            else
              match generate_secret_code user_id (config bot) (token_source bot) with
              | None => Ret None
              | Some (new_code, c, draws) =>
                  Ret (Some (SecretGenerated user_id new_code,
                             {| config := c;
                                current_spam_command := current_spam_command bot;
                                token_source := draws |}))
              end
        end
    | _ => Ret (Some (Usage, bot))
    end.

Definition revoke_secret_command (bot : Bot) (sender : Z) (command : list string)
  : Reply * Bot :=
  if negb (is_owner sender (config bot)) then (OwnerOnly, bot)
  else
    match command with
    | _ :: code_to_revoke :: _ =>
        let '(c, found) := revoke_secret_code code_to_revoke (config bot) in
        if found then (SecretRevoked code_to_revoke, with_config c bot)
        else (SecretNotFound code_to_revoke, with_config c bot)
    | _ => (Usage, bot)
    end.

Definition add_chat_command (bot : Bot) (sender : Z) (command : list string)
  : Reply * Bot :=
  if negb (is_owner sender (config bot)) then (OwnerOnly, bot)
  else
    match command with
    | _ :: chat_input :: _ =>
        match resolve_chat_id chat_input with
        | None => (InvalidChat, bot)
        | Some 0 => (InvalidChat, bot)
        | Some chat_id =>
            if bool_decide (chat_id ∈ authorized_chats (config bot))
            then (ChatAlreadyAuthorized, bot)
            else (ChatAuthorized chat_id,
                  with_config (add_authorized_chat chat_id (config bot)) bot)
        end
    | _ => (Usage, bot)
    end.

Definition remove_chat_command (bot : Bot) (sender : Z) (command : list string)
  : Reply * Bot :=
  if negb (is_owner sender (config bot)) then (OwnerOnly, bot)
  else
    match command with
    | _ :: chat_input :: _ =>
        match resolve_chat_id chat_input with
        | None => (InvalidChat, bot)
        | Some 0 => (InvalidChat, bot)
        | Some chat_id =>
            if negb (bool_decide (chat_id ∈ authorized_chats (config bot)))
            then (ChatNotListed, bot)
            else (ChatRemoved chat_id,
                  with_config (remove_authorized_chat chat_id (config bot)) bot)
        end
    | _ => (Usage, bot)
    end.

(** [set_command_command]: the setter normalizes the command, and the
    global trigger is read back from the configuration. *)
Definition set_command_command (bot : Bot) (sender : Z) (command : list string)
  : Reply * Bot :=
  if negb (is_owner sender (config bot)) then (OwnerOnly, bot)
  else
    match command with
    | _ :: new_command :: _ =>
        let old_command := spam_command (config bot) in
        let c := set_spam_command new_command (config bot) in
        (CommandUpdated old_command (spam_command c),
         {| config := c;
            current_spam_command := spam_command c;
            token_source := token_source bot |})
    | _ => (Usage, bot)
    end.

Definition add_message_command (bot : Bot) (sender : Z) (command : list string)
  : Reply * Bot :=
  if negb (is_owner sender (config bot)) then (OwnerOnly, bot)
  else
    match command with
    | _ :: word :: words =>
        let new_message := join (word :: words) in
        if bool_decide (new_message ∈ spam_messages (config bot))
        then (MessageExists, bot)
        else
          let c := add_spam_message new_message (config bot) in
          (MessageAdded (length (spam_messages c)) new_message, with_config c bot)
    | _ => (Usage, bot)
    end.

(** [delete_message_command]: the index given is counted from 1. *)
Definition delete_message_command (bot : Bot) (sender : Z) (command : list string)
  : Reply * Bot :=
  if negb (is_owner sender (config bot)) then (OwnerOnly, bot)
  else
    let messages := spam_messages (config bot) in
    match command with
    | _ :: index_input :: _ =>
        match Py.int index_input with
        | None => (IndexNotNumber, bot)
        | Some k =>
            let index := k - 1 in
            if (index <? 0) || (index >=? Z.of_nat (length messages))
            then (InvalidIndex (length messages), bot)
            else
              let deleted_message := default "" (messages !! Z.to_nat index) in
              let c := remove_spam_message index (config bot) in
              (MessageDeleted (length (spam_messages c)) deleted_message,
               with_config c bot)
        end
    | _ =>
        match messages with
        | [] => (NoMessagesConfigured, bot)
        | _ => (MessageListing messages, bot)
        end
    end.

Definition clear_messages_command (bot : Bot) (sender : Z) : Reply * Bot :=
  if negb (is_owner sender (config bot)) then (OwnerOnly, bot)
  else
    match spam_messages (config bot) with
    | [] => (NoMessagesToClear, bot)
    | _ =>
        (MessagesCleared,
         with_config (set_spam_messages [default_message] (config bot)) bot)
    end.

(** The commands above, by name. *)
Inductive OwnerCommand :=
| AddUser | RemoveUser | GenerateSecret | RevokeSecret | AddChat | RemoveChat
| SetCommand | AddMessage | DeleteMessage | ClearMessages.

Definition owner_command (name : OwnerCommand) (bot : Bot) (sender : Z)
    (command : list string) : Prog (option (Reply * Bot)) :=
  match name with
  | AddUser => do r <- add_user_command bot sender command; Ret (Some r)
  | RemoveUser => do r <- remove_user_command bot sender command; Ret (Some r)
  | GenerateSecret => generate_secret_command bot sender command
  | RevokeSecret => Ret (Some (revoke_secret_command bot sender command))
  | AddChat => Ret (Some (add_chat_command bot sender command))
  | RemoveChat => Ret (Some (remove_chat_command bot sender command))
  | SetCommand => Ret (Some (set_command_command bot sender command))
  | AddMessage => Ret (Some (add_message_command bot sender command))
  | DeleteMessage => Ret (Some (delete_message_command bot sender command))
  | ClearMessages => Ret (Some (clear_messages_command bot sender))
  end.

End Commands.

End Owner.

(** ** Further vocabulary *)

Module Conditions.
Import Config Platform Handler Owner.

(** The chat a send attempt goes to. *)
Definition send_chat (e : Event) : option Z :=
  match e with
  | Ev c _ => match c with send_message chat_id _ => Some chat_id | _ => None end
  end.

(** Traces without any send. *)
Definition quiet (t : list Event) : Prop := Forall (fun e => send_chat e = None) t.

(** The status the bot was found to have in a chat. *)
Definition member_status (e : Event) : option (Z * ChatMemberStatus) :=
  match e with
  | Ev c r =>
      match c in Call R return R -> option (Z * ChatMemberStatus) with
      | get_chat_member_me chat_id =>
          fun r => match r with
                   | MemberStatus s => Some (chat_id, s)
                   | _ => None
                   end
      | _ => fun _ => None
      end r
  end.

(** What the gate asks of a command before anything is dispatched:
    the text starts with the trigger, the chat is not private and is
    authorized, the text has at least four fields, the second one is a
    code bound to an account other than 0, the sender, when there is
    one, is that account, the account is authorized, and the fourth
    field is an integer from 1 to 100. *)
Record Accepted (cfg : BotConfig) (current_spam_command : string)
    (message : Message) (account : Z) (target_input : string) (quantity : Z)
  : Prop := {
  accepted_command : Spec.is_command current_spam_command message = true;
  accepted_not_private : chat_type (chat message) ≠ PRIVATE;
  accepted_chat : chat_id (chat message) ∈ authorized_chats cfg;
  accepted_fields :
    ∃ command code quantity_input rest,
      Spec.fields message = command :: code :: target_input :: quantity_input :: rest ∧
      get_user_id_from_code code cfg = Some account ∧
      Py.int quantity_input = Some quantity;
  accepted_account : account ≠ 0;
  accepted_sender :
    from_user message = None
    ∨ (∃ sender, from_user message = Some sender ∧ uid sender = account);
  accepted_authorized : account ∈ authorized_users cfg;
  accepted_quantity : 1 ≤ quantity ≤ 100
}.

(** What the owner commands keep true of the globals: the owner is
    authorized, no account, chat or template is listed twice, no code is
    bound to the account 0, and the trigger is the configured command. *)
Record Consistent (bot : Bot) : Prop := {
  consistent_owner : owner_id (config bot) ∈ authorized_users (config bot);
  consistent_users : NoDup (authorized_users (config bot));
  consistent_chats : NoDup (authorized_chats (config bot));
  consistent_messages : NoDup (spam_messages (config bot));
  consistent_codes :
    ∀ code account, user_secret_codes (config bot) !! code = Some account → account ≠ 0;
  consistent_trigger : current_spam_command bot = spam_command (config bot)
}.

(** A platform that knows one chat by name, for the examples of the
    owner commands. *)
Definition example_get_chat (name : string) : ChatResult :=
  if String.eqb name "lounge" then ChatFound (-1001) else ChatInvalid.

Definition example_bot : Bot :=
  {| config := Spec.example_config;
     current_spam_command := "/s";
     token_source := ["ABC123"; "K9"; "Q3"] |}.

End Conditions.

(** * Properties *)

(** ** The token registry and the authorization ledger *)

Module ConfigFacts.
Import Config.

Lemma list_remove_first_keeps (x y : Z) (l : list Z) :
  y ≠ x → y ∈ l → y ∈ list_remove_first x l.
Proof.
  intros Hne. induction l as [|z l IH]; simpl; [done|].
  intros Hin. apply elem_of_cons in Hin as [->|Hin].
  - rewrite bool_decide_eq_false_2 by done. apply elem_of_cons; by left.
  - case_bool_decide; [done|]. apply elem_of_cons; right; by apply IH.
Qed.

Lemma init_owner_id (loaded : BotConfig) : owner_id (init loaded) = owner_id loaded.
Proof. unfold init. by case_bool_decide. Qed.

Lemma init_lists_owner (loaded : BotConfig) :
  owner_id loaded ∈ authorized_users (init loaded).
Proof.
  unfold init. case_bool_decide; [done|]. simpl.
  apply elem_of_app; right. apply list_elem_of_singleton. done.
Qed.

Lemma add_authorized_user_owner (u : Z) (c : BotConfig) :
  owner_id (add_authorized_user u c) = owner_id c.
Proof. unfold add_authorized_user. by destruct (_ && _). Qed.

Lemma remove_authorized_user_owner (u : Z) (c : BotConfig) :
  owner_id (remove_authorized_user u c) = owner_id c.
Proof. unfold remove_authorized_user. by destruct (_ && _). Qed.

Lemma add_authorized_user_keeps (u x : Z) (c : BotConfig) :
  x ∈ authorized_users c → x ∈ authorized_users (add_authorized_user u c).
Proof.
  unfold add_authorized_user. destruct (_ && _); [|done]. simpl.
  intros ?. apply elem_of_app; by left.
Qed.

Lemma remove_authorized_user_keeps_owner (u : Z) (c : BotConfig) :
  owner_id c ∈ authorized_users c →
  owner_id c ∈ authorized_users (remove_authorized_user u c).
Proof.
  unfold remove_authorized_user.
  destruct (bool_decide _ && _) eqn:E; [|done]. simpl. intros Hin.
  apply andb_true_iff in E as [_ E]. apply negb_true_iff, Z.eqb_neq in E.
  apply list_remove_first_keeps; [congruence|done].
Qed.

Lemma remove_owner_no_op (c : BotConfig) :
  remove_authorized_user (owner_id c) c = c.
Proof.
  unfold remove_authorized_user. rewrite Z.eqb_refl. simpl.
  by rewrite andb_false_r.
Qed.

Lemma ledger_op_keeps_owner (c : BotConfig) (op : LedgerOp) :
  owner_id c ∈ authorized_users c →
  owner_id (apply_ledger_op c op) = owner_id c ∧
  owner_id c ∈ authorized_users (apply_ledger_op c op).
Proof.
  intros Hin. destruct op as [u|u]; simpl.
  - split; [apply add_authorized_user_owner|by apply add_authorized_user_keeps].
  - split; [apply remove_authorized_user_owner|
            by apply remove_authorized_user_keeps_owner].
Qed.

Lemma ledger_ops_keep_owner (ops : list LedgerOp) (c : BotConfig) :
  owner_id c ∈ authorized_users c →
  owner_id (foldl apply_ledger_op c ops) = owner_id c ∧
  owner_id c ∈ authorized_users (foldl apply_ledger_op c ops).
Proof.
  revert c. induction ops as [|op ops IH]; intros c Hin; simpl; [done|].
  destruct (ledger_op_keeps_owner c op Hin) as [Ho Hin'].
  rewrite <- Ho in Hin'. destruct (IH _ Hin') as [Ho' Hin''].
  rewrite Ho' , Ho in *. done.
Qed.

(** The mutators other than the two of the token registry leave the
    token table alone. *)
Lemma apply_ledger_op_codes (c : BotConfig) (op : LedgerOp) :
  user_secret_codes (apply_ledger_op c op) = user_secret_codes c.
Proof.
  destruct op; simpl; unfold add_authorized_user, remove_authorized_user;
    by destruct (_ && _).
Qed.

Lemma fresh_code_spec (codes : gmap string Z) (draws : list string)
    (code t : string) (rest : list string) :
  fresh_code codes code draws = Some (t, rest) →
  codes !! t = None ∧ t ∈ code :: draws ∧ (length rest ≤ length draws)%nat.
Proof.
  revert code. induction draws as [|d draws IH]; intros code; simpl.
  - destruct (codes !! code) eqn:E; [done|]. intros [= <- <-].
    split; [done|]. split; [apply elem_of_cons; by left|done].
  - destruct (codes !! code) eqn:E.
    + intros H. apply IH in H as (? & ? & ?).
      split; [done|]. split; [apply elem_of_cons; by right|simpl; lia].
    + intros [= <- <-]. split; [done|]. split; [apply elem_of_cons; by left|done].
Qed.

Lemma fresh_code_returns (codes : gmap string Z) (draws : list string)
    (code fresh : string) :
  fresh ∈ code :: draws → codes !! fresh = None →
  is_Some (fresh_code codes code draws).
Proof.
  revert code. induction draws as [|d draws IH]; intros code Hin Hfresh; simpl.
  - apply list_elem_of_singleton in Hin as ->. by rewrite Hfresh.
  - destruct (codes !! code) eqn:E; [|done].
    apply IH; [|done]. apply elem_of_cons in Hin as [->|Hin]; [congruence|done].
Qed.

Lemma generate_secret_code_spec (account : Z) (c c1 : BotConfig)
    (draws draws1 : list string) (t : string) :
  generate_secret_code account c draws = Some (t, c1, draws1) →
  user_secret_codes c !! t = None ∧ t ∈ draws ∧
  c1 = set_user_secret_codes (<[t := account]> (user_secret_codes c)) c.
Proof.
  unfold generate_secret_code. destruct draws as [|code draws]; [done|].
  destruct (fresh_code _ _ _) as [[t' rest]|] eqn:E; [|done].
  intros [= <- <- <-]. apply fresh_code_spec in E as (? & ? & ?). done.
Qed.

Lemma generate_secret_code_returns (account : Z) (c : BotConfig)
    (draws : list string) (fresh : string) :
  fresh ∈ draws → user_secret_codes c !! fresh = None →
  is_Some (generate_secret_code account c draws).
Proof.
  unfold generate_secret_code. destruct draws as [|code draws].
  - intros H. by apply elem_of_nil in H.
  - intros Hin Hf.
    destruct (fresh_code_returns _ _ _ _ Hin Hf) as [[t rest] ->]. done.
Qed.

Lemma apply_op_keeps_binding (c c' : BotConfig) (draws draws' : list string)
    (op : ConfigOp) (t : string) (account : Z) :
  apply_op (c, draws) op = Some (c', draws') →
  op ≠ OpRevoke t →
  user_secret_codes c !! t = Some account →
  user_secret_codes c' !! t = Some account.
Proof.
  intros Hop Hne Hb. destruct op; simpl in Hop.
  - injection Hop as <- <-. by rewrite apply_ledger_op_codes.
  - injection Hop as <- <-. unfold add_authorized_chat. by case_bool_decide.
  - injection Hop as <- <-. unfold remove_authorized_chat. by case_bool_decide.
  - injection Hop as <- <-. unfold add_spam_message. by case_bool_decide.
  - injection Hop as <- <-. unfold remove_spam_message. by destruct (_ && _).
  - injection Hop as <- <-. done.
  - injection Hop as <- <-. done.
  - destruct (generate_secret_code _ _ _) as [[[t' c1] d1]|] eqn:E; [|done].
    injection Hop as <- <-.
    apply generate_secret_code_spec in E as (Hfresh & _ & ->). simpl.
    rewrite lookup_insert_ne; [done|]. intros ->. congruence.
  - injection Hop as <- <-. unfold revoke_secret_code.
    destruct (user_secret_codes c !! code) eqn:E; simpl; [|done].
    rewrite lookup_delete_ne; [done|]. intros ->. by apply Hne.
Qed.

Lemma apply_ops_keep_binding (ops : list ConfigOp) (s s' : Store)
    (t : string) (account : Z) :
  apply_ops s ops = Some s' →
  Forall (λ op, op ≠ OpRevoke t) ops →
  user_secret_codes (fst s) !! t = Some account →
  user_secret_codes (fst s') !! t = Some account.
Proof.
  revert s. induction ops as [|op ops IH]; intros s; simpl.
  - by intros [= ->].
  - destruct (apply_op s op) as [s1|] eqn:E; [|done].
    intros Hrun Hall Hb. apply Forall_cons in Hall as [Hop Hall].
    apply (IH s1); [done..|]. destruct s as [c d], s1 as [c1 d1].
    by eapply apply_op_keeps_binding.
Qed.

Lemma revoke_secret_code_result (code : string) (c : BotConfig) :
  snd (revoke_secret_code code c) = bool_decide (is_Some (user_secret_codes c !! code)).
Proof.
  unfold revoke_secret_code. destruct (user_secret_codes c !! code) eqn:E.
  - symmetry. apply bool_decide_eq_true_2. eauto.
  - symmetry. apply bool_decide_eq_false_2. by intros [? ?].
Qed.

Lemma revoke_secret_code_removes (code : string) (c : BotConfig) :
  get_user_id_from_code code (fst (revoke_secret_code code c)) = None.
Proof.
  unfold revoke_secret_code, get_user_id_from_code.
  destruct (user_secret_codes c !! code) eqn:E; simpl; [|done].
  apply lookup_delete_eq.
Qed.

Lemma revoke_secret_code_unknown (code : string) (c : BotConfig) :
  user_secret_codes c !! code = None → revoke_secret_code code c = (c, false).
Proof. unfold revoke_secret_code. by intros ->. Qed.

(** C3.  A code that [generate_secret_code] returned for an account
    resolves ([get_user_id_from_code]) to that account, at once and
    after any further mutations of the document among which the code is
    not revoked; right after [revoke_secret_code] it resolves to nothing.
    [revoke_secret_code] answers [True] exactly when the code was bound,
    and on an unbound code it changes nothing and answers [False], so
    that revoking twice is the same as revoking once. *)
Theorem issued_code_resolves_until_revoked
    (account : Z) (c c1 : BotConfig) (draws draws1 : list string) (t : string)
    (ops : list ConfigOp) (s : Store) :
  generate_secret_code account c draws = Some (t, c1, draws1) →
  Forall (λ op, op ≠ OpRevoke t) ops →
  apply_ops (c1, draws1) ops = Some s →
  get_user_id_from_code t c1 = Some account ∧
  get_user_id_from_code t (fst s) = Some account ∧
  snd (revoke_secret_code t (fst s)) = true ∧
  get_user_id_from_code t (fst (revoke_secret_code t (fst s))) = None ∧
  (∀ code c', snd (revoke_secret_code code c')
              = bool_decide (is_Some (get_user_id_from_code code c'))) ∧
  (∀ code c', get_user_id_from_code code (fst (revoke_secret_code code c')) = None) ∧
  (∀ code c', get_user_id_from_code code c' = None →
              revoke_secret_code code c' = (c', false)) ∧
  (∀ code c', revoke_secret_code code (fst (revoke_secret_code code c'))
              = (fst (revoke_secret_code code c'), false)).
Proof.
  intros Hgen Hall Hrun.
  apply generate_secret_code_spec in Hgen as (Hfresh & _ & ->).
  assert (Hnow : get_user_id_from_code t
            (set_user_secret_codes (<[t:=account]> (user_secret_codes c)) c)
          = Some account) by apply lookup_insert_eq.
  assert (Hlater : get_user_id_from_code t (fst s) = Some account)
    by (eapply apply_ops_keep_binding; eauto).
  repeat split; try done.
  - rewrite revoke_secret_code_result. apply bool_decide_eq_true_2.
    unfold get_user_id_from_code in Hlater. rewrite Hlater. eauto.
  - apply revoke_secret_code_removes.
  - intros. apply revoke_secret_code_result.
  - intros. apply revoke_secret_code_removes.
  - intros. by apply revoke_secret_code_unknown.
  - intros. apply revoke_secret_code_unknown, revoke_secret_code_removes.
Qed.

Lemma issued_code_resolves_until_revoked_witness :
  get_user_id_from_code "ABC123"
    (fst (revoke_secret_code "K9"
       (add_authorized_user 7
          (set_user_secret_codes {[ "ABC123" := 42 ]} (DEFAULT_CONFIG 1)))))
  = Some 42.
Proof.
  refine (proj1 (proj2
    (issued_code_resolves_until_revoked 42 (DEFAULT_CONFIG 1)
       (set_user_secret_codes {[ "ABC123" := 42 ]} (DEFAULT_CONFIG 1))
       ["ABC123"; "K9"] ["K9"] "ABC123"
       [OpLedger (Authorize 7); OpRevoke "K9"]
       (fst (revoke_secret_code "K9"
          (add_authorized_user 7
             (set_user_secret_codes {[ "ABC123" := 42 ]} (DEFAULT_CONFIG 1)))),
        ["K9"])
       _ _ _))).
  - reflexivity.
  - constructor; [discriminate|]. constructor; [discriminate|]. constructor.
  - reflexivity.
Defined.

(** C4.  After [__init__] and after any sequence of
    [add_authorized_user] and [remove_authorized_user] calls the owner
    is listed in [authorized_users] and is still the owner the document
    was loaded with: [__init__] appends the owner when the loaded list
    lacks it, and [remove_authorized_user] leaves the owner in, whatever
    account it is asked to remove. *)
Theorem owner_always_authorized (loaded : BotConfig) (ops : list LedgerOp) (u : Z) :
  authorized_users (init loaded)
    = (if bool_decide (owner_id loaded ∈ authorized_users loaded)
       then authorized_users loaded
       else (authorized_users loaded ++ [owner_id loaded])%list) ∧
  owner_id loaded ∈ authorized_users (init loaded) ∧
  owner_id (foldl apply_ledger_op (init loaded) ops) = owner_id loaded ∧
  owner_id loaded ∈ authorized_users (foldl apply_ledger_op (init loaded) ops) ∧
  remove_authorized_user (owner_id loaded) (foldl apply_ledger_op (init loaded) ops)
    = foldl apply_ledger_op (init loaded) ops ∧
  owner_id loaded
    ∈ authorized_users
        (remove_authorized_user u (foldl apply_ledger_op (init loaded) ops)).
Proof.
  pose proof (init_lists_owner loaded) as Hinit.
  pose proof (init_owner_id loaded) as Hid.
  assert (Hinit' : owner_id (init loaded) ∈ authorized_users (init loaded))
    by (by rewrite Hid).
  destruct (ledger_ops_keep_owner ops _ Hinit') as [Ho Hin].
  rewrite Hid in Ho, Hin.
  split; [unfold init; by case_bool_decide|].
  repeat split; try done.
  - rewrite <- Ho at 1. apply remove_owner_no_op.
  - rewrite <- Ho. apply remove_authorized_user_keeps_owner. by rewrite Ho.
Qed.

(** C10.  When the token source yields a code that is not bound yet,
    [generate_secret_code] returns: the code it returns was not bound,
    the new table is the old one with that one code bound to the
    account, every other code resolves as before, and the other keys of
    the document are unchanged.  A later call, for the same or another
    account, returns a different code and leaves the first one bound to
    its account. *)
Theorem generate_adds_one_binding
    (account : Z) (c : BotConfig) (draws : list string) (fresh : string) :
  fresh ∈ draws →
  get_user_id_from_code fresh c = None →
  ∃ t c1 draws1,
    generate_secret_code account c draws = Some (t, c1, draws1) ∧
    t ∈ draws ∧
    get_user_id_from_code t c = None ∧
    get_user_id_from_code t c1 = Some account ∧
    user_secret_codes c1 = <[t := account]> (user_secret_codes c) ∧
    size (user_secret_codes c1) = S (size (user_secret_codes c)) ∧
    (∀ t', t' ≠ t → get_user_id_from_code t' c1 = get_user_id_from_code t' c) ∧
    (∀ t' a, get_user_id_from_code t' c = Some a →
             get_user_id_from_code t' c1 = Some a) ∧
    (authorized_users c1, authorized_chats c1, spam_command c1,
     spam_messages c1, owner_id c1)
      = (authorized_users c, authorized_chats c, spam_command c,
         spam_messages c, owner_id c) ∧
    (∀ account2 draws2 t2 c2 rest,
       generate_secret_code account2 c1 draws2 = Some (t2, c2, rest) →
       t2 ≠ t ∧
       get_user_id_from_code t c2 = Some account ∧
       get_user_id_from_code t2 c2 = Some account2).
Proof.
  intros Hin Hfresh.
  destruct (generate_secret_code_returns account c draws fresh Hin Hfresh)
    as [[[t c1] draws1] Hgen].
  exists t, c1, draws1. split; [done|].
  apply generate_secret_code_spec in Hgen as (Ht & Htin & ->).
  unfold get_user_id_from_code. simpl.
  split; [done|]. split; [done|]. split; [apply lookup_insert_eq|].
  split; [done|]. split; [by apply map_size_insert_None|].
  split; [intros t' Hne; by apply lookup_insert_ne|].
  split.
  { intros t' a Hb. rewrite lookup_insert_ne; [done|]. intros ->. congruence. }
  split; [done|].
  intros account2 draws2 t2 c2 rest Hgen2.
  apply generate_secret_code_spec in Hgen2 as (Ht2 & _ & ->). simpl in *.
  assert (t2 ≠ t) as Hne.
  { intros ->. by rewrite lookup_insert_eq in Ht2. }
  split; [done|]. split.
  - rewrite lookup_insert_ne by done. apply lookup_insert_eq.
  - apply lookup_insert_eq.
Qed.

Lemma generate_adds_one_binding_witness :
  ∃ t c1 draws1,
    generate_secret_code 42
      (set_user_secret_codes {[ "ABC123" := 42 ]} (DEFAULT_CONFIG 1))
      ["ABC123"; "K9"; "Q3"] = Some (t, c1, draws1) ∧
    get_user_id_from_code "ABC123" c1 = Some 42.
Proof.
  destruct (generate_adds_one_binding 42
              (set_user_secret_codes {[ "ABC123" := 42 ]} (DEFAULT_CONFIG 1))
              ["ABC123"; "K9"; "Q3"] "K9")
    as (t & c1 & draws1 & Hgen & _ & _ & _ & _ & _ & _ & Hkeep & _).
  - apply elem_of_cons; right. apply elem_of_cons; by left.
  - reflexivity.
  - exists t, c1, draws1. split; [exact Hgen|]. apply Hkeep. reflexivity.
Defined.

End ConfigFacts.

(** ** Runs of handlers *)

Module RunFacts.
Import Config Platform Handler.

Lemma run_bind {A B : Type} (env : Env) (p : Prog A) (f : A -> Prog B) (n : nat) :
  run env n (bind p f)
  = match run env n p with
    | (t, Some a) =>
        let '(t', o) := run env (n + length t)%nat (f a) in ((t ++ t')%list, o)
    | (t, None) => (t, None)
    end.
Proof.
  revert n. induction p as [a| |R c k IH]; intros n; simpl.
  - rewrite Nat.add_0_r. by destruct (run env n (f a)).
  - done.
  - rewrite IH. destruct (run env (S n) (k (env R n c))) as [t [a|]]; simpl; [|done].
    rewrite Nat.add_succ_r. by destruct (run env _ (f a)).
Qed.

Lemma run_call {R B : Type} (env : Env) (n : nat) (c : Call R) (f : R -> Prog B) :
  run env n (bind (call c) f)
  = (Ev c (env _ n c) :: fst (run env (S n) (f (env _ n c))),
     snd (run env (S n) (f (env _ n c)))).
Proof. simpl. by destruct (run env (S n) (f (env R n c))). Qed.

Lemma run_try_delete (env : Env) (n : nat) (chat_id message_id : Z) :
  run env n (try_delete chat_id message_id)
  = ([Ev (delete_messages chat_id message_id)
         (env _ n (delete_messages chat_id message_id))], Some tt).
Proof.
  unfold try_delete, call. simpl. by destruct (env DeleteResult n _).
Qed.

Lemma run_reject (env : Env) (n : nat) (message : Message) (notice : Notice) :
  Spec.two_phase_cleanup message notice
    (fst (run env n (reject message notice)))
    (snd (run env n (reject message notice))).
Proof.
  unfold reject. rewrite run_bind, run_try_delete. cbn -[try_delete].
  destruct (env (option Z) _ (reply_text message notice)) as [w|] eqn:E;
    cbn -[try_delete].
  - rewrite run_try_delete. destruct (env unit _ _). constructor.
  - constructor.
Qed.

Lemma two_phase_cleanup_counts (message : Message) (notice : Notice)
    (t : list Event) (o : option unit) :
  Spec.two_phase_cleanup message notice t o →
  send_attempts t = 0%nat ∧ replies t = 1%nat.
Proof. by intros []. Qed.

Lemma is_private_false (t : ChatType) : t ≠ PRIVATE → is_private t = false.
Proof. by destruct t. Qed.

Lemma is_command_tests (cmd : string) (message : Message) :
  Spec.is_command cmd message = true →
  Py.truthy (text message) = true ∧
  negb (Py.startswith (default "" (text message)) ("/" ++ Py.lstrip "/" cmd))
  && negb (Py.startswith (default "" (text message)) (Py.lstrip "/" cmd)) = false.
Proof.
  unfold Spec.is_command. intros H. apply andb_true_iff in H as [H1 H2].
  split; [done|]. rewrite <- negb_orb. by rewrite H2.
Qed.

End RunFacts.

(** ** The command gate *)

Module GateFacts.
Import Config Platform Handler RunFacts.

Arguments try_delete : simpl never.
Arguments reject : simpl never.

Section Gate.

Variable format_mention : string -> string -> option string.

Local Abbreviation handler := (universal_message_handler format_mention).

Ltac enter_handler Hcmd :=
  unfold universal_message_handler;
  let Htruthy := fresh "Htruthy" in
  let Hprefix := fresh "Hprefix" in
  destruct (is_command_tests _ _ Hcmd) as [Htruthy Hprefix];
  rewrite Htruthy; cbn [negb]; cbv zeta; rewrite Hprefix.

Ltac pass_chat_check Hprivate Hchat :=
  rewrite (is_private_false _ Hprivate);
  unfold is_chat_authorized; rewrite (bool_decide_eq_true_2 _ Hchat);
  cbn [negb andb].

Lemma run_handler_unauthorized_chat (env : Env) (n : nat) (cfg : BotConfig)
    (cmd : string) (message : Message) :
  Spec.is_command cmd message = true →
  chat_type (chat message) ≠ PRIVATE →
  chat_id (chat message) ∉ authorized_chats cfg →
  run env n (handler cfg cmd message)
  = ([Ev (delete_messages (chat_id (chat message)) (message_id message))
         (env _ n (delete_messages (chat_id (chat message)) (message_id message)))],
     Some tt).
Proof.
  intros Hcmd Hprivate Hchat. enter_handler Hcmd.
  rewrite (is_private_false _ Hprivate).
  unfold is_chat_authorized. rewrite (bool_decide_eq_false_2 _ Hchat).
  cbn [negb andb]. apply run_try_delete.
Qed.

(** C2.  A command in a chat that is not private and not in
    [authorized_chats] is stopped at the chat check: the handler makes
    one call, the deletion of the command message, returns whatever that
    deletion answers (also when it is forbidden), sends nothing and
    posts no notice. *)
Theorem unauthorized_chat_rejected (env : Env) (n : nat) (cfg : BotConfig)
    (cmd : string) (message : Message) :
  Spec.is_command cmd message = true →
  chat_type (chat message) ≠ PRIVATE →
  chat_id (chat message) ∉ authorized_chats cfg →
  (∃ d : DeleteResult,
     fst (run env n (handler cfg cmd message))
     = [Ev (delete_messages (chat_id (chat message)) (message_id message)) d]) ∧
  snd (run env n (handler cfg cmd message)) = Some tt ∧
  send_attempts (fst (run env n (handler cfg cmd message))) = 0%nat ∧
  replies (fst (run env n (handler cfg cmd message))) = 0%nat.
Proof.
  intros Hcmd Hprivate Hchat.
  rewrite (run_handler_unauthorized_chat env n cfg cmd message Hcmd Hprivate Hchat).
  simpl. eauto.
Qed.

Lemma run_handler_unknown_code (env : Env) (n : nat) (cfg : BotConfig)
    (cmd : string) (message : Message)
    (command code target quantity : string) (rest : list string) :
  Spec.is_command cmd message = true →
  chat_type (chat message) ≠ PRIVATE →
  chat_id (chat message) ∈ authorized_chats cfg →
  Spec.fields message = command :: code :: target :: quantity :: rest →
  get_user_id_from_code code cfg = None ∨ get_user_id_from_code code cfg = Some 0 →
  run env n (handler cfg cmd message) = run env n (reject message InvalidCode).
Proof.
  intros Hcmd Hprivate Hchat Hfields Hcode. enter_handler Hcmd.
  pass_chat_check Hprivate Hchat.
  unfold Spec.fields in Hfields. rewrite Hfields.
  by destruct Hcode as [-> | ->].
Qed.

Lemma run_reject_posted (env : Env) (n : nat) (message : Message)
    (notice : Notice) (warning : Z) :
  env _ (S n) (reply_text message notice) = Some warning →
  ∃ d1 d2,
    run env n (reject message notice)
    = ([Ev (delete_messages (chat_id (chat message)) (message_id message)) d1;
        Ev (reply_text message notice) (Some warning);
        Ev (sleep (Seconds 20)) tt;
        Ev (delete_messages (chat_id (chat message)) warning) d2],
       Some tt).
Proof.
  intros Hpost. unfold reject. rewrite run_bind, run_try_delete.
  cbn -[try_delete]. rewrite Nat.add_1_r, Hpost. cbn -[try_delete].
  rewrite run_try_delete. destruct (env unit _ _). eauto.
Qed.

(** C6, as amended.  A command in an authorized chat that is not
    private, with at least four fields, whose second field is not a key
    of [user_secret_codes], gets the two-phase cleanup: the command is
    deleted, one notice is posted and, once the platform has returned
    it, deleted after [asyncio.sleep(20)]; nothing is sent. *)
Theorem unknown_code_rejected (env : Env) (n : nat) (cfg : BotConfig)
    (cmd : string) (message : Message)
    (command code target quantity : string) (rest : list string) :
  Spec.is_command cmd message = true →
  chat_type (chat message) ≠ PRIVATE →
  chat_id (chat message) ∈ authorized_chats cfg →
  Spec.fields message = command :: code :: target :: quantity :: rest →
  get_user_id_from_code code cfg = None →
  Spec.two_phase_cleanup message InvalidCode
    (fst (run env n (handler cfg cmd message)))
    (snd (run env n (handler cfg cmd message))) ∧
  send_attempts (fst (run env n (handler cfg cmd message))) = 0%nat ∧
  replies (fst (run env n (handler cfg cmd message))) = 1%nat ∧
  (∀ warning, env _ (S n) (reply_text message InvalidCode) = Some warning →
     ∃ d1 d2,
       run env n (handler cfg cmd message)
       = ([Ev (delete_messages (chat_id (chat message)) (message_id message)) d1;
           Ev (reply_text message InvalidCode) (Some warning);
           Ev (sleep (Seconds 20)) tt;
           Ev (delete_messages (chat_id (chat message)) warning) d2],
          Some tt)).
Proof.
  intros Hcmd Hprivate Hchat Hfields Hcode.
  rewrite (run_handler_unknown_code env n cfg cmd message _ _ _ _ _
             Hcmd Hprivate Hchat Hfields (or_introl Hcode)).
  pose proof (run_reject env n message InvalidCode) as Hshape.
  destruct (two_phase_cleanup_counts _ _ _ _ Hshape) as [Hs Hr].
  split; [done|]. split; [done|]. split; [done|].
  intros warning Hpost. by apply run_reject_posted.
Qed.

Lemma run_handler_sender_mismatch (env : Env) (n : nat) (cfg : BotConfig)
    (cmd : string) (message : Message)
    (command code target quantity : string) (rest : list string)
    (account : Z) (sender : User) :
  Spec.is_command cmd message = true →
  chat_type (chat message) ≠ PRIVATE →
  chat_id (chat message) ∈ authorized_chats cfg →
  Spec.fields message = command :: code :: target :: quantity :: rest →
  get_user_id_from_code code cfg = Some account →
  from_user message = Some sender →
  uid sender ≠ account →
  run env n (handler cfg cmd message)
  = run env n (reject message (if account =? 0 then InvalidCode else SenderMismatch)).
Proof.
  intros Hcmd Hprivate Hchat Hfields Hcode Hsender Hne. enter_handler Hcmd.
  pass_chat_check Hprivate Hchat.
  unfold Spec.fields in Hfields. rewrite Hfields, Hcode, Hsender.
  apply Z.eqb_neq in Hne. by destruct account; cbn [Z.eqb]; rewrite ?Hne.
Qed.

Lemma run_handler_accepted (env : Env) (n : nat) (cfg : BotConfig)
    (cmd : string) (message : Message)
    (command code target quantity : string) (rest : list string) (account : Z) :
  Spec.is_command cmd message = true →
  chat_type (chat message) ≠ PRIVATE →
  chat_id (chat message) ∈ authorized_chats cfg →
  Spec.fields message = command :: code :: target :: quantity :: rest →
  get_user_id_from_code code cfg = Some account →
  account ≠ 0 →
  from_user message = None
  ∨ (∃ sender, from_user message = Some sender ∧ uid sender = account) →
  run env n (handler cfg cmd message)
  = run env n (authorize_and_dispatch format_mention cfg message account target quantity).
Proof.
  intros Hcmd Hprivate Hchat Hfields Hcode Hnz Hsender. enter_handler Hcmd.
  pass_chat_check Hprivate Hchat.
  unfold Spec.fields in Hfields. rewrite Hfields, Hcode.
  destruct Hsender as [-> | (sender & -> & ->)].
  - by destruct account.
  - rewrite Z.eqb_refl. by destruct account.
Qed.

Lemma run_authorize_rejected (env : Env) (n : nat) (cfg : BotConfig)
    (message : Message) (account : Z) (target quantity : string) :
  account ∉ authorized_users cfg →
  run env n (authorize_and_dispatch format_mention cfg message account target quantity)
  = run env n (reject message AccountNotAuthorized).
Proof.
  intros Hout. unfold authorize_and_dispatch, is_authorized.
  by rewrite (bool_decide_eq_false_2 _ Hout).
Qed.

Lemma run_authorize_invalid_quantity (env : Env) (n : nat) (cfg : BotConfig)
    (message : Message) (account : Z) (target quantity : string) :
  account ∈ authorized_users cfg →
  Py.int quantity = None
  ∨ (∃ q, Py.int quantity = Some q ∧ (q < 1 ∨ 100 < q)) →
  run env n (authorize_and_dispatch format_mention cfg message account target quantity)
  = run env n (try_delete (chat_id (chat message)) (message_id message)).
Proof.
  intros Hin Hq. unfold authorize_and_dispatch, is_authorized.
  rewrite (bool_decide_eq_true_2 _ Hin). cbn [negb].
  rewrite run_bind, !run_try_delete.
  destruct Hq as [-> | (q & -> & Hq)]; [done|].
  replace ((q <? 1) || (q >? 100)) with true; [done|].
  symmetry. apply orb_true_iff. destruct Hq; [left|right]; lia.
Qed.

(** A command whose code is bound to an account other than its sender
    sends nothing, wherever the handler stops. *)
Lemma mismatch_never_sends (env : Env) (n : nat) (cfg : BotConfig)
    (cmd : string) (message : Message) (code : string) (account : Z)
    (sender : User) :
  Spec.fields message !! 1%nat = Some code →
  get_user_id_from_code code cfg = Some account →
  from_user message = Some sender →
  uid sender ≠ account →
  send_attempts (fst (run env n (handler cfg cmd message))) = 0%nat.
Proof.
  intros Hfield Hcode Hsender Hne. unfold universal_message_handler.
  destruct (negb (Py.truthy (text message))); [done|]. cbv zeta.
  destruct (negb _ && negb _); [done|].
  destruct (negb (is_private _) && negb _); [by rewrite run_try_delete|].
  destruct (is_private _).
  { cbn. by destruct (env (option Z) n _). }
  unfold Spec.fields in Hfield.
  destruct (Py.split _) as [|f0 [|f1 [|f2 [|f3 more]]]];
    try (by rewrite run_try_delete).
  injection Hfield as ->. rewrite Hcode, Hsender.
  apply Z.eqb_neq in Hne.
  assert (send_attempts (fst (run env n (reject message InvalidCode))) = 0%nat)
    by (eapply two_phase_cleanup_counts, run_reject).
  assert (send_attempts (fst (run env n (reject message SenderMismatch))) = 0%nat)
    by (eapply two_phase_cleanup_counts, run_reject).
  by destruct account; rewrite ?Hne.
Qed.

(** C1, as amended.  A command whose second field is a code bound to
    an account, sent by an identifiable sender other than that account,
    sends nothing, whether or not the bound account is authorized.
    When it arrives in an authorized chat that is not private and has
    at least four fields, it gets the two-phase cleanup: the command is
    deleted, a notice is posted and, once the platform has returned it,
    deleted after [asyncio.sleep(20)]. *)
Theorem sender_mismatch_rejected (env : Env) (n : nat) (cfg : BotConfig)
    (cmd : string) (message : Message) (code : string) (account : Z)
    (sender : User) :
  Spec.fields message !! 1%nat = Some code →
  get_user_id_from_code code cfg = Some account →
  from_user message = Some sender →
  uid sender ≠ account →
  send_attempts (fst (run env n (handler cfg cmd message))) = 0%nat ∧
  (Spec.is_command cmd message = true →
   chat_type (chat message) ≠ PRIVATE →
   chat_id (chat message) ∈ authorized_chats cfg →
   (4 ≤ length (Spec.fields message))%nat →
   ∃ notice,
     Spec.two_phase_cleanup message notice
       (fst (run env n (handler cfg cmd message)))
       (snd (run env n (handler cfg cmd message))) ∧
     replies (fst (run env n (handler cfg cmd message))) = 1%nat ∧
     notice = (if account =? 0 then InvalidCode else SenderMismatch) ∧
     (∀ warning, env _ (S n) (reply_text message notice) = Some warning →
        ∃ d1 d2,
          run env n (handler cfg cmd message)
          = ([Ev (delete_messages (chat_id (chat message)) (message_id message)) d1;
              Ev (reply_text message notice) (Some warning);
              Ev (sleep (Seconds 20)) tt;
              Ev (delete_messages (chat_id (chat message)) warning) d2],
             Some tt))).
Proof.
  intros Hfield Hcode Hsender Hne.
  split; [by eapply mismatch_never_sends|].
  intros Hcmd Hprivate Hchat Hlen.
  destruct (Spec.fields message) as [|f0 [|f1 [|f2 [|f3 more]]]] eqn:Hfields;
    simpl in Hlen; try lia.
  injection Hfield as ->.
  rewrite (run_handler_sender_mismatch env n cfg cmd message _ _ _ _ _ _ _
             Hcmd Hprivate Hchat Hfields Hcode Hsender Hne).
  eexists. split; [apply run_reject|].
  split; [eapply two_phase_cleanup_counts, run_reject|].
  split; [done|]. intros warning Hpost. by apply run_reject_posted.
Qed.

(** C8, as amended.  A command in a chat that is not private is
    rejected with the two-phase cleanup (command deleted, a notice
    posted and, once the platform has returned it, deleted after
    [asyncio.sleep(20)]) in three cases, met in an authorized chat by a
    command of at least four fields: the code is not bound, the sender
    is not the account the code is bound to, the bound account is not
    authorized.  In the fourth case, the chat is not authorized, the
    command is deleted and no notice is posted. *)
Theorem rejections_clean_up (env : Env) (n : nat) (cfg : BotConfig)
    (cmd : string) (message : Message) :
  Spec.is_command cmd message = true →
  chat_type (chat message) ≠ PRIVATE →
  (chat_id (chat message) ∉ authorized_chats cfg →
     (∃ d : DeleteResult,
        fst (run env n (handler cfg cmd message))
        = [Ev (delete_messages (chat_id (chat message)) (message_id message)) d]) ∧
     snd (run env n (handler cfg cmd message)) = Some tt ∧
     replies (fst (run env n (handler cfg cmd message))) = 0%nat) ∧
  (∀ command code target quantity rest,
     chat_id (chat message) ∈ authorized_chats cfg →
     Spec.fields message = command :: code :: target :: quantity :: rest →
     (get_user_id_from_code code cfg = None →
        Spec.two_phase_cleanup message InvalidCode
          (fst (run env n (handler cfg cmd message)))
          (snd (run env n (handler cfg cmd message)))) ∧
     (∀ account sender,
        get_user_id_from_code code cfg = Some account →
        account ≠ 0 →
        from_user message = Some sender →
        uid sender ≠ account →
        Spec.two_phase_cleanup message SenderMismatch
          (fst (run env n (handler cfg cmd message)))
          (snd (run env n (handler cfg cmd message)))) ∧
     (∀ account,
        get_user_id_from_code code cfg = Some account →
        account ≠ 0 →
        from_user message = None
        ∨ (∃ sender, from_user message = Some sender ∧ uid sender = account) →
        account ∉ authorized_users cfg →
        Spec.two_phase_cleanup message AccountNotAuthorized
          (fst (run env n (handler cfg cmd message)))
          (snd (run env n (handler cfg cmd message))))).
Proof.
  intros Hcmd Hprivate. split.
  - intros Hchat.
    rewrite (run_handler_unauthorized_chat env n cfg cmd message Hcmd Hprivate Hchat).
    simpl. eauto.
  - intros command code target quantity rest Hchat Hfields. repeat split.
    + intros Hcode.
      rewrite (run_handler_unknown_code env n cfg cmd message _ _ _ _ _
                 Hcmd Hprivate Hchat Hfields (or_introl Hcode)).
      apply run_reject.
    + intros account sender Hcode Hnz Hsender Hne.
      rewrite (run_handler_sender_mismatch env n cfg cmd message _ _ _ _ _ _ _
                 Hcmd Hprivate Hchat Hfields Hcode Hsender Hne).
      apply Z.eqb_neq in Hnz. rewrite Hnz. apply run_reject.
    + intros account Hcode Hnz Hsender Hout.
      rewrite (run_handler_accepted env n cfg cmd message _ _ _ _ _ _
                 Hcmd Hprivate Hchat Hfields Hcode Hnz Hsender).
      rewrite (run_authorize_rejected env n cfg message account _ _ Hout).
      apply run_reject.
Qed.

(** C7.  A command that passes the chat check, the parse check, the
    token check, the sender check and the account check, and whose
    quantity field is not an integer literal or is an integer below 1
    or above 100, only has its command message deleted: nothing is
    sent and no notice is posted. *)
Theorem invalid_quantity_aborts (env : Env) (n : nat) (cfg : BotConfig)
    (cmd : string) (message : Message)
    (command code target quantity : string) (rest : list string) (account : Z) :
  Spec.is_command cmd message = true →
  chat_type (chat message) ≠ PRIVATE →
  chat_id (chat message) ∈ authorized_chats cfg →
  Spec.fields message = command :: code :: target :: quantity :: rest →
  get_user_id_from_code code cfg = Some account →
  account ≠ 0 →
  from_user message = None
  ∨ (∃ sender, from_user message = Some sender ∧ uid sender = account) →
  account ∈ authorized_users cfg →
  Py.int quantity = None
  ∨ (∃ q, Py.int quantity = Some q ∧ (q < 1 ∨ 100 < q)) →
  (∃ d : DeleteResult,
     fst (run env n (handler cfg cmd message))
     = [Ev (delete_messages (chat_id (chat message)) (message_id message)) d]) ∧
  snd (run env n (handler cfg cmd message)) = Some tt ∧
  send_attempts (fst (run env n (handler cfg cmd message))) = 0%nat ∧
  replies (fst (run env n (handler cfg cmd message))) = 0%nat.
Proof.
  intros Hcmd Hprivate Hchat Hfields Hcode Hnz Hsender Hin Hq.
  rewrite (run_handler_accepted env n cfg cmd message _ _ _ _ _ _
             Hcmd Hprivate Hchat Hfields Hcode Hnz Hsender).
  rewrite (run_authorize_invalid_quantity env n cfg message account _ _ Hin Hq).
  rewrite run_try_delete. simpl. eauto.
Qed.

End Gate.

End GateFacts.

(** ** The message pool and the send loop *)

Module DispatchFacts.
Import Config Platform Handler RunFacts.

Section Dispatch.

Variable format_mention : string -> string -> option string.

Lemma shuffles_length (messages : list string) (shuffles : list (list string)) :
  Spec.shuffles_of messages shuffles →
  length (concat shuffles) = (length messages * length shuffles)%nat.
Proof.
  induction 1 as [|sh shs Hp _ IH]; simpl; [lia|].
  rewrite length_app, IH, (Permutation_length Hp). lia.
Qed.

Lemma fill_pool_cons (messages : list string) (i : nat) (range : list nat)
    (message_pool : list string) :
  messages ≠ [] →
  fill_pool messages (i :: range) message_pool
  = if (i mod length messages =? 0)%nat
    then bind (call (random_sample messages))
           (fun shuffled =>
              fill_pool messages range (message_pool ++ proj1_sig shuffled)%list)
    else fill_pool messages range message_pool.
Proof. by destruct messages. Qed.

Lemma run_fill_pool (env : Env) (messages : list string) (len : nat) :
  messages ≠ [] →
  ∀ (i k : nat) (shuffles : list (list string)),
    Spec.shuffles_of messages shuffles →
    (i ≤ length messages * length shuffles < i + length messages)%nat →
    ∃ shuffles',
      snd (run env k (fill_pool messages (seq i len) (concat shuffles)))
      = Some (concat shuffles') ∧
      Spec.shuffles_of messages shuffles' ∧
      (i + len ≤ length messages * length shuffles' < i + len + length messages)%nat ∧
      send_attempts (fst (run env k (fill_pool messages (seq i len) (concat shuffles))))
      = 0%nat.
Proof.
  intros Hne. induction len as [|len IH]; intros i k shuffles Hsh Hbound.
  - exists shuffles. simpl. repeat split; try done; lia.
  - cbn [seq]. rewrite fill_pool_cons by done.
    assert (length messages ≠ 0%nat) as Hpos by (by destruct messages).
    destruct (i mod length messages =? 0)%nat eqn:Hmod.
    + apply Nat.eqb_eq in Hmod. rewrite run_call.
      destruct (env _ k (random_sample messages)) as [shuffled Hperm].
      cbn [proj1_sig fst snd].
      destruct (IH (S i) (S k) (shuffles ++ [shuffled])%list)
        as (shs & Hrun & Hshs & Hb & Hs).
      * apply Forall_app. split; [done|]. by constructor.
      * rewrite length_app. simpl.
        apply Nat.Div0.div_exact in Hmod.
        set (a := (i / length messages)%nat) in *.
        assert (length shuffles = a) as -> by nia. lia.
      * rewrite concat_app in Hrun, Hs. simpl in Hrun, Hs.
        rewrite app_nil_r in Hrun, Hs.
        exists shs. repeat split; try done; lia.
    + apply Nat.eqb_neq in Hmod.
      destruct (IH (S i) k shuffles Hsh) as (shs & Hrun & Hshs & Hb & Hs).
      * split; [|lia].
        destruct (decide (i = (length messages * length shuffles)%nat)) as [->|]; [|lia].
        exfalso. apply Hmod. rewrite Nat.mul_comm. apply Nat.Div0.mod_mul.
      * exists shs. repeat split; try done; lia.
Qed.

Lemma concat_block (n : nat) (shuffles : list (list string)) :
  Forall (fun sh => length sh = n) shuffles →
  ∀ (k : nat) (sh : list string),
    shuffles !! k = Some sh →
    take n (drop (k * n) (concat shuffles)) = sh.
Proof.
  induction 1 as [|sh0 shs Hlen _ IH]; intros k sh Hk; [done|].
  destruct k as [|k]; simpl in *.
  - injection Hk as ->. by apply take_app_length'.
  - rewrite drop_app_add' by done. by apply IH.
Qed.

Lemma run_build_message_pool (env : Env) (k : nat) (messages : list string)
    (quantity : Z) :
  0 ≤ quantity →
  messages ≠ [] →
  ∃ message_pool,
    snd (run env k (build_message_pool messages quantity)) = Some message_pool ∧
    Z.of_nat (length message_pool) = quantity ∧
    send_attempts (fst (run env k (build_message_pool messages quantity))) = 0%nat ∧
    ∀ b : nat,
      ((b + 1) * length messages ≤ length message_pool)%nat →
      Permutation
        (take (length messages) (drop (b * length messages) message_pool))
        messages.
Proof.
  intros Hq Hne. unfold build_message_pool. rewrite run_bind.
  assert (length messages ≠ 0%nat) as Hpos by (by destruct messages).
  destruct (run_fill_pool env messages (Z.to_nat quantity) Hne 0 k [])
    as (shs & Hrun & Hshs & Hb & Hs).
  { constructor. }
  { simpl. lia. }
  simpl concat in Hrun, Hs.
  destruct (run env k (fill_pool messages _ [])) as [t o]. simpl in Hrun, Hs.
  subst o. simpl.
  pose proof (shuffles_length _ _ Hshs) as Hlen.
  assert (length (take (Z.to_nat quantity) (concat shs)) = Z.to_nat quantity) as Htake
    by (apply length_take_le; lia).
  exists (take (Z.to_nat quantity) (concat shs)).
  split; [done|]. split; [lia|]. split; [by rewrite app_nil_r|].
  intros b Hblock. rewrite Htake in Hblock.
  rewrite take_drop_commute, take_take, Nat.min_l by lia.
  rewrite <- take_drop_commute.
  destruct (lookup_lt_is_Some_2 shs b) as [sh Hsh]; [nia|].
  rewrite (concat_block (length messages) shs) with (sh := sh); [| |done].
  - by eapply Forall_lookup_1 in Hshs.
  - eapply Forall_impl; [exact Hshs|]. intros x Hx. by apply Permutation_length.
Qed.

(** C5.  For a quantity from 1 to 100 and a template list that is not
    empty, the pool [build_message_pool] returns has exactly [quantity]
    entries, and each block of [len(messages)] entries that starts at a
    multiple of [len(messages)] and ends within the pool is a
    rearrangement of the template list: it holds every template as many
    times as the list does, once when the templates are distinct. *)
Theorem pool_full_cycles (env : Env) (k : nat) (messages : list string)
    (quantity : Z) :
  1 ≤ quantity ≤ 100 →
  messages ≠ [] →
  ∃ message_pool,
    snd (run env k (build_message_pool messages quantity)) = Some message_pool ∧
    Z.of_nat (length message_pool) = quantity ∧
    ∀ b : nat,
      ((b + 1) * length messages ≤ length message_pool)%nat →
      Permutation
        (take (length messages) (drop (b * length messages) message_pool))
        messages.
Proof.
  intros Hq Hne.
  destruct (run_build_message_pool env k messages quantity) as (pool & ? & ? & _ & ?);
    [lia|done|]. eauto.
Qed.

Lemma pool_full_cycles_witness :
  ∃ message_pool,
    snd (run Spec.calm_env 0 (build_message_pool ["Hi {mention}!"; "Yo {mention}"] 3))
    = Some message_pool ∧
    Z.of_nat (length message_pool) = 3.
Proof.
  destruct (pool_full_cycles Spec.calm_env 0 ["Hi {mention}!"; "Yo {mention}"] 3)
    as (pool & Hrun & Hlen & _).
  - lia.
  - discriminate.
  - exists pool. split; [exact Hrun|exact Hlen].
Defined.

(** *** The send loop *)

Lemma send_loop_cons (env : Env) (n : nat) (chat_id : Z) (mention msg_text : string)
    (rest : list string) (count : nat) :
  run env n (send_loop format_mention chat_id mention (msg_text :: rest) count)
  = match format_mention msg_text mention with
    | None => run env n (send_loop format_mention chat_id mention rest count)
    | Some formatted =>
        match env _ n (send_message chat_id formatted) with
        | Sent =>
            let r := run env (S (S n))
                       (send_loop format_mention chat_id mention rest (S count)) in
            (Ev (send_message chat_id formatted) Sent
             :: Ev (sleep RandomPause) tt :: fst r, snd r)
        | FloodWait value =>
            let r := run env (S (S n))
                       (send_loop format_mention chat_id mention rest count) in
            (Ev (send_message chat_id formatted) (FloodWait value)
             :: Ev (sleep (Seconds value)) tt :: fst r, snd r)
        | ChatWriteForbidden =>
            ([Ev (send_message chat_id formatted) ChatWriteForbidden], Some count)
        | SendFailed =>
            let r := run env (S n)
                       (send_loop format_mention chat_id mention rest count) in
            (Ev (send_message chat_id formatted) SendFailed :: fst r, snd r)
        end
    end.
Proof.
  cbn [send_loop]. destruct (format_mention msg_text mention); [|done].
  rewrite run_call. destruct (env _ n (send_message _ _)); cbn [fst snd];
    rewrite ?run_call; try destruct (env unit (S n) _); done.
Qed.

Lemma run_send_loop (env : Env) (chat_id : Z) (mention : string)
    (message_pool : list string) :
  ∀ (n count : nat),
    ∃ final,
      snd (run env n (send_loop format_mention chat_id mention message_pool count))
      = Some final ∧
      Spec.loop_run format_mention chat_id mention message_pool count
        (fst (run env n (send_loop format_mention chat_id mention message_pool count)))
        final.
Proof.
  induction message_pool as [|msg_text rest IH]; intros n count.
  - exists count. simpl. split; [done|constructor].
  - rewrite send_loop_cons.
    destruct (format_mention msg_text mention) as [formatted|] eqn:Hf.
    + destruct (env _ n (send_message chat_id formatted)) as [|value| |];
        cbn [fst snd].
      * destruct (IH (S (S n)) (S count)) as (final & Hr & Hl).
        exists final. split; [done|]. by eapply Spec.loop_sent.
      * destruct (IH (S (S n)) count) as (final & Hr & Hl).
        exists final. split; [done|]. by eapply Spec.loop_flood_wait.
      * exists count. split; [done|]. by eapply Spec.loop_write_forbidden.
      * destruct (IH (S n) count) as (final & Hr & Hl).
        exists final. split; [done|]. by eapply Spec.loop_send_failed.
    + destruct (IH n count) as (final & Hr & Hl).
      exists final. split; [done|]. by eapply Spec.loop_unformatted.
Qed.

Section LoopRuns.

Variables (chat_id : Z) (mention : string).

Local Abbreviation formatted_pool pool :=
  (omap (fun msg_text => format_mention msg_text mention) pool).

Local Abbreviation loop := (Spec.loop_run format_mention chat_id mention).

Lemma loop_run_count pool count t final :
  loop pool count t final → final = (count + sends t)%nat.
Proof.
  induction 1; unfold sends in *; simpl in *; lia.
Qed.

Lemma loop_run_attempts pool count t final :
  loop pool count t final →
  (sends t ≤ send_attempts t ≤ length pool)%nat.
Proof.
  induction 1; unfold sends, send_attempts in *; simpl in *; lia.
Qed.

Lemma loop_run_prefix pool count t final :
  loop pool count t final →
  omap sent_text t `prefix_of` formatted_pool pool.
Proof.
  induction 1 as [| ? ? ? ? ? Hf _ IH | ? ? ? ? ? ? Hf _ IH | ? ? ? ? ? ? ? Hf _ IH
                 | ? ? ? ? Hf | ? ? ? ? ? ? Hf _ IH];
    simpl; rewrite ?Hf; try done.
  - by apply prefix_cons.
  - by apply prefix_cons.
  - apply prefix_cons, prefix_nil.
  - by apply prefix_cons.
Qed.

Lemma loop_run_complete pool count t final :
  loop pool count t final →
  Forall (fun e => send_result e ≠ Some ChatWriteForbidden) t →
  omap sent_text t = formatted_pool pool.
Proof.
  induction 1 as [| ? ? ? ? ? Hf _ IH | ? ? ? ? ? ? Hf _ IH | ? ? ? ? ? ? ? Hf _ IH
                 | ? ? ? ? Hf | ? ? ? ? ? ? Hf _ IH];
    intros Hall; simpl; rewrite ?Hf; try done.
  - by apply IH.
  - do 2 apply Forall_cons in Hall as [_ Hall]. f_equal. by apply IH.
  - do 2 apply Forall_cons in Hall as [_ Hall]. f_equal. by apply IH.
  - apply Forall_cons in Hall as [Hall _]. by destruct Hall.
  - apply Forall_cons in Hall as [_ Hall]. f_equal. by apply IH.
Qed.

Lemma loop_run_flood_wait pool count t final :
  loop pool count t final →
  ∀ (i : nat) (e : Event) (value : Z),
    t !! i = Some e →
    send_result e = Some (FloodWait value) →
    ∃ e', t !! S i = Some e' ∧ slept e' = Some (Seconds value)
          ∧ send_result e' = None.
Proof.
  induction 1 as [| ? ? ? ? ? Hf _ IH | ? ? ? ? ? ? Hf _ IH | ? ? ? ? ? ? ? Hf _ IH
                 | ? ? ? ? Hf | ? ? ? ? ? ? Hf _ IH];
    intros i e v Hi He; try done.
  - by eapply IH.
  - destruct i as [|[|i]]; simpl in *; simplify_eq. by eapply IH.
  - destruct i as [|[|i]]; simpl in *; simplify_eq.
    + cbv [send_result] in He. simplify_eq. eauto.
    + by eapply IH.
  - destruct i as [|i]; simpl in *; simplify_eq.
  - destruct i as [|i]; simpl in *; simplify_eq. by eapply IH.
Qed.

Lemma loop_run_write_forbidden pool count t final :
  loop pool count t final →
  ∀ (i : nat) (e : Event),
    t !! i = Some e →
    send_result e = Some ChatWriteForbidden →
    length t = S i.
Proof.
  induction 1 as [| ? ? ? ? ? Hf _ IH | ? ? ? ? ? ? Hf _ IH | ? ? ? ? ? ? ? Hf _ IH
                 | ? ? ? ? Hf | ? ? ? ? ? ? Hf _ IH];
    intros i e Hi He; try done.
  - by eapply IH.
  - destruct i as [|[|i]]; simpl in *; simplify_eq. f_equal. f_equal. by eapply IH.
  - destruct i as [|[|i]]; simpl in *; simplify_eq. f_equal. f_equal. by eapply IH.
  - destruct i as [|i]; simpl in *; simplify_eq. done.
  - destruct i as [|i]; simpl in *; simplify_eq. f_equal. by eapply IH.
Qed.

End LoopRuns.

Lemma sends_le_attempts (t : list Event) : (sends t ≤ send_attempts t)%nat.
Proof.
  unfold sends, send_attempts. induction t as [|[R c r] t IH]; simpl; [done|].
  destruct c; simpl; try done. destruct r; simpl; lia.
Qed.

Lemma sends_app (t1 t2 : list Event) : sends (t1 ++ t2) = (sends t1 + sends t2)%nat.
Proof. unfold sends. by rewrite List.filter_app, length_app. Qed.

(** C9.  Whatever the platform answers to the sends, the send loop
    returns, and its run over the pool is made of these steps: a send
    that ends in [FloodWait] is followed by a sleep of exactly the
    reported value and by the rest of the pool, the failed entry not
    being sent again; a send that ends in [ChatWriteForbidden] is the
    last call of the loop; a send that fails otherwise is followed by
    the rest of the pool.  The count returned is the number of sends
    that returned; it is at most the length of the pool, which is the
    requested quantity for the pool the handler builds. *)
Theorem send_loop_outcomes (env : Env) (n : nat) (chat_id : Z) (mention : string)
    (message_pool : list string) :
  ∃ success_count,
    snd (run env n (send_loop format_mention chat_id mention message_pool 0))
    = Some success_count ∧
    Spec.loop_run format_mention chat_id mention message_pool 0
      (fst (run env n (send_loop format_mention chat_id mention message_pool 0)))
      success_count ∧
    success_count
    = sends (fst (run env n (send_loop format_mention chat_id mention message_pool 0))) ∧
    (success_count
     ≤ send_attempts
         (fst (run env n (send_loop format_mention chat_id mention message_pool 0)))
     ≤ length message_pool)%nat ∧
    omap sent_text
      (fst (run env n (send_loop format_mention chat_id mention message_pool 0)))
    `prefix_of` omap (fun msg_text => format_mention msg_text mention) message_pool ∧
    (Forall (fun e => send_result e ≠ Some ChatWriteForbidden)
       (fst (run env n (send_loop format_mention chat_id mention message_pool 0))) →
     omap sent_text
       (fst (run env n (send_loop format_mention chat_id mention message_pool 0)))
     = omap (fun msg_text => format_mention msg_text mention) message_pool) ∧
    (∀ (i : nat) (e : Event) (value : Z),
       fst (run env n (send_loop format_mention chat_id mention message_pool 0)) !! i
       = Some e →
       send_result e = Some (FloodWait value) →
       ∃ e',
         fst (run env n (send_loop format_mention chat_id mention message_pool 0)) !! S i
         = Some e' ∧
         slept e' = Some (Seconds value) ∧ send_result e' = None) ∧
    (∀ (i : nat) (e : Event),
       fst (run env n (send_loop format_mention chat_id mention message_pool 0)) !! i
       = Some e →
       send_result e = Some ChatWriteForbidden →
       length (fst (run env n (send_loop format_mention chat_id mention message_pool 0)))
       = S i) ∧
    (∀ (messages : list string) (quantity : Z),
       1 ≤ quantity ≤ 100 →
       messages ≠ [] →
       ∃ count,
         snd (run env n
                (bind (build_message_pool messages quantity)
                   (fun pool => send_loop format_mention chat_id mention pool 0)))
         = Some count ∧
         count
         = sends
             (fst (run env n
                     (bind (build_message_pool messages quantity)
                        (fun pool => send_loop format_mention chat_id mention pool 0)))) ∧
         Z.of_nat count ≤ quantity).
Proof.
  destruct (run_send_loop env chat_id mention message_pool n 0%nat)
    as (final & Hrun & Hloop).
  exists final. split; [done|]. split; [done|].
  pose proof (loop_run_count _ _ _ _ _ _ Hloop) as Hcount. simpl in Hcount.
  pose proof (loop_run_attempts _ _ _ _ _ _ Hloop) as Hatt.
  split; [done|]. split; [lia|].
  split; [by eapply loop_run_prefix|].
  split; [by eapply loop_run_complete|].
  split; [by eapply loop_run_flood_wait|].
  split; [by eapply loop_run_write_forbidden|].
  intros messages quantity Hq Hne. rewrite run_bind.
  destruct (run_build_message_pool env n messages quantity)
    as (pool & Hpool & Hlen & Hnone & _); [lia|done|].
  destruct (run env n (build_message_pool messages quantity)) as [t1 o1].
  simpl in Hpool, Hnone. subst o1.
  destruct (run_send_loop env chat_id mention pool (n + length t1)%nat 0%nat)
    as (count & Hr & Hl).
  destruct (run env (n + length t1) _) as [t2 o2]. simpl in Hr, Hl. subst o2.
  exists count. cbn [fst snd]. split; [done|].
  pose proof (loop_run_count _ _ _ _ _ _ Hl) as Hc. simpl in Hc.
  pose proof (loop_run_attempts _ _ _ _ _ _ Hl) as Ha.
  pose proof (sends_le_attempts t1) as Hle.
  rewrite sends_app. split; lia.
Qed.

End Dispatch.

End DispatchFacts.

(** ** Scenarios *)

Module Scenarios.
Import Config Platform Handler Spec.

Abbreviation handle := (universal_message_handler format_basic example_config "/s").

Example split_command :
  Py.split "/s ABC123  @alice 3 " = ["/s"; "ABC123"; "@alice"; "3"].
Proof. reflexivity. Qed.

Example int_examples :
  Py.int "3" = Some 3 /\ Py.int "0" = Some 0 /\ Py.int "101" = Some 101 /\
  Py.int "-7" = Some (-7) /\ Py.int "1_0" = Some 10 /\ Py.int "abc" = None /\
  Py.int "" = None /\ Py.int "1__0" = None /\ Py.int "3.5" = None /\
  Py.str (-42) = "-42".
Proof. repeat split; reflexivity. Qed.

Example format_examples :
  format_basic "Hi {mention}!" "Bob" = Some "Hi Bob!" /\
  format_basic "{{{mention}}}" "Bob" = Some "{Bob}" /\
  format_basic "Hi {name}" "Bob" = None /\
  format_basic "Hi }" "Bob" = None.
Proof. repeat split; reflexivity. Qed.

(** The end-to-end scenario of the specification: three sends, the
    command deleted first, no notice. *)
Example accepted_scenario :
  omap sent_text (fst (run calm_env 0 (handle accepted_command)))
  = [ "Hi <a href=" ++ dquote ++ "tg://user?id=77" ++ dquote ++ ">Alice</a>!";
      "Yo <a href=" ++ dquote ++ "tg://user?id=77" ++ dquote ++ ">Alice</a>";
      "Hi <a href=" ++ dquote ++ "tg://user?id=77" ++ dquote ++ ">Alice</a>!" ]%string ∧
  sends (fst (run calm_env 0 (handle accepted_command))) = 3%nat ∧
  replies (fst (run calm_env 0 (handle accepted_command))) = 0%nat ∧
  head (fst (run calm_env 0 (handle accepted_command)))
  = Some (Ev (delete_messages 100 7) Deleted) ∧
  snd (run calm_env 0 (handle accepted_command)) = Some tt.
Proof. vm_compute. repeat split; reflexivity. Qed.

(** The same with an unknown code. *)
Example unknown_code_scenario :
  run calm_env 0 (handle unknown_code_command)
  = ([Ev (delete_messages 100 7) Deleted;
      Ev (reply_text unknown_code_command InvalidCode) (Some 9000);
      Ev (sleep (Seconds 20)) tt;
      Ev (delete_messages 100 9000) Deleted],
     Some tt).
Proof. reflexivity. Qed.

(** Chat 300 is not authorized: the command is deleted, nothing more. *)
Lemma unauthorized_chat_rejected_witness :
  snd (run calm_env 0 (handle command_in_unauthorized_chat)) = Some tt ∧
  send_attempts (fst (run calm_env 0 (handle command_in_unauthorized_chat))) = 0%nat ∧
  replies (fst (run calm_env 0 (handle command_in_unauthorized_chat))) = 0%nat.
Proof.
  refine (proj2 (GateFacts.unauthorized_chat_rejected format_basic calm_env 0
                   example_config "/s" command_in_unauthorized_chat _ _ _)).
  - reflexivity.
  - discriminate.
  - intros H. apply list_elem_of_singleton in H. discriminate H.
Defined.

Lemma unknown_code_rejected_witness :
  two_phase_cleanup unknown_code_command InvalidCode
    (fst (run calm_env 0 (handle unknown_code_command)))
    (snd (run calm_env 0 (handle unknown_code_command))).
Proof.
  refine (proj1 (GateFacts.unknown_code_rejected format_basic calm_env 0
                   example_config "/s" unknown_code_command
                   "/s" "NOPE99" "@alice" "3" [] _ _ _ _ _)).
  - reflexivity.
  - discriminate.
  - apply list_elem_of_singleton. reflexivity.
  - reflexivity.
  - reflexivity.
Defined.

(** C6 as stated fails on a command of fewer than four fields: its
    second field is not bound, its chat is authorized, and the handler
    stops at the parse check, deleting the command without any notice.
    It also fails in a private chat that is listed among the authorized
    chats (the handler answers with the help text and deletes nothing),
    and when posting the notice raises (nothing is left to delete). *)
Lemma unknown_code_short_command_counterexample :
  (is_command "/s" short_command = true ∧
   chat_id (chat short_command) ∈ authorized_chats example_config ∧
   fields short_command = ["/s"; "NOPE99"] ∧
   get_user_id_from_code "NOPE99" example_config = None ∧
   run calm_env 0 (handle short_command)
   = ([Ev (delete_messages 100 7) Deleted], Some tt) ∧
   replies (fst (run calm_env 0 (handle short_command))) = 0%nat ∧
   ¬ two_phase_cleanup short_command InvalidCode
       (fst (run calm_env 0 (handle short_command)))
       (snd (run calm_env 0 (handle short_command)))) ∧
  (is_command "/s" (private_message "/s NOPE99 @alice 3") = true ∧
   chat_id (chat (private_message "/s NOPE99 @alice 3"))
     ∈ authorized_chats private_config ∧
   fields (private_message "/s NOPE99 @alice 3") = ["/s"; "NOPE99"; "@alice"; "3"] ∧
   get_user_id_from_code "NOPE99" private_config = None ∧
   run calm_env 0
     (universal_message_handler format_basic private_config "/s"
        (private_message "/s NOPE99 @alice 3"))
   = ([Ev (reply_text (private_message "/s NOPE99 @alice 3") (PmHelp "/s"))
          (Some 9000)],
      Some tt)) ∧
  run refusing_env 0 (handle unknown_code_command)
  = ([Ev (delete_messages 100 7) Deleted;
      Ev (reply_text unknown_code_command InvalidCode) None],
     None).
Proof.
  split; [|split].
  - split; [reflexivity|].
    split; [apply list_elem_of_singleton; reflexivity|].
    split; [reflexivity|]. split; [reflexivity|].
    split; [reflexivity|]. split; [reflexivity|].
    intros H. inversion H.
  - split; [reflexivity|].
    split; [apply elem_of_cons; right; apply list_elem_of_singleton; reflexivity|].
    split; [reflexivity|]. split; reflexivity.
  - reflexivity.
Qed.

Lemma sender_mismatch_rejected_witness :
  send_attempts (fst (run calm_env 0 (handle mismatched_command))) = 0%nat ∧
  ∃ notice,
    two_phase_cleanup mismatched_command notice
      (fst (run calm_env 0 (handle mismatched_command)))
      (snd (run calm_env 0 (handle mismatched_command))).
Proof.
  destruct (GateFacts.sender_mismatch_rejected format_basic calm_env 0
              example_config "/s" mismatched_command "ABC123" 42
              {| uid := 43; first_name := None; username := None |})
    as [Hnone Hcleanup].
  - reflexivity.
  - reflexivity.
  - reflexivity.
  - discriminate.
  - split; [exact Hnone|].
    destruct Hcleanup as (notice & Hshape & _).
    + reflexivity.
    + discriminate.
    + apply list_elem_of_singleton. reflexivity.
    + simpl. lia.
    + exists notice. exact Hshape.
Defined.

(** C1 as stated fails in a chat that is not authorized: the code is
    bound to account 42, the sender is account 43, and the handler stops
    at the chat check, deleting the command without any notice.  It also
    fails on a command of fewer than four fields (deleted at the parse
    check, no notice), in a private chat (help text, nothing deleted),
    and when posting the notice raises (nothing is left to delete). *)
Lemma sender_mismatch_unauthorized_chat_counterexample :
  (is_command "/s" mismatched_command_elsewhere = true ∧
   fields mismatched_command_elsewhere !! 1%nat = Some "ABC123" ∧
   get_user_id_from_code "ABC123" example_config = Some 42 ∧
   uid <$> from_user mismatched_command_elsewhere = Some 43 ∧
   run calm_env 0 (handle mismatched_command_elsewhere)
   = ([Ev (delete_messages 200 7) Deleted], Some tt) ∧
   replies (fst (run calm_env 0 (handle mismatched_command_elsewhere))) = 0%nat ∧
   ∀ notice,
     ¬ two_phase_cleanup mismatched_command_elsewhere notice
         (fst (run calm_env 0 (handle mismatched_command_elsewhere)))
         (snd (run calm_env 0 (handle mismatched_command_elsewhere)))) ∧
  (is_command "/s" short_mismatched_command = true ∧
   fields short_mismatched_command !! 1%nat = Some "ABC123" ∧
   uid <$> from_user short_mismatched_command = Some 43 ∧
   run calm_env 0 (handle short_mismatched_command)
   = ([Ev (delete_messages 100 7) Deleted], Some tt)) ∧
  (is_command "/s" (private_message "/s ABC123 @alice 3") = true ∧
   fields (private_message "/s ABC123 @alice 3") !! 1%nat = Some "ABC123" ∧
   get_user_id_from_code "ABC123" private_config = Some 42 ∧
   uid <$> from_user (private_message "/s ABC123 @alice 3") = Some 43 ∧
   run calm_env 0
     (universal_message_handler format_basic private_config "/s"
        (private_message "/s ABC123 @alice 3"))
   = ([Ev (reply_text (private_message "/s ABC123 @alice 3") (PmHelp "/s"))
          (Some 9000)],
      Some tt)) ∧
  run refusing_env 0 (handle mismatched_command)
  = ([Ev (delete_messages 100 7) Deleted;
      Ev (reply_text mismatched_command SenderMismatch) None],
     None).
Proof.
  split; [|split; [|split]].
  - split; [reflexivity|]. split; [reflexivity|]. split; [reflexivity|].
    split; [reflexivity|]. split; [reflexivity|]. split; [reflexivity|].
    intros notice H. inversion H.
  - repeat split; reflexivity.
  - repeat split; reflexivity.
  - reflexivity.
Qed.

Lemma rejections_clean_up_witness :
  replies (fst (run calm_env 0 (handle command_in_unauthorized_chat))) = 0%nat ∧
  two_phase_cleanup mismatched_command SenderMismatch
    (fst (run calm_env 0 (handle mismatched_command)))
    (snd (run calm_env 0 (handle mismatched_command))).
Proof.
  split.
  - refine (proj2 (proj2 (proj1
      (GateFacts.rejections_clean_up format_basic calm_env 0 example_config
         "/s" command_in_unauthorized_chat _ _) _))).
    + reflexivity.
    + discriminate.
    + intros H. apply list_elem_of_singleton in H. discriminate H.
  - refine (proj1 (proj2 (proj2
      (GateFacts.rejections_clean_up format_basic calm_env 0 example_config
         "/s" mismatched_command _ _)
      "/s" "ABC123" "@alice" "3" [] _ _)) 42
      {| uid := 43; first_name := None; username := None |} _ _ _ _).
    + reflexivity.
    + discriminate.
    + apply list_elem_of_singleton. reflexivity.
    + reflexivity.
    + reflexivity.
    + discriminate.
    + reflexivity.
    + discriminate.
Defined.

(** C8 as stated fails in its first case: a command in a chat that is
    not authorized is rejected with its message deleted and no notice
    posted.  In the other cases the notice is deleted only when posting
    it returned: when it raises, as here for an account that is not
    authorized, nothing is left to delete. *)
Lemma unauthorized_chat_no_warning_counterexample :
  (is_command "/s" command_in_unauthorized_chat = true ∧
   chat_type (chat command_in_unauthorized_chat) ≠ PRIVATE ∧
   (chat_id (chat command_in_unauthorized_chat) ∉ authorized_chats example_config) ∧
   run calm_env 0 (handle command_in_unauthorized_chat)
   = ([Ev (delete_messages 300 7) Deleted], Some tt) ∧
   replies (fst (run calm_env 0 (handle command_in_unauthorized_chat))) = 0%nat ∧
   ∀ notice,
     ¬ two_phase_cleanup command_in_unauthorized_chat notice
         (fst (run calm_env 0 (handle command_in_unauthorized_chat)))
         (snd (run calm_env 0 (handle command_in_unauthorized_chat)))) ∧
  (get_user_id_from_code "ABC123" stale_config = Some 55 ∧
   is_authorized 55 stale_config = false ∧
   run refusing_env 0
     (universal_message_handler format_basic stale_config "/s" anonymous_command)
   = ([Ev (delete_messages 100 7) Deleted;
       Ev (reply_text anonymous_command AccountNotAuthorized) None],
      None)).
Proof.
  split.
  - split; [reflexivity|]. split; [discriminate|].
    split; [intros H; apply list_elem_of_singleton in H; discriminate H|].
    split; [reflexivity|]. split; [reflexivity|].
    intros notice H. inversion H.
  - repeat split; reflexivity.
Qed.

Lemma invalid_quantity_aborts_witness :
  snd (run calm_env 0 (handle zero_quantity_command)) = Some tt ∧
  send_attempts (fst (run calm_env 0 (handle zero_quantity_command))) = 0%nat ∧
  replies (fst (run calm_env 0 (handle zero_quantity_command))) = 0%nat.
Proof.
  refine (proj2 (GateFacts.invalid_quantity_aborts format_basic calm_env 0
                   example_config "/s" zero_quantity_command
                   "/s" "ABC123" "@alice" "0" [] 42 _ _ _ _ _ _ _ _ _)).
  - reflexivity.
  - discriminate.
  - apply list_elem_of_singleton. reflexivity.
  - reflexivity.
  - reflexivity.
  - discriminate.
  - right. eexists. split; reflexivity.
  - apply elem_of_cons. right. apply list_elem_of_singleton. reflexivity.
  - right. exists 0. split; [reflexivity|lia].
Defined.

(** The quantities 0, 101 and a word: the command is deleted and
    nothing else happens. *)
Example invalid_quantities :
  Forall
    (fun quantity =>
       run calm_env 0
         (handle (example_message 100 ("/s ABC123 @alice " ++ quantity) (Some 42)))
       = ([Ev (delete_messages 100 7) Deleted], Some tt))
    ["0"; "101"; "many"; "-3"; "3.5"].
Proof. repeat constructor. Qed.

(** A code bound to the account 0 is treated as unbound. *)
Example zero_account_code :
  fst (run calm_env 0
         (universal_message_handler format_basic
            (set_user_secret_codes {[ "ABC123" := 0 ]} example_config) "/s"
            (example_message 100 "/s ABC123 @alice 3" None)))
  = [Ev (delete_messages 100 7) Deleted;
     Ev (reply_text (example_message 100 "/s ABC123 @alice 3" None) InvalidCode)
        (Some 9000);
     Ev (sleep (Seconds 20)) tt;
     Ev (delete_messages 100 9000) Deleted].
Proof. reflexivity. Qed.

(** When posting the notice raises, the exception escapes the handler
    and no second deletion takes place. *)
Example notice_post_raises :
  run (example_env Deleted None ADMINISTRATOR (fun _ => Sent)) 0
    (handle unknown_code_command)
  = ([Ev (delete_messages 100 7) Deleted;
      Ev (reply_text unknown_code_command InvalidCode) None],
     None).
Proof. reflexivity. Qed.

(** A flood wait on the first send and a forbidden write on the
    third: the first entry is not sent again, the loop stops at the
    third send and returns the one success. *)
Example flood_then_forbidden :
  run flooding_env 0
    (send_loop format_basic 100 "Bob" ["a {mention}"; "b {mention}"; "c"; "d"] 0)
  = ([Ev (send_message 100 "a Bob") (FloodWait 5);
      Ev (sleep (Seconds 5)) tt;
      Ev (send_message 100 "b Bob") Sent;
      Ev (sleep RandomPause) tt;
      Ev (send_message 100 "c") ChatWriteForbidden],
     Some 1%nat).
Proof. reflexivity. Qed.

Lemma send_loop_outcomes_witness :
  ∃ e',
    fst (run flooding_env 0
           (send_loop format_basic 100 "Bob"
              ["a {mention}"; "b {mention}"; "c"; "d"] 0)) !! 1%nat = Some e' ∧
    slept e' = Some (Seconds 5).
Proof.
  destruct (DispatchFacts.send_loop_outcomes format_basic flooding_env 0 100 "Bob"
              ["a {mention}"; "b {mention}"; "c"; "d"])
    as (count & _ & _ & _ & _ & _ & _ & Hflood & _).
  destruct (Hflood 0%nat (Ev (send_message 100 "a Bob") (FloodWait 5)) 5
              eq_refl eq_refl) as (e' & Hnext & Hslept & _).
  exists e'. split; [exact Hnext|exact Hslept].
Defined.

End Scenarios.

(** ** More on the configuration *)

Module ConfigExtra.
Import Config.

Lemma list_remove_first_sub (x y : Z) (l : list Z) :
  y ∈ list_remove_first x l → y ∈ l.
Proof.
  induction l as [|z l IH]; simpl; [done|].
  case_bool_decide.
  - intros ?. apply elem_of_cons; by right.
  - intros H'. apply elem_of_cons in H' as [->|H'].
    + apply elem_of_cons; by left.
    + apply elem_of_cons; right; by apply IH.
Qed.

Lemma list_remove_first_gone (x : Z) (l : list Z) :
  NoDup l → x ∉ list_remove_first x l.
Proof.
  induction 1 as [|z l Hz Hl IH]; simpl.
  - apply not_elem_of_nil.
  - case_bool_decide as Hzx.
    + by subst z.
    + apply not_elem_of_cons. split; [congruence|done].
Qed.

Lemma list_remove_first_NoDup (x : Z) (l : list Z) :
  NoDup l → NoDup (list_remove_first x l).
Proof.
  induction 1 as [|z l Hz Hl IH]; simpl; [constructor|].
  case_bool_decide; [done|]. constructor; [|done].
  intros Hin. apply Hz. by eapply list_remove_first_sub.
Qed.

Lemma list_remove_first_other (x y : Z) (l : list Z) :
  y ≠ x → y ∈ list_remove_first x l ↔ y ∈ l.
Proof.
  intros Hne. split; [apply list_remove_first_sub|].
  by apply ConfigFacts.list_remove_first_keeps.
Qed.

Lemma NoDup_snoc_fresh (x : Z) (l : list Z) : NoDup l → x ∉ l → NoDup (l ++ [x]).
Proof.
  intros Hl Hx. apply NoDup_app. split; [done|]. split; [|apply NoDup_singleton].
  intros y Hy Hyx. apply list_elem_of_singleton in Hyx. by subst y.
Qed.

(** X1.  The owner stays listed, and stays the owner, through every
    sequence of mutations of the document, not only the two of the
    ledger: the chat, template, command and token mutators leave
    [authorized_users] and [owner_id] alone. *)
Theorem owner_listed_after_every_mutation (loaded : BotConfig)
    (draws : list string) (ops : list ConfigOp) (s : Store) :
  apply_ops (init loaded, draws) ops = Some s →
  owner_id (fst s) = owner_id loaded ∧
  owner_id loaded ∈ authorized_users (fst s).
Proof.
  assert (Hstep : ∀ (op : ConfigOp) (c c' : BotConfig) (d d' : list string),
             apply_op (c, d) op = Some (c', d') →
             owner_id c ∈ authorized_users c →
             owner_id c' = owner_id c ∧ owner_id c ∈ authorized_users c').
  { intros op c c' d d' Hop Hin. destruct op; simpl in Hop.
    - injection Hop as <- <-. by apply ConfigFacts.ledger_op_keeps_owner.
    - injection Hop as <- <-. unfold add_authorized_chat. by case_bool_decide.
    - injection Hop as <- <-. unfold remove_authorized_chat. by case_bool_decide.
    - injection Hop as <- <-. unfold add_spam_message. by case_bool_decide.
    - injection Hop as <- <-. unfold remove_spam_message. by destruct (_ && _).
    - by injection Hop as <- <-.
    - by injection Hop as <- <-.
    - destruct (generate_secret_code _ _ _) as [[[t c1] d1]|] eqn:E; [|done].
      injection Hop as <- <-.
      by apply ConfigFacts.generate_secret_code_spec in E as (_ & _ & ->).
    - injection Hop as <- <-. unfold revoke_secret_code.
      by destruct (user_secret_codes c !! code). }
  assert (Hrun : ∀ (l : list ConfigOp) (s0 s1 : Store),
             apply_ops s0 l = Some s1 →
             owner_id (fst s0) ∈ authorized_users (fst s0) →
             owner_id (fst s1) = owner_id (fst s0) ∧
             owner_id (fst s0) ∈ authorized_users (fst s1)).
  { induction l as [|op l IH]; intros s0 s1; simpl.
    - by intros [= ->].
    - destruct (apply_op s0 op) as [s'|] eqn:E; [|done].
      intros Hl Hin. destruct s0 as [c d], s' as [c' d'].
      destruct (Hstep _ _ _ _ _ E Hin) as [Ho Hin'].
      simpl in *. rewrite <- Ho in Hin'.
      destruct (IH _ _ Hl Hin') as [Ho' Hin'']. simpl in *.
      rewrite Ho', Ho in *. done. }
  intros Hops.
  destruct (Hrun ops _ _ Hops) as [Ho Hin]; simpl.
  - rewrite ConfigFacts.init_owner_id. apply ConfigFacts.init_lists_owner.
  - simpl in Ho, Hin. rewrite ConfigFacts.init_owner_id in Ho, Hin. done.
Qed.

Lemma owner_listed_after_every_mutation_witness :
  1 ∈ authorized_users
        (set_user_secret_codes {[ "K9" := 1 ]}
           (remove_authorized_user 1 (add_authorized_chat 5 (init (DEFAULT_CONFIG 1))))).
Proof.
  refine (proj2 (owner_listed_after_every_mutation (DEFAULT_CONFIG 1) ["K9"]
            [OpAddChat 5; OpLedger (Deauthorize 1); OpGenerate 1]
            (set_user_secret_codes {[ "K9" := 1 ]}
               (remove_authorized_user 1
                  (add_authorized_chat 5 (init (DEFAULT_CONFIG 1)))), []) _)).
  reflexivity.
Defined.

(** X2.  For an account other than the owner, in a list without
    duplicates, [remove_authorized_user] ends the authorization of that
    account and of no other, keeps the list free of duplicates, and
    leaves the token table as it is: the codes bound to the account are
    not revoked. *)
Theorem deauthorize_works (u : Z) (c : BotConfig) :
  NoDup (authorized_users c) →
  u ≠ owner_id c →
  is_authorized u (remove_authorized_user u c) = false ∧
  (∀ v, v ≠ u →
        is_authorized v (remove_authorized_user u c) = is_authorized v c) ∧
  NoDup (authorized_users (remove_authorized_user u c)) ∧
  user_secret_codes (remove_authorized_user u c) = user_secret_codes c.
Proof.
  intros Hnd Hne. unfold remove_authorized_user.
  apply Z.eqb_neq in Hne. rewrite Hne. cbn [negb]. rewrite andb_true_r.
  destruct (decide (u ∈ authorized_users c)) as [Hin|Hin].
  - rewrite (bool_decide_eq_true_2 _ Hin). unfold is_authorized. simpl.
    split; [apply bool_decide_eq_false_2; by apply list_remove_first_gone|].
    split; [|split; [by apply list_remove_first_NoDup|done]].
    intros v Hv. apply bool_decide_ext. by apply list_remove_first_other.
  - rewrite (bool_decide_eq_false_2 _ Hin). unfold is_authorized.
    split; [by apply bool_decide_eq_false_2|]. done.
Qed.

Lemma deauthorize_works_witness :
  is_authorized 42 (remove_authorized_user 42 Spec.example_config) = false.
Proof.
  refine (proj1 (deauthorize_works 42 Spec.example_config _ _)).
  - apply NoDup_cons. split; [|apply NoDup_singleton].
    intros H. apply list_elem_of_singleton in H. discriminate H.
  - discriminate.
Defined.

(** Without the hypothesis on duplicates the account stays authorized:
    [list.remove] drops one occurrence only. *)
Example deauthorize_duplicate :
  is_authorized 42
    (remove_authorized_user 42 (set_authorized_users [1; 42; 42] Spec.example_config))
  = true.
Proof. reflexivity. Qed.

(** X3.  For an account other than the owner, [add_authorized_user]
    makes the account authorized, changes the authorization of no other
    account, adds no duplicate, and does nothing the second time.  The
    owner itself is never appended. *)
Theorem authorize_works (u : Z) (c : BotConfig) :
  u ≠ owner_id c →
  is_authorized u (add_authorized_user u c) = true ∧
  (∀ v, v ≠ u → is_authorized v (add_authorized_user u c) = is_authorized v c) ∧
  (NoDup (authorized_users c) → NoDup (authorized_users (add_authorized_user u c))) ∧
  add_authorized_user u (add_authorized_user u c) = add_authorized_user u c ∧
  add_authorized_user (owner_id c) c = c.
Proof.
  intros Hne. pose proof Hne as Hneb. apply Z.eqb_neq in Hneb.
  assert (Hown : add_authorized_user (owner_id c) c = c).
  { unfold add_authorized_user. rewrite Z.eqb_refl. simpl. by rewrite andb_false_r. }
  split; [|split; [|split; [|split; [|done]]]].
  - unfold add_authorized_user, is_authorized. rewrite Hneb. cbn [negb].
    rewrite andb_true_r.
    destruct (decide (u ∈ authorized_users c)) as [Hin|Hin].
    + rewrite (bool_decide_eq_true_2 _ Hin). simpl. by apply bool_decide_eq_true_2.
    + rewrite (bool_decide_eq_false_2 _ Hin). simpl. apply bool_decide_eq_true_2.
      apply elem_of_app; right. by apply list_elem_of_singleton.
  - intros v Hv. unfold add_authorized_user, is_authorized.
    destruct (negb _ && negb _); [|done]. simpl.
    apply bool_decide_ext. rewrite elem_of_app, list_elem_of_singleton.
    split; [intros [?|?]; [done|congruence]|intros ?; by left].
  - intros Hnd. unfold add_authorized_user.
    destruct (decide (u ∈ authorized_users c)) as [Hin|Hin].
    + by rewrite (bool_decide_eq_true_2 _ Hin).
    + rewrite (bool_decide_eq_false_2 _ Hin), Hneb. simpl.
      by apply NoDup_snoc_fresh.
  - destruct (decide (u ∈ authorized_users c)) as [Hin|Hin].
    + assert (add_authorized_user u c = c) as E.
      { unfold add_authorized_user. by rewrite (bool_decide_eq_true_2 _ Hin). }
      by rewrite !E.
    + assert (add_authorized_user u c
              = set_authorized_users (authorized_users c ++ [u]) c) as E.
      { unfold add_authorized_user.
        by rewrite (bool_decide_eq_false_2 _ Hin), Hneb. }
      rewrite E. unfold add_authorized_user. simpl.
      rewrite bool_decide_eq_true_2; [done|].
      apply elem_of_app; right. by apply list_elem_of_singleton.
Qed.

Lemma authorize_works_witness :
  is_authorized 9 (add_authorized_user 9 Spec.example_config) = true.
Proof.
  refine (proj1 (authorize_works 9 Spec.example_config _)). discriminate.
Defined.

(** X4.  [add_authorized_chat] makes a chat authorized and
    [remove_authorized_chat], on a list without duplicates, ends its
    authorization; neither changes the authorization of another chat,
    and both keep the list free of duplicates. *)
Theorem chat_ledger_works (i : Z) (c : BotConfig) :
  NoDup (authorized_chats c) →
  is_chat_authorized i (add_authorized_chat i c) = true ∧
  is_chat_authorized i (remove_authorized_chat i c) = false ∧
  (∀ j, j ≠ i →
        is_chat_authorized j (add_authorized_chat i c) = is_chat_authorized j c ∧
        is_chat_authorized j (remove_authorized_chat i c) = is_chat_authorized j c) ∧
  NoDup (authorized_chats (add_authorized_chat i c)) ∧
  NoDup (authorized_chats (remove_authorized_chat i c)).
Proof.
  intros Hnd. unfold add_authorized_chat, remove_authorized_chat.
  destruct (decide (i ∈ authorized_chats c)) as [Hin|Hin];
    [rewrite (bool_decide_eq_true_2 _ Hin)|rewrite (bool_decide_eq_false_2 _ Hin)];
    unfold is_chat_authorized; simpl.
  - split; [by apply bool_decide_eq_true_2|].
    split; [apply bool_decide_eq_false_2; by apply list_remove_first_gone|].
    split; [|split; [done|by apply list_remove_first_NoDup]].
    intros j Hj. split; [done|].
    apply bool_decide_ext. by apply list_remove_first_other.
  - split.
    { apply bool_decide_eq_true_2. apply elem_of_app; right.
      by apply list_elem_of_singleton. }
    split; [by apply bool_decide_eq_false_2|].
    split; [|split; [by apply NoDup_snoc_fresh|done]].
    intros j Hj. split; [|done].
    apply bool_decide_ext. rewrite elem_of_app, list_elem_of_singleton.
    split; [intros [?|?]; [done|congruence]|intros ?; by left].
Qed.

Lemma chat_ledger_works_witness :
  is_chat_authorized 100 (remove_authorized_chat 100 Spec.example_config) = false.
Proof.
  refine (proj1 (proj2 (chat_ledger_works 100 Spec.example_config _))).
  apply NoDup_singleton.
Defined.

(** X5.  [add_spam_message] leaves the templates already listed at
    their positions, lists the new one, adds at most one entry, none when
    the template is already listed, and keeps the list free of
    duplicates. *)
Theorem add_spam_message_appends (message : string) (c : BotConfig) :
  message ∈ spam_messages (add_spam_message message c) ∧
  spam_messages c `prefix_of` spam_messages (add_spam_message message c) ∧
  (message ∈ spam_messages c → add_spam_message message c = c) ∧
  (message ∉ spam_messages c →
   spam_messages (add_spam_message message c) = (spam_messages c ++ [message])%list) ∧
  (NoDup (spam_messages c) → NoDup (spam_messages (add_spam_message message c))).
Proof.
  unfold add_spam_message.
  destruct (decide (message ∈ spam_messages c)) as [Hin|Hin];
    [rewrite (bool_decide_eq_true_2 _ Hin)|rewrite (bool_decide_eq_false_2 _ Hin)];
    simpl.
  - repeat split; try done.
  - split; [apply elem_of_app; right; by apply list_elem_of_singleton|].
    split; [by apply prefix_app_r|]. split; [done|]. split; [done|].
    intros Hnd. apply NoDup_app. split; [done|].
    split; [|apply NoDup_singleton].
    intros x Hx Hx'. apply list_elem_of_singleton in Hx'. by subst x.
Qed.

(** X6.  [remove_spam_message] does nothing for an index below 0 or
    past the end; for an index within the list it removes exactly the
    entry at that index: the entries before it stay, the entries after it
    move down by one. *)
Theorem remove_spam_message_bounds (index : Z) (c : BotConfig) :
  (index < 0 ∨ Z.of_nat (length (spam_messages c)) ≤ index →
   remove_spam_message index c = c) ∧
  (0 ≤ index < Z.of_nat (length (spam_messages c)) →
   length (spam_messages (remove_spam_message index c))
   = (length (spam_messages c) - 1)%nat ∧
   (∀ j : nat, (j < Z.to_nat index)%nat →
      spam_messages (remove_spam_message index c) !! j = spam_messages c !! j) ∧
   (∀ j : nat, (Z.to_nat index ≤ j)%nat →
      spam_messages (remove_spam_message index c) !! j = spam_messages c !! S j)).
Proof.
  unfold remove_spam_message. split.
  - intros Hout.
    replace ((0 <=? index) && (index <? Z.of_nat (length (spam_messages c))))
      with false; [done|].
    symmetry. apply andb_false_iff. destruct Hout; [left|right]; lia.
  - intros Hin.
    replace ((0 <=? index) && (index <? Z.of_nat (length (spam_messages c))))
      with true by (symmetry; apply andb_true_iff; split; lia).
    simpl. split.
    + apply length_delete. apply lookup_lt_is_Some. lia.
    + split; intros j Hj.
      * by apply list_lookup_delete_lt.
      * by apply list_lookup_delete_ge.
Qed.

Lemma remove_spam_message_bounds_witness :
  remove_spam_message 2 Spec.example_config = Spec.example_config ∧
  spam_messages (remove_spam_message 0 Spec.example_config) !! 0%nat
  = Some "Yo {mention}".
Proof.
  destruct (remove_spam_message_bounds 2 Spec.example_config) as [Hout _].
  destruct (remove_spam_message_bounds 0 Spec.example_config) as [_ Hin].
  split.
  - apply Hout. right. simpl. lia.
  - destruct Hin as (_ & _ & Hafter); [simpl; lia|].
    rewrite (Hafter 0%nat); [reflexivity|simpl; lia].
Defined.

Lemma prefix_empty (s : string) : String.prefix "" s = true.
Proof. by destruct s. Qed.

Lemma set_spam_command_cases (command : string) (c : BotConfig) :
  (String.prefix "/" command = true
   ∧ spam_command (set_spam_command command c) = command)
  ∨ (String.prefix "/" command = false
     ∧ spam_command (set_spam_command command c) = String "/" command).
Proof.
  unfold set_spam_command. simpl.
  destruct (String.prefix "/" command); [by left|by right].
Qed.

(** X7.  The [spam_command] setter stores a command that starts with a
    slash, whether it was given with one or not; setting the stored
    command again changes nothing; and the handler recognizes the same
    messages as commands for the stored command as for the one given. *)
Theorem set_spam_command_normal_form (command : string) (c : BotConfig) :
  Py.startswith (spam_command (set_spam_command command c)) "/" = true ∧
  set_spam_command (spam_command (set_spam_command command c))
    (set_spam_command command c)
  = set_spam_command command c ∧
  Py.lstrip "/" (spam_command (set_spam_command command c)) = Py.lstrip "/" command ∧
  ∀ message,
    Spec.is_command (spam_command (set_spam_command command c)) message
    = Spec.is_command command message.
Proof.
  assert (Hstrip : Py.lstrip "/" (spam_command (set_spam_command command c))
                   = Py.lstrip "/" command).
  { destruct (set_spam_command_cases command c) as [[_ ->]|[_ ->]]; done. }
  assert (Hstart : String.prefix "/" (spam_command (set_spam_command command c)) = true).
  { destruct (set_spam_command_cases command c) as [[Hp ->]|[_ ->]]; [done|].
    simpl. apply prefix_empty. }
  split; [done|]. split.
  - clear Hstrip Hstart. unfold set_spam_command. simpl.
    destruct (String.prefix "/" command) eqn:Hp.
    + by rewrite Hp.
    + simpl. by rewrite prefix_empty.
  - split; [done|]. intros message. unfold Spec.is_command. by rewrite Hstrip.
Qed.

(** X8.  Revoking a code right after it was issued gives back the
    document as it was before the issue. *)
Theorem issue_then_revoke_restores (account : Z) (c c1 : BotConfig)
    (draws draws1 : list string) (t : string) :
  generate_secret_code account c draws = Some (t, c1, draws1) →
  revoke_secret_code t c1 = (c, true).
Proof.
  intros Hgen.
  apply ConfigFacts.generate_secret_code_spec in Hgen as (Hfresh & _ & ->).
  unfold revoke_secret_code. simpl. rewrite lookup_insert_eq.
  rewrite delete_insert_id by done. by destruct c.
Qed.

Lemma issue_then_revoke_restores_witness :
  revoke_secret_code "K9"
    (set_user_secret_codes (<[ "K9" := 42 ]> (user_secret_codes Spec.example_config))
       Spec.example_config)
  = (Spec.example_config, true).
Proof.
  exact (issue_then_revoke_restores 42 Spec.example_config _
           ["ABC123"; "K9"; "Q3"] ["Q3"] "K9" eq_refl).
Defined.


Lemma remove_authorized_user_frame (u : Z) (c : BotConfig) :
  authorized_chats (remove_authorized_user u c) = authorized_chats c ∧
  user_secret_codes (remove_authorized_user u c) = user_secret_codes c ∧
  spam_messages (remove_authorized_user u c) = spam_messages c.
Proof. unfold remove_authorized_user. by destruct (_ && _). Qed.

Lemma remove_authorized_user_not_listed (u : Z) (c : BotConfig) :
  NoDup (authorized_users c) →
  u ≠ owner_id c →
  u ∉ authorized_users (remove_authorized_user u c).
Proof.
  intros Hnd Hne. unfold remove_authorized_user.
  apply Z.eqb_neq in Hne. rewrite Hne. cbn [negb]. rewrite andb_true_r.
  destruct (decide (u ∈ authorized_users c)) as [Hin|Hin].
  - rewrite (bool_decide_eq_true_2 _ Hin). simpl. by apply list_remove_first_gone.
  - by rewrite (bool_decide_eq_false_2 _ Hin).
Qed.

End ConfigExtra.

(** ** More on the handler *)

Module HandlerExtra.
Import Config Platform Handler RunFacts Conditions.

Arguments try_delete : simpl never.
Arguments reject : simpl never.
Arguments authorize_and_dispatch : simpl never.
Arguments dispatch : simpl never.
Arguments resolve_user_id : simpl never.
Arguments build_message_pool : simpl never.

Lemma quiet_attempts (t : list Event) : quiet t → send_attempts t = 0%nat.
Proof.
  unfold quiet, send_attempts. induction 1 as [|[R c r] t He _ IH]; [done|].
  simpl. destruct c; simpl in *; try done.
Qed.

Lemma attempts_quiet (t : list Event) : send_attempts t = 0%nat → quiet t.
Proof.
  unfold quiet, send_attempts. induction t as [|[R c r] t IH]; [constructor|].
  simpl. destruct c; simpl; intros H; constructor; try done; by apply IH.
Qed.

Lemma send_attempts_app (t1 t2 : list Event) :
  send_attempts (t1 ++ t2) = (send_attempts t1 + send_attempts t2)%nat.
Proof. unfold send_attempts. by rewrite List.filter_app, length_app. Qed.

Lemma replies_app (t1 t2 : list Event) :
  replies (t1 ++ t2) = (replies t1 + replies t2)%nat.
Proof. unfold replies. by rewrite List.filter_app, length_app. Qed.

Lemma run_resolve_user_id (env : Env) (n : nat) (user_input : string) :
  ∃ t target_id,
    run env n (resolve_user_id user_input) = (t, Some target_id) ∧
    quiet t ∧ replies t = 0%nat ∧ (length t ≤ 1)%nat ∧
    Forall (fun e => member_status e = None) t.
Proof.
  unfold resolve_user_id.
  destruct (Py.isdigit user_input || _).
  - exists [], (Py.int user_input). simpl.
    split; [done|]. split; [constructor|]. split; [done|]. split; [lia|constructor].
  - rewrite run_call.
    destruct (env _ n (get_users _)) as [u| |]; simpl;
      eexists _, _; (split; [reflexivity|]);
      (split; [by repeat constructor|]); (split; [done|]);
      (split; [simpl; lia|by repeat constructor]).
Qed.

Section Extra.

Variable format_mention : string -> string -> option string.

Local Abbreviation handler := (universal_message_handler format_mention).

Lemma loop_run_chat (chat_id : Z) (mention : string) (pool : list string)
    (count : nat) (t : list Event) (final : nat) :
  Spec.loop_run format_mention chat_id mention pool count t final →
  Forall (fun e => ∀ c, send_chat e = Some c → c = chat_id) t.
Proof.
  induction 1; repeat constructor; simpl; try done; congruence.
Qed.

Lemma pool_from_templates (env : Env) (k : nat) (messages : list string)
    (quantity : Z) :
  0 ≤ quantity →
  messages ≠ [] →
  ∃ t pool,
    run env k (build_message_pool messages quantity) = (t, Some pool) ∧
    quiet t ∧
    Forall (fun e => member_status e = None) t ∧
    length pool = Z.to_nat quantity ∧
    ∀ x, x ∈ pool → x ∈ messages.
Proof.
  intros Hq Hne.
  destruct (DispatchFacts.run_build_message_pool env k messages quantity Hq Hne)
    as (pool & Hrun & Hlen & Hnone & _).
  destruct (run env k (build_message_pool messages quantity)) as [t o] eqn:E.
  simpl in Hrun, Hnone. subst o. exists t, pool. split; [done|].
  split; [by apply attempts_quiet|].
  assert (Hmember : ∀ (range : list nat) (p : list string) (i : nat),
            Forall (fun e => member_status e = None)
              (fst (run env i (fill_pool messages range p))) ∧
            ∀ p', snd (run env i (fill_pool messages range p)) = Some p' →
                  ∀ x, x ∈ p' → x ∈ p ∨ x ∈ messages).
  { induction range as [|j range IH]; intros p i.
    - simpl. split; [constructor|]. intros p' [= <-] x Hx. by left.
    - rewrite DispatchFacts.fill_pool_cons by done.
      destruct (j mod length messages =? 0)%nat.
      + rewrite run_call. cbn [fst snd].
        destruct (env _ i (random_sample messages)) as [shuffled Hperm].
        cbn [proj1_sig].
        destruct (IH (p ++ shuffled)%list (S i)) as [Hm Hp]. split.
        * constructor; [done|exact Hm].
        * intros p' Hp' x Hx. destruct (Hp p' Hp' x Hx) as [Hin|Hin]; [|by right].
          apply elem_of_app in Hin as [Hin|Hin]; [by left|right].
          by rewrite <- Hperm.
      + apply IH. }
  unfold build_message_pool in E. rewrite run_bind in E.
  destruct (Hmember (seq 0 (Z.to_nat quantity)) [] k) as [Hm Hp].
  destruct (run env k (fill_pool messages _ [])) as [t' [p'|]]; simpl in E.
  - injection E as <- <-. rewrite app_nil_r. split; [exact Hm|].
    split; [lia|]. intros x Hx.
    apply elem_of_take in Hx as (i & Hi & _).
    destruct (Hp p' eq_refl x) as [Hin|Hin];
      [by eapply list_elem_of_lookup_2|by apply elem_of_nil in Hin|done].
  - discriminate E.
Qed.

(** The run of the dispatch: calls without any send, then either
    nothing, or the send loop over a pool of [quantity] templates, which
    only starts after the bot was found to be administrator or owner of
    the chat. *)
Lemma run_dispatch (env : Env) (n : nat) (cfg : BotConfig) (message : Message)
    (target_input : string) (quantity : Z) :
  0 ≤ quantity →
  ∃ pre post,
    fst (run env n (dispatch format_mention cfg message target_input quantity))
    = (pre ++ post)%list ∧
    quiet pre ∧
    (post = []
     ∨ (spam_messages cfg ≠ [] ∧
        (∃ e status,
           e ∈ pre ∧
           member_status e = Some (chat_id (chat message), status) ∧
           (status = ADMINISTRATOR ∨ status = OWNER)) ∧
        ∃ pool mention final,
          length pool = Z.to_nat quantity ∧
          (∀ x, x ∈ pool → x ∈ spam_messages cfg) ∧
          Spec.loop_run format_mention (chat_id (chat message)) mention pool 0
            post final ∧
          snd (run env n (dispatch format_mention cfg message target_input quantity))
          = Some tt)).
Proof.
  intros Hq. unfold dispatch. rewrite run_bind.
  destruct (run_resolve_user_id env n target_input) as (t0 & tid & -> & Hq0 & _).
  destruct tid as [[|p|p]|]; cbv beta iota;
    try (simpl; eexists _, []; (split; [symmetry; apply app_nil_r|]);
         (split; [apply Forall_app; split; [exact Hq0|constructor]|]); by left).
  all: rewrite run_call;
    destruct (env _ (n + length t0)%nat (get_users _)) as [target_user| |];
    cbv beta iota; cbn [fst snd];
    try (simpl; eexists _, []; (split; [symmetry; apply app_nil_r|]);
         (split; [apply Forall_app; split; [exact Hq0|by repeat constructor]|]);
         by left).
  all: rewrite run_call;
    destruct (env _ (S (n + length t0)) (get_chat_member_me _)) as [status| |];
    cbv beta iota; cbn [fst snd];
    try (simpl; eexists _, []; (split; [symmetry; apply app_nil_r|]);
         (split; [apply Forall_app; split; [exact Hq0|by repeat constructor]|]);
         by left).
  all: destruct status; cbv beta iota;
    try (simpl; eexists _, []; (split; [symmetry; apply app_nil_r|]);
         (split; [apply Forall_app; split; [exact Hq0|by repeat constructor]|]);
         by left).
  all: destruct (spam_messages cfg) as [|m ms] eqn:Hmsgs; cbv beta iota;
    try (simpl; eexists _, []; (split; [symmetry; apply app_nil_r|]);
         (split; [apply Forall_app; split; [exact Hq0|by repeat constructor]|]);
         by left).
  all: rewrite run_bind;
    destruct (pool_from_templates env (S (S (n + length t0))) (m :: ms) quantity)
      as (tp & pool & -> & Hqp & _ & Hlen & Hfrom); [done|done|];
    rewrite run_bind;
    match goal with
    | |- context [run ?E ?k (send_loop _ ?c ?mn ?pl 0)] =>
        destruct (DispatchFacts.run_send_loop format_mention E c mn pl k 0%nat)
          as (final & Hfinal & Hloop);
        destruct (run E k (send_loop format_mention c mn pl 0)) as [tl ol];
        simpl in Hfinal, Hloop; subst ol
    end;
    cbn [fst snd run];
    eexists (t0 ++ _ :: _ :: tp)%list, tl;
    (split; [rewrite app_nil_r, <- !app_assoc; reflexivity|]);
    (split; [apply Forall_app; split;
               [exact Hq0|constructor; [done|constructor; [done|exact Hqp]]]|]);
    right; (split; [done|]);
    (split; [eexists _, _; split;
       [apply elem_of_app; right; apply elem_of_cons; right;
        apply elem_of_cons; left; reflexivity|split; [reflexivity|eauto]]|]);
    eexists pool, _, final; repeat split; done.
Qed.

Lemma quiet_reject (env : Env) (n : nat) (message : Message) (notice : Notice) :
  quiet (fst (run env n (reject message notice))).
Proof.
  apply attempts_quiet. eapply two_phase_cleanup_counts, run_reject.
Qed.

Lemma quiet_try_delete (env : Env) (n : nat) (chat_id message_id : Z) :
  quiet (fst (run env n (try_delete chat_id message_id))).
Proof. rewrite run_try_delete. by repeat constructor. Qed.

(** An accepted command is deleted and handed to the dispatch. *)
Lemma run_handler_dispatch (env : Env) (n : nat) (cfg : BotConfig) (cmd : string)
    (message : Message) (account : Z) (target_input : string) (quantity : Z) :
  Accepted cfg cmd message account target_input quantity →
  run env n (handler cfg cmd message)
  = (Ev (delete_messages (chat_id (chat message)) (message_id message))
        (env _ n (delete_messages (chat_id (chat message)) (message_id message)))
     :: fst (run env (S n) (dispatch format_mention cfg message target_input quantity)),
     snd (run env (S n) (dispatch format_mention cfg message target_input quantity))).
Proof.
  intros [Hcmd Hprivate Hchat (command & code & quantity_input & rest & Hfields & Hcode & Hint)
            Hnz Hsender Hauth Hrange].
  rewrite (GateFacts.run_handler_accepted format_mention env n cfg cmd message
             _ _ _ _ _ _ Hcmd Hprivate Hchat Hfields Hcode Hnz Hsender).
  unfold authorize_and_dispatch, is_authorized.
  rewrite (bool_decide_eq_true_2 _ Hauth). cbn [negb].
  rewrite run_bind, run_try_delete, Hint.
  replace ((quantity <? 1) || (quantity >? 100)) with false
    by (symmetry; apply orb_false_iff; split; lia).
  rewrite Nat.add_1_r. cbn [length app].
  by destruct (run env (S n) _).
Qed.

(** Whatever the message, the handler either makes no send at all, or
    the message is an accepted command. *)
Lemma quiet_or_accepted (env : Env) (n : nat) (cfg : BotConfig) (cmd : string)
    (message : Message) :
  quiet (fst (run env n (handler cfg cmd message)))
  ∨ ∃ account target_input quantity,
      Accepted cfg cmd message account target_input quantity.
Proof.
  unfold universal_message_handler.
  destruct (Py.truthy (text message)) eqn:Htruthy; [|left; constructor].
  cbn [negb]. cbv zeta.
  destruct (negb _ && negb (Py.startswith _ (Py.lstrip "/" cmd))) eqn:Hprefix;
    [left; constructor|].
  assert (Hcmd : Spec.is_command cmd message = true).
  { unfold Spec.is_command. rewrite Htruthy. simpl.
    rewrite <- negb_orb in Hprefix. by apply negb_false_iff in Hprefix. }
  destruct (is_private (chat_type (chat message))) eqn:Hpriv; cbn [negb andb].
  { left. rewrite run_call. destruct (env _ n (reply_text _ _)); by repeat constructor. }
  assert (Hprivate : chat_type (chat message) ≠ PRIVATE).
  { intros E. by rewrite E in Hpriv. }
  destruct (is_chat_authorized _ cfg) eqn:Hchat; cbn [negb];
    [|left; apply quiet_try_delete].
  apply bool_decide_eq_true in Hchat.
  destruct (Py.split _) as [|f0 [|f1 [|f2 [|f3 rest]]]] eqn:Hfields;
    try (left; apply quiet_try_delete).
  destruct (get_user_id_from_code f1 cfg) as [account|] eqn:Hcode;
    [|left; apply quiet_reject].
  assert (Hgo : quiet (fst (run env n
                  (authorize_and_dispatch format_mention cfg message account f2 f3)))
                ∨ (account ≠ 0 →
                   (from_user message = None
                    ∨ ∃ sender, from_user message = Some sender ∧ uid sender = account) →
                   ∃ quantity, Accepted cfg cmd message account f2 quantity)).
  { unfold authorize_and_dispatch.
    destruct (is_authorized account cfg) eqn:Hauth; cbn [negb];
      [|left; apply quiet_reject].
    apply bool_decide_eq_true in Hauth.
    rewrite run_bind, run_try_delete.
    destruct (Py.int f3) as [quantity|] eqn:Hint; [|left; by repeat constructor].
    destruct ((quantity <? 1) || (quantity >? 100)) eqn:Hrange;
      [left; by repeat constructor|].
    right. intros Hnz Hsender. exists quantity.
    apply orb_false_iff in Hrange as [Hlo Hhi].
    split; try done; [by exists f0, f1, f3, rest|lia]. }
  destruct account as [|p|p]; [left; apply quiet_reject|..];
    (destruct (from_user message) as [sender|] eqn:Hsender;
     [destruct (uid sender =? _) eqn:Hsame; cbn [negb];
        [apply Z.eqb_eq in Hsame|left; apply quiet_reject]|]);
    (destruct Hgo as [Hquiet|Hacc]; [by left|right]);
    eexists _, f2;
    (apply Hacc; [done|eauto]).
Qed.



(** X11.  In a private chat a command only gets the help text as an
    answer: the handler makes that one call, deletes nothing and sends
    nothing, whether or not the chat is authorized and whatever code the
    command carries; it returns unless posting the answer raised. *)
Theorem private_chat_help_only (env : Env) (n : nat) (cfg : BotConfig)
    (cmd : string) (message : Message) :
  Spec.is_command cmd message = true →
  chat_type (chat message) = PRIVATE →
  ∃ posted,
    run env n (handler cfg cmd message)
    = ([Ev (reply_text message (PmHelp cmd)) posted],
       match posted with Some _ => Some tt | None => None end).
Proof.
  intros Hcmd Hprivate. unfold universal_message_handler.
  destruct (is_command_tests _ _ Hcmd) as [Htruthy Hprefix].
  rewrite Htruthy. cbn [negb]. cbv zeta. rewrite Hprefix, Hprivate.
  cbn [is_private negb andb]. rewrite run_call.
  exists (env _ n (reply_text message (PmHelp cmd))).
  by destruct (env _ n (reply_text message (PmHelp cmd))).
Qed.

(** X12.  A command of fewer than four fields in an authorized chat
    that is not private is deleted and nothing else happens: no notice,
    no send, even when its second field is a valid code. *)
Theorem short_command_deleted (env : Env) (n : nat) (cfg : BotConfig)
    (cmd : string) (message : Message) :
  Spec.is_command cmd message = true →
  chat_type (chat message) ≠ PRIVATE →
  chat_id (chat message) ∈ authorized_chats cfg →
  (length (Spec.fields message) < 4)%nat →
  ∃ d : DeleteResult,
    run env n (handler cfg cmd message)
    = ([Ev (delete_messages (chat_id (chat message)) (message_id message)) d],
       Some tt).
Proof.
  intros Hcmd Hprivate Hchat Hshort. unfold universal_message_handler.
  destruct (is_command_tests _ _ Hcmd) as [Htruthy Hprefix].
  rewrite Htruthy. cbn [negb]. cbv zeta. rewrite Hprefix.
  rewrite (is_private_false _ Hprivate).
  unfold is_chat_authorized. rewrite (bool_decide_eq_true_2 _ Hchat).
  cbn [negb andb]. unfold Spec.fields in Hshort.
  destruct (Py.split _) as [|f0 [|f1 [|f2 [|f3 rest]]]];
    try (rewrite run_try_delete; eauto).
  simpl in Hshort. lia.
Qed.

Lemma reject_starts_with_delete (env : Env) (n : nat) (message : Message)
    (notice : Notice) :
  ∃ d rest,
    fst (run env n (reject message notice))
    = Ev (delete_messages (chat_id (chat message)) (message_id message)) d :: rest.
Proof.
  destruct (run_reject env n message notice); eauto.
Qed.

(** X13.  Every command in a chat that is not private has its message
    deleted before anything else: whichever way the handler goes on, its
    first call is the deletion of the command message. *)
Theorem command_deleted_first (env : Env) (n : nat) (cfg : BotConfig)
    (cmd : string) (message : Message) :
  Spec.is_command cmd message = true →
  chat_type (chat message) ≠ PRIVATE →
  ∃ d rest,
    fst (run env n (handler cfg cmd message))
    = Ev (delete_messages (chat_id (chat message)) (message_id message)) d :: rest.
Proof.
  intros Hcmd Hprivate. unfold universal_message_handler.
  destruct (is_command_tests _ _ Hcmd) as [Htruthy Hprefix].
  rewrite Htruthy. cbn [negb]. cbv zeta. rewrite Hprefix.
  rewrite (is_private_false _ Hprivate). cbn [negb andb].
  destruct (is_chat_authorized _ cfg); cbn [negb];
    [|rewrite run_try_delete; eauto].
  destruct (Py.split _) as [|f0 [|f1 [|f2 [|f3 rest]]]];
    try (rewrite run_try_delete; eauto).
  assert (Hgo : ∀ account,
            ∃ d rest',
              fst (run env n
                     (authorize_and_dispatch format_mention cfg message account f2 f3))
              = Ev (delete_messages (chat_id (chat message)) (message_id message)) d
                :: rest').
  { intros account. unfold authorize_and_dispatch.
    destruct (is_authorized account cfg); cbn [negb];
      [|apply reject_starts_with_delete].
    rewrite run_bind, run_try_delete.
    destruct (run env _ _) as [t o]. simpl. eauto. }
  destruct (get_user_id_from_code f1 cfg) as [[|p|p]|];
    try apply reject_starts_with_delete;
    (destruct (from_user message) as [sender|];
     [destruct (negb (uid sender =? _));
        [apply reject_starts_with_delete|apply Hgo]|apply Hgo]).
Qed.

(** X14.  The handler sends only for an accepted command: when a run
    contains a send attempt, the message passed every check of the gate,
    the template list is not empty, the bot was found to be
    administrator or owner of the chat during the run, and the first
    call of the run deleted the command message. *)
Theorem sends_need_authorization (env : Env) (n : nat) (cfg : BotConfig)
    (cmd : string) (message : Message) :
  send_attempts (fst (run env n (handler cfg cmd message))) ≠ 0%nat →
  (∃ account target_input quantity,
     Accepted cfg cmd message account target_input quantity) ∧
  spam_messages cfg ≠ [] ∧
  (∃ e status,
     e ∈ fst (run env n (handler cfg cmd message)) ∧
     member_status e = Some (chat_id (chat message), status) ∧
     (status = ADMINISTRATOR ∨ status = OWNER)) ∧
  ∃ d,
    head (fst (run env n (handler cfg cmd message)))
    = Some (Ev (delete_messages (chat_id (chat message)) (message_id message)) d).
Proof.
  intros Hsend.
  destruct (quiet_or_accepted env n cfg cmd message)
    as [Hquiet|(account & target_input & quantity & Hacc)].
  { by apply quiet_attempts in Hquiet. }
  rewrite (run_handler_dispatch env n cfg cmd message _ _ _ Hacc) in Hsend |- *.
  cbn [fst] in Hsend |- *.
  destruct (run_dispatch env (S n) cfg message target_input quantity)
    as (pre & post & Heq & Hpre & Hpost).
  { destruct Hacc. lia. }
  rewrite Heq in Hsend |- *.
  destruct Hpost as [->|(Hne & (e & status & Hin & Hst & Hadm) & _)].
  { exfalso. apply Hsend. rewrite app_nil_r. apply quiet_attempts in Hpre.
    unfold send_attempts in *. simpl. exact Hpre. }
  split; [eauto|]. split; [done|]. split; [|simpl; eauto].
  exists e, status. split; [|done].
  apply elem_of_cons; right. apply elem_of_app; by left.
Qed.

(** X15.  Whatever the message and the platform, every send of the
    handler goes to the chat the message came from, and a run holds at
    most 100 send attempts. *)
Theorem sends_stay_in_chat (env : Env) (n : nat) (cfg : BotConfig)
    (cmd : string) (message : Message) :
  Forall (fun e => ∀ c, send_chat e = Some c → c = chat_id (chat message))
    (fst (run env n (handler cfg cmd message))) ∧
  (send_attempts (fst (run env n (handler cfg cmd message))) ≤ 100)%nat.
Proof.
  destruct (quiet_or_accepted env n cfg cmd message)
    as [Hquiet|(account & target_input & quantity & Hacc)].
  { split; [|apply quiet_attempts in Hquiet; lia].
    eapply Forall_impl; [exact Hquiet|]. simpl. intros e He c Hc. congruence. }
  rewrite (run_handler_dispatch env n cfg cmd message _ _ _ Hacc). cbn [fst].
  destruct (run_dispatch env (S n) cfg message target_input quantity)
    as (pre & post & -> & Hpre & Hpost).
  { destruct Hacc. lia. }
  assert (Hpre' : Forall (fun e => ∀ c, send_chat e = Some c → c = chat_id (chat message))
                    pre).
  { eapply Forall_impl; [exact Hpre|]. simpl. intros e He c Hc. congruence. }
  assert (Hatt : send_attempts
                   (Ev (delete_messages (chat_id (chat message)) (message_id message))
                       (env _ n (delete_messages (chat_id (chat message))
                                   (message_id message)))
                    :: pre ++ post)
                 = send_attempts post).
  { change (Ev ?c ?r :: pre ++ post)%list with ([Ev c r] ++ pre ++ post)%list.
    rewrite !send_attempts_app, (quiet_attempts pre Hpre). done. }
  rewrite Hatt.
  destruct Hpost as [->|(_ & _ & pool & mention & final & Hlen & _ & Hloop & _)].
  { split; [|unfold send_attempts; simpl; lia].
    constructor; [done|]. by rewrite app_nil_r. }
  split.
  - constructor; [done|]. apply Forall_app. split; [done|].
    by eapply loop_run_chat.
  - pose proof (DispatchFacts.loop_run_attempts _ _ _ _ _ _ _ Hloop) as Hle.
    destruct Hacc. lia.
Qed.

Lemma quiet_prefix (pre t : list Event) :
  quiet pre →
  sends (pre ++ t) = sends t ∧ send_attempts (pre ++ t) = send_attempts t.
Proof.
  intros Hq. rewrite DispatchFacts.sends_app, send_attempts_app.
  pose proof (DispatchFacts.sends_le_attempts pre) as Hle.
  rewrite (quiet_attempts pre Hq) in *. lia.
Qed.

Lemma run_send_loop_all_sent (env : Env) (chat_id : Z) (mention : string)
    (pool : list string) :
  (∀ k c txt, env _ k (send_message c txt) = Sent) →
  (∀ x, x ∈ pool → is_Some (format_mention x mention)) →
  ∀ (n count : nat),
    sends (fst (run env n (send_loop format_mention chat_id mention pool count)))
    = length pool ∧
    send_attempts (fst (run env n (send_loop format_mention chat_id mention pool count)))
    = length pool ∧
    snd (run env n (send_loop format_mention chat_id mention pool count))
    = Some (count + length pool)%nat.
Proof.
  intros Hsent. induction pool as [|x pool IH]; intros Hfmt n count.
  - simpl. split; [done|]. split; [done|]. f_equal. lia.
  - rewrite DispatchFacts.send_loop_cons.
    destruct (Hfmt x) as [formatted ->]; [apply elem_of_cons; by left|].
    rewrite Hsent. cbn [fst snd].
    destruct (IH (fun y Hy => Hfmt y (proj2 (elem_of_cons _ _ _) (or_intror Hy)))
                (S (S n)) (S count)) as (Hs & Ha & Hr).
    unfold sends, send_attempts in *. simpl. rewrite Hs, Ha, Hr.
    split; [done|]. split; [done|]. f_equal. lia.
Qed.

(** X16.  On a platform that resolves the target, finds the bot to be
    administrator or owner and lets every send through, an accepted
    command with templates that all format is followed by exactly
    [quantity] sends, all of which return, and the handler returns. *)
Theorem cooperative_platform_sends_all (env : Env) (n : nat) (cfg : BotConfig)
    (cmd : string) (message : Message) (account : Z) (target_input : string)
    (quantity : Z) :
  Accepted cfg cmd message account target_input quantity →
  spam_messages cfg ≠ [] →
  (∀ x mention, x ∈ spam_messages cfg → is_Some (format_mention x mention)) →
  (Py.isdigit target_input
   || (Py.startswith target_input "-" && Py.isdigit (Py.tail target_input)) = true →
   ∃ target_id, Py.int target_input = Some target_id ∧ target_id ≠ 0) →
  (∀ k name, ∃ u, env _ k (get_users (inl name)) = UserFound u ∧ uid u ≠ 0) →
  (∀ k target_id, ∃ u, env _ k (get_users (inr target_id)) = UserFound u) →
  (∀ k c, env _ k (get_chat_member_me c) = MemberStatus ADMINISTRATOR
          ∨ env _ k (get_chat_member_me c) = MemberStatus OWNER) →
  (∀ k c txt, env _ k (send_message c txt) = Sent) →
  snd (run env n (handler cfg cmd message)) = Some tt ∧
  sends (fst (run env n (handler cfg cmd message))) = Z.to_nat quantity ∧
  send_attempts (fst (run env n (handler cfg cmd message))) = Z.to_nat quantity.
Proof.
  intros Hacc Hne Hfmt Hnum Hname Hid Hadmin Hsent.
  rewrite (run_handler_dispatch env n cfg cmd message _ _ _ Hacc). cbn [fst snd].
  assert (Hq : 0 ≤ quantity) by (destruct Hacc; lia).
  assert (Htail : ∀ (k : nat) (target_user : User),
            let r := run env k
                       (bind (build_message_pool (spam_messages cfg) quantity)
                          (fun message_pool =>
                             bind (send_loop format_mention (chat_id (chat message))
                                     (mention target_user) message_pool 0)
                               (fun _ => Ret tt))) in
            snd r = Some tt ∧ sends (fst r) = Z.to_nat quantity ∧
            send_attempts (fst r) = Z.to_nat quantity).
  { intros k target_user. cbv zeta. rewrite run_bind.
    destruct (pool_from_templates env k (spam_messages cfg) quantity Hq Hne)
      as (tp & pool & -> & Hqp & _ & Hlen & Hfrom).
    rewrite run_bind.
    destruct (run_send_loop_all_sent env (chat_id (chat message))
                (mention target_user) pool Hsent
                (fun x Hx => Hfmt x _ (Hfrom x Hx)) (k + length tp)%nat 0%nat)
      as (Hs & Ha & Hr).
    destruct (run env (k + length tp) (send_loop _ _ _ pool 0)) as [tl ol].
    simpl in Hs, Ha, Hr. subst ol. cbn [fst snd run]. rewrite app_nil_r.
    split; [done|].
    rewrite DispatchFacts.sends_app, send_attempts_app, (quiet_attempts tp Hqp).
    pose proof (DispatchFacts.sends_le_attempts tp) as Hle.
    rewrite (quiet_attempts tp Hqp) in Hle. lia. }
  assert (Hresolve : ∀ k,
            ∃ t0 target_id,
              run env k (resolve_user_id target_input) = (t0, Some (Some target_id)) ∧
              target_id ≠ 0 ∧ quiet t0).
  { intros k. unfold resolve_user_id.
    destruct (Py.isdigit target_input || _) eqn:Hnumeric.
    - destruct (Hnum eq_refl) as (target_id & -> & Hnz).
      exists [], target_id. split; [done|]. split; [done|constructor].
    - rewrite run_call.
      match goal with
      | |- context [env _ k (get_users (inl ?name))] =>
          destruct (Hname k name) as (u & -> & Hnz)
      end.
      eexists _, (uid u). split; [reflexivity|]. split; [done|by repeat constructor]. }
  unfold dispatch. rewrite run_bind.
  destruct (Hresolve (S n)) as (t0 & target_id & -> & Hnz & Hq0).
  destruct target_id as [|p|p]; [done|..]; cbv beta iota;
    rewrite run_call;
    match goal with
    | |- context [env _ ?k (get_users (inr ?i))] =>
        destruct (Hid k i) as [u Hu]; rewrite Hu
    end;
    cbv beta iota; rewrite run_call;
    match goal with
    | |- context [env _ ?k (get_chat_member_me ?c)] =>
        destruct (Hadmin k c) as [Hm|Hm]; rewrite Hm
    end;
    cbv beta iota zeta;
    (destruct (spam_messages cfg) as [|m ms] eqn:Hmsgs; [done|]);
    match goal with
    | |- context [run env ?k (bind (build_message_pool ?l ?q) ?f)] =>
        pose proof (Htail k u) as Ht; cbv zeta in Ht;
        destruct Ht as (Hr & Hs & Ha);
        destruct (run env k (bind (build_message_pool l q) f)) as [tl ol]
    end;
    cbn [fst snd] in *; subst ol; (split; [done|]);
    match goal with
    | |- context [(?e :: ?a ++ ?e1 :: ?e2 :: ?b)%list] =>
        replace (e :: a ++ e1 :: e2 :: b)%list
          with ((e :: a ++ [e1; e2]) ++ b)%list
          by (simpl; by rewrite <- app_assoc);
        destruct (quiet_prefix (e :: a ++ [e1; e2])%list b) as [-> ->];
          [constructor; [done|apply Forall_app; split; [done|by repeat constructor]]|]
    end;
    done.
Qed.

(** X17.  Once an account is removed from the authorized list, the
    codes bound to it stay in the table but no longer dispatch: a command
    carrying such a code, sent by the account or anonymously, gets the
    two-phase cleanup with the notice of an account that is not
    authorized, and nothing is sent. *)
Theorem deauthorized_account_rejected (env : Env) (n : nat) (cfg : BotConfig)
    (cmd : string) (message : Message)
    (command code target quantity : string) (rest : list string) (account : Z) :
  NoDup (authorized_users cfg) →
  account ≠ owner_id cfg →
  Spec.is_command cmd message = true →
  chat_type (chat message) ≠ PRIVATE →
  chat_id (chat message) ∈ authorized_chats cfg →
  Spec.fields message = command :: code :: target :: quantity :: rest →
  get_user_id_from_code code cfg = Some account →
  account ≠ 0 →
  from_user message = None
  ∨ (∃ sender, from_user message = Some sender ∧ uid sender = account) →
  get_user_id_from_code code (remove_authorized_user account cfg) = Some account ∧
  Spec.two_phase_cleanup message AccountNotAuthorized
    (fst (run env n (handler (remove_authorized_user account cfg) cmd message)))
    (snd (run env n (handler (remove_authorized_user account cfg) cmd message))) ∧
  send_attempts
    (fst (run env n (handler (remove_authorized_user account cfg) cmd message)))
  = 0%nat.
Proof.
  intros Hnd Hown Hcmd Hprivate Hchat Hfields Hcode Hnz Hsender.
  destruct (ConfigExtra.remove_authorized_user_frame account cfg) as (Hchats & Hcodes & _).
  assert (Hcode' : get_user_id_from_code code (remove_authorized_user account cfg)
                   = Some account).
  { unfold get_user_id_from_code in *. by rewrite Hcodes. }
  split; [done|].
  rewrite (GateFacts.run_handler_accepted format_mention env n _ cmd message
             _ _ _ _ _ _ Hcmd Hprivate ltac:(by rewrite Hchats) Hfields Hcode' Hnz Hsender).
  rewrite (GateFacts.run_authorize_rejected format_mention env n _ message account _ _
             (ConfigExtra.remove_authorized_user_not_listed _ _ Hnd Hown)).
  split; [apply run_reject|]. eapply two_phase_cleanup_counts, run_reject.
Qed.

(** X18.  The life of a code: once [generate_secret_code] has issued a
    code for an authorized account other than 0, a command carrying it
    in an authorized chat, sent by that account or anonymously, with a
    quantity from 1 to 100, passes the gate, so that the handler deletes
    the command and goes on to the dispatch; once the code is revoked,
    the same command gets the two-phase cleanup with the notice of an
    invalid code. *)
Theorem issued_code_is_accepted_until_revoked (env : Env) (n : nat)
    (cfg cfg1 : BotConfig) (draws draws1 : list string) (code : string)
    (cmd : string) (message : Message)
    (command target quantity_input : string) (rest : list string)
    (account quantity : Z) :
  generate_secret_code account cfg draws = Some (code, cfg1, draws1) →
  account ∈ authorized_users cfg →
  account ≠ 0 →
  Spec.is_command cmd message = true →
  chat_type (chat message) ≠ PRIVATE →
  chat_id (chat message) ∈ authorized_chats cfg →
  Spec.fields message = command :: code :: target :: quantity_input :: rest →
  Py.int quantity_input = Some quantity →
  1 ≤ quantity ≤ 100 →
  from_user message = None
  ∨ (∃ sender, from_user message = Some sender ∧ uid sender = account) →
  Accepted cfg1 cmd message account target quantity ∧
  run env n (handler cfg1 cmd message)
  = (Ev (delete_messages (chat_id (chat message)) (message_id message))
        (env _ n (delete_messages (chat_id (chat message)) (message_id message)))
     :: fst (run env (S n) (dispatch format_mention cfg1 message target quantity)),
     snd (run env (S n) (dispatch format_mention cfg1 message target quantity))) ∧
  Spec.two_phase_cleanup message InvalidCode
    (fst (run env n (handler (fst (revoke_secret_code code cfg1)) cmd message)))
    (snd (run env n (handler (fst (revoke_secret_code code cfg1)) cmd message))).
Proof.
  intros Hgen Hauth Hnz Hcmd Hprivate Hchat Hfields Hint Hrange Hsender.
  apply ConfigFacts.generate_secret_code_spec in Hgen as (Hfresh & _ & ->).
  assert (Hacc : Accepted
            (set_user_secret_codes (<[code:=account]> (user_secret_codes cfg)) cfg)
            cmd message account target quantity).
  { split; try done.
    exists command, code, quantity_input, rest. split; [done|]. split; [|done].
    apply lookup_insert_eq. }
  split; [done|].
  split; [exact (run_handler_dispatch env n _ cmd message account target quantity Hacc)|].
  set (cfg1 := set_user_secret_codes (<[code:=account]> (user_secret_codes cfg)) cfg).
  assert (Hchat' : chat_id (chat message)
                   ∈ authorized_chats (fst (revoke_secret_code code cfg1))).
  { unfold revoke_secret_code, cfg1. simpl. by rewrite lookup_insert_eq. }
  pose proof (ConfigFacts.revoke_secret_code_removes code cfg1) as Hrev.
  rewrite (GateFacts.run_handler_unknown_code format_mention env n
             (fst (revoke_secret_code code cfg1)) cmd message
             command code target quantity_input rest
             Hcmd Hprivate Hchat' Hfields (or_introl Hrev)).
  apply run_reject.
Qed.

(** X19.  [resolve_user_id] never lets an exception escape and makes
    at most one call.  An input made of decimal digits, with or without a
    leading minus sign, is converted without any call; for any other
    input a leading [@] is optional: the name is looked up the same with
    and without it. *)
Theorem resolve_user_id_lookup (env : Env) (n : nat) (user_input : string) :
  (∃ t target_id,
     run env n (resolve_user_id user_input) = (t, Some target_id) ∧
     (length t ≤ 1)%nat) ∧
  (Py.isdigit user_input
   || (Py.startswith user_input "-" && Py.isdigit (Py.tail user_input)) = true →
   run env n (resolve_user_id user_input) = ([], Some (Py.int user_input))) ∧
  (Py.isdigit user_input
   || (Py.startswith user_input "-" && Py.isdigit (Py.tail user_input)) = false →
   Py.startswith user_input "@" = false →
   run env n (resolve_user_id (String "@" user_input))
   = run env n (resolve_user_id user_input)).
Proof.
  split; [|split].
  - destruct (run_resolve_user_id env n user_input) as (t & r & Hr & _ & _ & Hlen & _).
    eauto.
  - intros Hnum. unfold resolve_user_id. by rewrite Hnum.
  - intros Hnum Hat. unfold resolve_user_id. rewrite Hnum, Hat.
    assert (Hfirst : Py.isdigit (String "@" user_input)
                     || (Py.startswith (String "@" user_input) "-"
                         && Py.isdigit (Py.tail (String "@" user_input))) = false).
    { reflexivity. }
    rewrite Hfirst.
    assert (Hstrip : Py.startswith (String "@" user_input) "@" = true).
    { unfold Py.startswith. simpl. apply ConfigExtra.prefix_empty. }
    rewrite Hstrip. done.
Qed.

End Extra.

Lemma private_chat_help_only_witness :
  ∃ posted,
    run Spec.calm_env 0
      (universal_message_handler Spec.format_basic Spec.private_config "/s"
         (Spec.private_message "/s ABC123 @alice 3"))
    = ([Ev (reply_text (Spec.private_message "/s ABC123 @alice 3") (PmHelp "/s"))
           posted],
       match posted with Some _ => Some tt | None => None end).
Proof.
  apply (private_chat_help_only Spec.format_basic Spec.calm_env 0 Spec.private_config "/s"
           (Spec.private_message "/s ABC123 @alice 3")); reflexivity.
Defined.

Lemma short_command_deleted_witness :
  ∃ d : DeleteResult,
    run Spec.calm_env 0
      (universal_message_handler Spec.format_basic Spec.example_config "/s"
         Spec.short_mismatched_command)
    = ([Ev (delete_messages 100 7) d], Some tt).
Proof.
  apply (short_command_deleted Spec.format_basic Spec.calm_env 0 Spec.example_config "/s"
           Spec.short_mismatched_command).
  - reflexivity.
  - discriminate.
  - apply list_elem_of_singleton. reflexivity.
  - simpl. lia.
Defined.

Lemma command_deleted_first_witness :
  ∃ d rest,
    fst (run Spec.calm_env 0
           (universal_message_handler Spec.format_basic Spec.example_config "/s"
              (Spec.example_message 100 "see you tomorrow at noon" (Some 5))))
    = Ev (delete_messages 100 7) d :: rest.
Proof.
  apply (command_deleted_first Spec.format_basic Spec.calm_env 0 Spec.example_config "/s"
           (Spec.example_message 100 "see you tomorrow at noon" (Some 5)));
    [reflexivity|discriminate].
Defined.

Lemma sends_need_authorization_witness :
  Spec.example_config.(spam_messages) ≠ [] ∧
  ∃ d,
    head (fst (run Spec.calm_env 0
                 (universal_message_handler Spec.format_basic Spec.example_config
                    "/s" Spec.accepted_command)))
    = Some (Ev (delete_messages 100 7) d).
Proof.
  destruct (sends_need_authorization Spec.format_basic Spec.calm_env 0 Spec.example_config "/s"
              Spec.accepted_command) as (_ & Hne & _ & Hd).
  - intros H. vm_compute in H. discriminate H.
  - split; [exact Hne|exact Hd].
Defined.

Lemma cooperative_platform_sends_all_witness :
  sends (fst (run Spec.calm_env 0
                (universal_message_handler Spec.format_basic Spec.example_config
                   "/s" Spec.accepted_command)))
  = 3%nat.
Proof.
  refine (proj1 (proj2
    (cooperative_platform_sends_all Spec.format_basic Spec.calm_env 0
       Spec.example_config "/s" Spec.accepted_command 42 "@alice" 3
       _ _ _ _ _ _ _ _))).
  - split; try done.
    + apply list_elem_of_singleton. reflexivity.
    + exists "/s", "ABC123", "3", []. repeat split; reflexivity.
    + right. eexists. split; reflexivity.
    + apply elem_of_cons. right. apply list_elem_of_singleton. reflexivity.
  - discriminate.
  - intros x mention Hx.
    apply elem_of_cons in Hx as [->|Hx];
      [|apply list_elem_of_singleton in Hx as ->]; eexists; reflexivity.
  - discriminate.
  - intros k name. eexists. split; [reflexivity|discriminate].
  - intros k target_id. eexists. reflexivity.
  - intros k c. by left.
  - reflexivity.
Defined.

Lemma deauthorized_account_rejected_witness :
  send_attempts
    (fst (run Spec.calm_env 0
            (universal_message_handler Spec.format_basic
               (remove_authorized_user 42 Spec.example_config) "/s"
               Spec.accepted_command)))
  = 0%nat.
Proof.
  refine (proj2 (proj2
    (deauthorized_account_rejected Spec.format_basic Spec.calm_env 0
       Spec.example_config "/s" Spec.accepted_command
       "/s" "ABC123" "@alice" "3" [] 42 _ _ _ _ _ _ _ _ _))).
  - apply NoDup_cons. split; [|apply NoDup_singleton].
    intros H. apply list_elem_of_singleton in H. discriminate H.
  - discriminate.
  - reflexivity.
  - discriminate.
  - apply list_elem_of_singleton. reflexivity.
  - reflexivity.
  - reflexivity.
  - discriminate.
  - right. eexists. split; reflexivity.
Defined.

Lemma issued_code_is_accepted_until_revoked_witness :
  Spec.two_phase_cleanup (Spec.example_message 100 "/s K9 @alice 3" (Some 42))
    InvalidCode
    (fst (run Spec.calm_env 0
            (universal_message_handler Spec.format_basic
               (fst (revoke_secret_code "K9"
                  (set_user_secret_codes
                     (<[ "K9" := 42 ]> (user_secret_codes Spec.example_config))
                     Spec.example_config)))
               "/s" (Spec.example_message 100 "/s K9 @alice 3" (Some 42)))))
    (snd (run Spec.calm_env 0
            (universal_message_handler Spec.format_basic
               (fst (revoke_secret_code "K9"
                  (set_user_secret_codes
                     (<[ "K9" := 42 ]> (user_secret_codes Spec.example_config))
                     Spec.example_config)))
               "/s" (Spec.example_message 100 "/s K9 @alice 3" (Some 42))))).
Proof.
  refine (proj2 (proj2
    (issued_code_is_accepted_until_revoked Spec.format_basic Spec.calm_env 0
       Spec.example_config _ ["ABC123"; "K9"] [] "K9" "/s"
       (Spec.example_message 100 "/s K9 @alice 3" (Some 42))
       "/s" "@alice" "3" [] 42 3 _ _ _ _ _ _ _ _ _ _))).
  - reflexivity.
  - apply elem_of_cons. right. apply list_elem_of_singleton. reflexivity.
  - discriminate.
  - reflexivity.
  - discriminate.
  - apply list_elem_of_singleton. reflexivity.
  - reflexivity.
  - reflexivity.
  - lia.
  - right. eexists. split; reflexivity.
Defined.

Lemma resolve_user_id_lookup_witness :
  run Spec.calm_env 0 (resolve_user_id "@alice")
  = run Spec.calm_env 0 (resolve_user_id "alice") ∧
  run Spec.calm_env 0 (resolve_user_id "-1001") = ([], Some (Some (-1001))).
Proof.
  destruct (resolve_user_id_lookup Spec.calm_env 0 "alice") as (_ & _ & Hat).
  destruct (resolve_user_id_lookup Spec.calm_env 0 "-1001") as (_ & Hnum & _).
  split; [apply Hat; reflexivity|apply Hnum; reflexivity].
Defined.

End HandlerExtra.

(** ** The owner commands *)

Module OwnerExtra.
Import Config Platform Handler RunFacts Owner Conditions.

Arguments resolve_user_id : simpl never.

Lemma is_owner_false (sender : Z) (c : BotConfig) :
  sender ≠ owner_id c → is_owner sender c = false.
Proof. intros H. by apply Z.eqb_neq. Qed.

(** What [add_user_command] can end in. *)
Lemma run_add_user_command (env : Env) (n : nat) (bot : Bot) (sender : Z)
    (command : list string) :
  ∃ t reply bot',
    run env n (add_user_command bot sender command) = (t, Some (reply, bot')) ∧
    ((bot' = bot ∧ ∀ u, reply ≠ UserAuthorized u)
     ∨ ∃ u, u ≠ 0 ∧ u ≠ owner_id (config bot) ∧ sender = owner_id (config bot) ∧
            reply = UserAuthorized u ∧
            bot' = with_config (add_authorized_user u (config bot)) bot).
Proof.
  unfold add_user_command.
  destruct (is_owner sender (config bot)) eqn:Hown; cbn [negb];
    [|eexists [], _, _; split; [reflexivity|left; done]].
  apply Z.eqb_eq in Hown.
  destruct command as [|c0 [|user_input rest]];
    try (eexists [], _, _; split; [reflexivity|left; done]).
  rewrite run_bind.
  destruct (HandlerExtra.run_resolve_user_id env n user_input) as (t & r & -> & _).
  destruct r as [[|p|p]|]; cbv beta iota;
    try (eexists _, _, _; split; [reflexivity|left; done]).
  all: destruct (_ =? owner_id (config bot)) eqn:Hisown;
    [eexists _, _, _; split; [reflexivity|left; done]|];
    apply Z.eqb_neq in Hisown;
    eexists _, _, _; (split; [reflexivity|]); right;
    eexists; repeat split; try done.
Qed.

(** What [remove_user_command] can end in. *)
Lemma run_remove_user_command (env : Env) (n : nat) (bot : Bot) (sender : Z)
    (command : list string) :
  ∃ t reply bot',
    run env n (remove_user_command bot sender command) = (t, Some (reply, bot')) ∧
    ((bot' = bot ∧ ∀ u, reply ≠ UserRemoved u)
     ∨ ∃ u, u ≠ 0 ∧ u ≠ owner_id (config bot) ∧ sender = owner_id (config bot) ∧
            u ∈ authorized_users (config bot) ∧
            reply = UserRemoved u ∧
            bot' = with_config (remove_authorized_user u (config bot)) bot).
Proof.
  unfold remove_user_command.
  destruct (is_owner sender (config bot)) eqn:Hown; cbn [negb];
    [|eexists [], _, _; split; [reflexivity|left; done]].
  apply Z.eqb_eq in Hown.
  destruct command as [|c0 [|user_input rest]];
    try (eexists [], _, _; split; [reflexivity|left; done]).
  rewrite run_bind.
  destruct (HandlerExtra.run_resolve_user_id env n user_input) as (t & r & -> & _).
  destruct r as [[|p|p]|]; cbv beta iota;
    try (eexists _, _, _; split; [reflexivity|left; done]).
  all: destruct (_ =? owner_id (config bot)) eqn:Hisown;
    [eexists _, _, _; split; [reflexivity|left; done]|];
    apply Z.eqb_neq in Hisown;
    match goal with
    | |- context [bool_decide (?u ∈ ?l)] =>
        destruct (decide (u ∈ l)) as [Hin|Hin];
        [rewrite (bool_decide_eq_true_2 _ Hin)|rewrite (bool_decide_eq_false_2 _ Hin)]
    end; cbn [negb];
    [|eexists _, _, _; split; [reflexivity|left; done]];
    eexists _, _, _; (split; [reflexivity|]); right;
    eexists; repeat split; try done.
Qed.

(** What [generate_secret_command] can end in, when it ends. *)
Lemma run_generate_secret_command (env : Env) (n : nat) (bot : Bot) (sender : Z)
    (command : list string) :
  ∃ t result,
    run env n (generate_secret_command bot sender command) = (t, Some result) ∧
    ∀ reply bot',
      result = Some (reply, bot') →
      (bot' = bot ∧ ∀ u code, reply ≠ SecretGenerated u code)
      ∨ ∃ u code draws,
          u ≠ 0 ∧ sender = owner_id (config bot) ∧
          u ∈ authorized_users (config bot) ∧
          generate_secret_code u (config bot) (token_source bot)
          = Some (code, config bot', draws) ∧
          reply = SecretGenerated u code ∧
          current_spam_command bot' = current_spam_command bot.
Proof.
  unfold generate_secret_command.
  destruct (is_owner sender (config bot)) eqn:Hown; cbn [negb];
    [|eexists [], _; split; [reflexivity|];
      intros ? ? [= <- <-]; left; done].
  apply Z.eqb_eq in Hown.
  destruct command as [|c0 [|user_input rest]];
    try (eexists [], _; split; [reflexivity|];
         intros ? ? [= <- <-]; left; done).
  rewrite run_bind.
  destruct (HandlerExtra.run_resolve_user_id env n user_input) as (t & r & -> & _).
  destruct r as [[|p|p]|]; cbv beta iota;
    try (eexists _, _; split; [reflexivity|];
         intros ? ? [= <- <-]; left; done).
  all: match goal with
    | |- context [bool_decide (?u ∈ ?l)] =>
        destruct (decide (u ∈ l)) as [Hin|Hin];
        [rewrite (bool_decide_eq_true_2 _ Hin)|rewrite (bool_decide_eq_false_2 _ Hin)]
    end; cbn [negb];
    [|eexists _, _; split; [reflexivity|];
      intros ? ? [= <- <-]; left; done];
    destruct (generate_secret_code _ _ _) as [[[code c] draws]|] eqn:Hgen;
    (eexists _, _; split; [reflexivity|]);
    [intros ? ? [= <- <-]; right; eexists _, code, draws; repeat split; done
    |intros ? ? [=]].
Qed.


(** *** What keeps the globals consistent *)

Lemma consistent_of (bot : Bot) :
  owner_id (config bot) ∈ authorized_users (config bot) →
  NoDup (authorized_users (config bot)) →
  NoDup (authorized_chats (config bot)) →
  NoDup (spam_messages (config bot)) →
  (∀ code account,
     user_secret_codes (config bot) !! code = Some account → account ≠ 0) →
  current_spam_command bot = spam_command (config bot) →
  Consistent bot.
Proof. by constructor. Qed.

Lemma NoDup_snoc_string (x : string) (l : list string) :
  NoDup l → x ∉ l → NoDup (l ++ [x]).
Proof.
  intros Hl Hx. apply NoDup_app. split; [done|]. split; [|apply NoDup_singleton].
  intros y Hy Hyx. apply list_elem_of_singleton in Hyx. by subst y.
Qed.

Lemma add_authorized_user_consistent (bot : Bot) (u : Z) :
  Consistent bot →
  Consistent (with_config (add_authorized_user u (config bot)) bot).
Proof.
  intros [Ho Hu Hc Hm Hk Ht]. unfold add_authorized_user.
  destruct (decide (u ∈ authorized_users (config bot))) as [Hin|Hin];
    [rewrite (bool_decide_eq_true_2 _ Hin)|rewrite (bool_decide_eq_false_2 _ Hin)];
    cbn [negb andb]; [by apply consistent_of|].
  destruct (u =? owner_id (config bot)); cbn [negb]; [by apply consistent_of|].
  apply consistent_of; cbn; try done.
  - apply elem_of_app; by left.
  - by apply ConfigExtra.NoDup_snoc_fresh.
Qed.

Lemma remove_authorized_user_consistent (bot : Bot) (u : Z) :
  Consistent bot →
  Consistent (with_config (remove_authorized_user u (config bot)) bot).
Proof.
  intros [Ho Hu Hc Hm Hk Ht].
  pose proof (ConfigFacts.remove_authorized_user_keeps_owner u (config bot) Ho) as Ho'.
  revert Ho'. unfold remove_authorized_user.
  destruct (_ && _); [|intros _; by apply consistent_of].
  intros Ho'. apply consistent_of; cbn; try done.
  by apply ConfigExtra.list_remove_first_NoDup.
Qed.

Lemma add_authorized_chat_consistent (bot : Bot) (i : Z) :
  Consistent bot →
  Consistent (with_config (add_authorized_chat i (config bot)) bot).
Proof.
  intros [Ho Hu Hc Hm Hk Ht]. unfold add_authorized_chat.
  destruct (decide (i ∈ authorized_chats (config bot))) as [Hin|Hin];
    [rewrite (bool_decide_eq_true_2 _ Hin)|rewrite (bool_decide_eq_false_2 _ Hin)];
    [by apply consistent_of|].
  apply consistent_of; cbn; try done.
  by apply ConfigExtra.NoDup_snoc_fresh.
Qed.

Lemma remove_authorized_chat_consistent (bot : Bot) (i : Z) :
  Consistent bot →
  Consistent (with_config (remove_authorized_chat i (config bot)) bot).
Proof.
  intros [Ho Hu Hc Hm Hk Ht]. unfold remove_authorized_chat.
  destruct (bool_decide _); [|by apply consistent_of].
  apply consistent_of; cbn; try done.
  by apply ConfigExtra.list_remove_first_NoDup.
Qed.

Lemma add_spam_message_consistent (bot : Bot) (m : string) :
  Consistent bot →
  Consistent (with_config (add_spam_message m (config bot)) bot).
Proof.
  intros [Ho Hu Hc Hm Hk Ht]. unfold add_spam_message.
  destruct (decide (m ∈ spam_messages (config bot))) as [Hin|Hin];
    [rewrite (bool_decide_eq_true_2 _ Hin)|rewrite (bool_decide_eq_false_2 _ Hin)];
    [by apply consistent_of|].
  apply consistent_of; cbn; try done.
  by apply NoDup_snoc_string.
Qed.

Lemma remove_spam_message_consistent (bot : Bot) (index : Z) :
  Consistent bot →
  Consistent (with_config (remove_spam_message index (config bot)) bot).
Proof.
  intros [Ho Hu Hc Hm Hk Ht]. unfold remove_spam_message.
  destruct (_ && _); [|by apply consistent_of].
  apply consistent_of; cbn; try done.
  eapply sublist_NoDup; [exact Hm|apply sublist_delete].
Qed.

Lemma revoke_secret_code_consistent (bot : Bot) (code : string) :
  Consistent bot →
  Consistent (with_config (fst (revoke_secret_code code (config bot))) bot).
Proof.
  intros [Ho Hu Hc Hm Hk Ht]. unfold revoke_secret_code.
  destruct (user_secret_codes (config bot) !! code); [|by apply consistent_of].
  apply consistent_of; cbn; try done.
  intros code' account Hl. apply lookup_delete_Some in Hl as [_ Hl]. by eapply Hk.
Qed.

Lemma generate_secret_code_consistent (bot bot' : Bot) (u : Z) (code : string)
    (draws : list string) :
  Consistent bot → u ≠ 0 →
  generate_secret_code u (config bot) (token_source bot)
  = Some (code, config bot', draws) →
  current_spam_command bot' = current_spam_command bot →
  Consistent bot' ∧ owner_id (config bot') = owner_id (config bot).
Proof.
  intros [Ho Hu Hc Hm Hk Ht] Hne Hgen Hcmd.
  apply ConfigFacts.generate_secret_code_spec in Hgen as (_ & _ & Hcfg).
  split; [|by rewrite Hcfg].
  apply consistent_of; rewrite ?Hcfg; cbn; try done.
  - intros code' account Hl. apply lookup_insert_Some in Hl as [[_ <-]|[_ Hl]]; [done|].
    by eapply Hk.
  - by rewrite Hcmd.
Qed.

(** X20.  Every owner command first asks [is_owner] of the sender: for
    any other sender it looks up no user and no chat, only answers that
    the command is for the owner, and leaves the configuration, the
    trigger and the token source as they were. *)
Theorem owner_commands_refuse_others (get_chat : string → ChatResult)
    (env : Env) (n : nat) (name : OwnerCommand) (bot : Bot) (sender : Z)
    (command : list string) :
  sender ≠ owner_id (config bot) →
  run env n (owner_command get_chat name bot sender command)
  = ([], Some (Some (OwnerOnly, bot))).
Proof.
  intros Hne. apply is_owner_false in Hne.
  destruct name; cbn [owner_command];
    unfold add_user_command, remove_user_command, generate_secret_command,
      revoke_secret_command, add_chat_command, remove_chat_command,
      set_command_command, add_message_command, delete_message_command,
      clear_messages_command;
    rewrite Hne; reflexivity.
Qed.

Lemma owner_commands_refuse_others_witness :
  run Spec.calm_env 0
    (owner_command example_get_chat RemoveUser example_bot 42 ["/r"; "1"])
  = ([], Some (Some (OwnerOnly, example_bot))).
Proof.
  refine (owner_commands_refuse_others example_get_chat Spec.calm_env 0 RemoveUser
            example_bot 42 ["/r"; "1"] _).
  discriminate.
Defined.

(** X21.  The owner commands keep the globals consistent.  When the
    owner is listed, no account, chat or template is listed twice, no
    code is bound to the account 0 and the trigger is the configured
    command, the same holds of the globals any owner command leaves,
    whoever sent it, whatever its arguments and whatever the platform
    answers; the owner id is never changed. *)
Theorem owner_commands_keep_consistent (get_chat : string → ChatResult)
    (env : Env) (n : nat) (name : OwnerCommand) (bot bot' : Bot) (sender : Z)
    (command : list string) (reply : Reply) :
  Consistent bot →
  snd (run env n (owner_command get_chat name bot sender command))
  = Some (Some (reply, bot')) →
  Consistent bot' ∧ owner_id (config bot') = owner_id (config bot).
Proof.
  intros Hcons Hrun.
  assert (∀ c, Consistent (with_config c bot) →
               owner_id c = owner_id (config bot) →
               Consistent (with_config c bot)
               ∧ owner_id (config (with_config c bot)) = owner_id (config bot))
    as Hwith by done.
  destruct name; cbn [owner_command] in Hrun.
  - rewrite run_bind in Hrun.
    destruct (run_add_user_command env n bot sender command)
      as (t & r & b & Hr & Hcases).
    rewrite Hr in Hrun. cbn in Hrun. simplify_eq.
    destruct Hcases as [[-> _]|(u & _ & _ & _ & _ & ->)]; [done|].
    apply Hwith; [by apply add_authorized_user_consistent|].
    unfold add_authorized_user. by destruct (_ && _).
  - rewrite run_bind in Hrun.
    destruct (run_remove_user_command env n bot sender command)
      as (t & r & b & Hr & Hcases).
    rewrite Hr in Hrun. cbn in Hrun. simplify_eq.
    destruct Hcases as [[-> _]|(u & _ & _ & _ & _ & _ & ->)]; [done|].
    apply Hwith; [by apply remove_authorized_user_consistent|].
    unfold remove_authorized_user. by destruct (_ && _).
  - destruct (run_generate_secret_command env n bot sender command)
      as (t & result & Hr & Hcases).
    rewrite Hr in Hrun. cbn in Hrun. simplify_eq.
    destruct (Hcases _ _ eq_refl)
      as [[-> _]|(u & code & draws & Hne & _ & _ & Hgen & _ & Hcmd)]; [done|].
    by eapply generate_secret_code_consistent.
  - cbn in Hrun. unfold revoke_secret_command in Hrun.
    destruct (negb _); [by simplify_eq|].
    destruct command as [|c0 [|code rest]]; try by simplify_eq.
    pose proof (revoke_secret_code_consistent bot code Hcons) as Hrev.
    assert (owner_id (fst (revoke_secret_code code (config bot)))
            = owner_id (config bot)) as Hown.
    { unfold revoke_secret_code. by destruct (_ !! _). }
    destruct (revoke_secret_code code (config bot)) as [c found].
    destruct found; simplify_eq; by apply Hwith.
  - cbn in Hrun. unfold add_chat_command in Hrun.
    destruct (negb _); [by simplify_eq|].
    destruct command as [|c0 [|chat_input rest]]; try by simplify_eq.
    destruct (resolve_chat_id get_chat chat_input) as [[|p|p]|];
      try (by simplify_eq);
      (destruct (bool_decide _); [by simplify_eq|]); simplify_eq;
      (apply Hwith; [by apply add_authorized_chat_consistent|]);
      unfold add_authorized_chat; by destruct (bool_decide _).
  - cbn in Hrun. unfold remove_chat_command in Hrun.
    destruct (negb (is_owner _ _)); [by simplify_eq|].
    destruct command as [|c0 [|chat_input rest]]; try by simplify_eq.
    destruct (resolve_chat_id get_chat chat_input) as [[|p|p]|];
      try (by simplify_eq);
      (destruct (negb (bool_decide _)); [by simplify_eq|]); simplify_eq;
      (apply Hwith; [by apply remove_authorized_chat_consistent|]);
      unfold remove_authorized_chat; by destruct (bool_decide _).
  - cbn in Hrun. unfold set_command_command in Hrun.
    destruct (negb _); [by simplify_eq|].
    destruct command as [|c0 [|new_command rest]]; try by simplify_eq.
    cbv zeta in Hrun. simplify_eq.
    destruct Hcons as [Ho Hu Hc Hm Hk Ht]. split; [|done].
    by apply consistent_of.
  - cbn in Hrun. unfold add_message_command in Hrun.
    destruct (negb _); [by simplify_eq|].
    destruct command as [|c0 [|word words]]; try by simplify_eq.
    cbv zeta in Hrun. destruct (bool_decide _) eqn:E; [by simplify_eq|].
    simplify_eq.
    apply Hwith; [by apply add_spam_message_consistent|].
    unfold add_spam_message. by destruct (bool_decide _).
  - cbn in Hrun. unfold delete_message_command in Hrun.
    destruct (negb _); [by simplify_eq|]. cbv zeta in Hrun.
    destruct command as [|c0 [|index_input rest]].
    + destruct (spam_messages (config bot)); by simplify_eq.
    + destruct (spam_messages (config bot)); by simplify_eq.
    + destruct (Py.int index_input) as [k|]; [|by simplify_eq].
      destruct (_ || _); [by simplify_eq|]. simplify_eq.
      apply Hwith; [by apply remove_spam_message_consistent|].
      unfold remove_spam_message. by destruct (_ && _).
  - cbn in Hrun. unfold clear_messages_command in Hrun.
    destruct (negb _); [by simplify_eq|].
    destruct (spam_messages (config bot)) eqn:E; [by simplify_eq|].
    simplify_eq.
    destruct Hcons as [Ho Hu Hc Hm Hk Ht]. split; [|done].
    apply consistent_of; cbn; try done. apply NoDup_singleton.
Qed.

Lemma example_bot_consistent : Consistent example_bot.
Proof.
  apply consistent_of; cbn.
  - apply elem_of_cons; by left.
  - apply NoDup_cons. split; [|apply NoDup_singleton].
    intros H. apply list_elem_of_singleton in H. discriminate H.
  - apply NoDup_singleton.
  - apply NoDup_cons. split; [|apply NoDup_singleton].
    intros H. apply list_elem_of_singleton in H. discriminate H.
  - intros code account H. apply lookup_singleton_Some in H as [_ <-]. done.
  - reflexivity.
Defined.

Lemma owner_commands_keep_consistent_witness :
  Consistent
    (with_config (remove_authorized_user 42 (config example_bot)) example_bot).
Proof.
  refine (proj1 (owner_commands_keep_consistent example_get_chat Spec.calm_env 0
            RemoveUser example_bot _ 1 ["/r"; "42"] (UserRemoved 42)
            example_bot_consistent _)).
  reflexivity.
Defined.


(** X22.  [generate_secret_command] answers with a new code only when
    the sender is the owner and the account named is not 0 and is in
    [authorized_users]; the code is one of the drawn tokens, was bound to
    nothing before, and the only change to the configuration is its
    binding to that account. *)
Theorem secret_only_for_authorized_account (env : Env) (n : nat) (bot bot' : Bot)
    (sender : Z) (command : list string) (u : Z) (code : string) :
  snd (run env n (generate_secret_command bot sender command))
  = Some (Some (SecretGenerated u code, bot')) →
  sender = owner_id (config bot) ∧ u ≠ 0 ∧
  u ∈ authorized_users (config bot) ∧
  user_secret_codes (config bot) !! code = None ∧
  code ∈ token_source bot ∧
  config bot'
  = set_user_secret_codes (<[code := u]> (user_secret_codes (config bot)))
      (config bot).
Proof.
  intros Hrun.
  destruct (run_generate_secret_command env n bot sender command)
    as (t & result & Hr & Hcases).
  rewrite Hr in Hrun. cbn in Hrun. simplify_eq.
  destruct (Hcases _ _ eq_refl)
    as [[_ Hno]|(u' & code' & draws & Hne & Hown & Hin & Hgen & Heq & _)].
  - by destruct (Hno u code).
  - simplify_eq.
    apply ConfigFacts.generate_secret_code_spec in Hgen as (? & ? & ?). done.
Qed.

Lemma secret_only_for_authorized_account_witness :
  42 ∈ authorized_users (config example_bot) ∧
  user_secret_codes (config example_bot) !! "K9" = None.
Proof.
  pose proof (secret_only_for_authorized_account Spec.calm_env 0 example_bot
                {| config := set_user_secret_codes
                               (<["K9" := 42]> (user_secret_codes (config example_bot)))
                               (config example_bot);
                   current_spam_command := "/s";
                   token_source := ["Q3"] |}
                1 ["/gensecret"; "42"] 42 "K9" eq_refl) as H.
  split; [exact (proj1 (proj2 (proj2 H)))|exact (proj1 (proj2 (proj2 (proj2 H))))].
Defined.

(** X23.  When the owner names an account that resolves to an id other
    than 0 listed in [authorized_users], and one of the tokens still to
    be drawn is bound to nothing, [generate_secret_command] does issue a
    code: before its reply it makes no call beyond the lookup, it
    answers with the code, and in the configuration it leaves the code
    resolves to the account. *)
Theorem secret_issued_for_listed_account (env : Env) (n : nat) (bot : Bot)
    (command_name user_input : string) (rest : list string) (u : Z)
    (t : list Event) (fresh : string) :
  run env n (resolve_user_id user_input) = (t, Some (Some u)) →
  u ≠ 0 →
  u ∈ authorized_users (config bot) →
  fresh ∈ token_source bot →
  user_secret_codes (config bot) !! fresh = None →
  ∃ code bot',
    run env n (generate_secret_command bot (owner_id (config bot))
                 (command_name :: user_input :: rest))
    = (t, Some (Some (SecretGenerated u code, bot'))) ∧
    get_user_id_from_code code (config bot') = Some u ∧
    user_secret_codes (config bot) !! code = None.
Proof.
  intros Hres Hne Hin Hfresh Hunbound.
  unfold generate_secret_command, is_owner. rewrite Z.eqb_refl. cbn [negb].
  rewrite run_bind, Hres. cbv beta iota.
  destruct u as [|p|p]; [done| |];
    rewrite (bool_decide_eq_true_2 _ Hin); cbn [negb];
    match goal with
    | |- context [generate_secret_code ?a _ _] =>
        destruct (ConfigFacts.generate_secret_code_returns a _ _ _ Hfresh Hunbound)
          as [[[code c] draws] Hgen]
    end;
    rewrite Hgen;
    apply ConfigFacts.generate_secret_code_spec in Hgen as (Hnew & _ & ->);
    eexists code, _; (split; [cbn; by rewrite app_nil_r|]);
    (split; [|done]); unfold get_user_id_from_code; cbn;
    apply lookup_insert_eq.
Qed.

Lemma secret_issued_for_listed_account_witness :
  ∃ code bot',
    run Spec.calm_env 0
      (generate_secret_command example_bot 1 ["/gensecret"; "42"])
    = ([], Some (Some (SecretGenerated 42 code, bot'))) ∧
    get_user_id_from_code code (config bot') = Some 42 ∧
    user_secret_codes (config example_bot) !! code = None.
Proof.
  refine (secret_issued_for_listed_account Spec.calm_env 0 example_bot
            "/gensecret" "42" [] 42 [] "Q3" _ _ _ _ _).
  - reflexivity.
  - discriminate.
  - apply elem_of_cons; right. apply elem_of_cons; by left.
  - apply elem_of_cons; right. apply elem_of_cons; right. apply elem_of_cons; by left.
  - reflexivity.
Defined.

(** X24.  When [remove_user_command] answers that a user was removed,
    the sender was the owner, the user was listed and is not the owner,
    and, no account being listed twice, the user is no longer authorized
    afterwards; the codes bound to the user stay in the configuration. *)
Theorem removed_user_loses_authorization (env : Env) (n : nat) (bot bot' : Bot)
    (sender : Z) (command : list string) (u : Z) :
  Consistent bot →
  snd (run env n (remove_user_command bot sender command))
  = Some (UserRemoved u, bot') →
  sender = owner_id (config bot) ∧ u ≠ owner_id (config bot) ∧
  is_authorized u (config bot) = true ∧
  is_authorized u (config bot') = false ∧
  user_secret_codes (config bot') = user_secret_codes (config bot).
Proof.
  intros Hcons Hrun.
  destruct (run_remove_user_command env n bot sender command)
    as (t & r & b & Hr & Hcases).
  rewrite Hr in Hrun. cbn in Hrun. simplify_eq.
  destruct Hcases as [[_ Hno]|(u' & _ & Hne & Hown & Hin & Heq & ->)].
  - by destruct (Hno u).
  - simplify_eq. split; [done|]. split; [done|].
    split; [by apply bool_decide_eq_true_2|].
    split.
    + apply bool_decide_eq_false_2. cbn.
      apply ConfigExtra.remove_authorized_user_not_listed; [|done].
      apply Hcons.
    + cbn. apply ConfigExtra.remove_authorized_user_frame.
Qed.

Lemma removed_user_loses_authorization_witness :
  is_authorized 42 (remove_authorized_user 42 (config example_bot)) = false.
Proof.
  refine (proj1 (proj2 (proj2 (proj2
            (removed_user_loses_authorization Spec.calm_env 0 example_bot
               (with_config (remove_authorized_user 42 (config example_bot))
                  example_bot)
               1 ["/r"; "42"] 42 example_bot_consistent _))))).
  reflexivity.
Defined.



(** X26.  When [remove_chat_command] answers that a chat was removed,
    the sender was the owner and the chat was listed; and, no chat being
    listed twice, every later command in that chat (not a private one)
    is stopped at the chat check: the command message is deleted and
    nothing else is called, whatever its code, sender and quantity. *)
Theorem removed_chat_is_closed (get_chat : string → ChatResult)
    (format_mention : string → string → option string)
    (bot bot' : Bot) (sender : Z) (command : list string) (i : Z)
    (env : Env) (n : nat) (message : Message) :
  Consistent bot →
  remove_chat_command get_chat bot sender command = (ChatRemoved i, bot') →
  Spec.is_command (current_spam_command bot') message = true →
  chat_type (chat message) ≠ PRIVATE →
  chat_id (chat message) = i →
  sender = owner_id (config bot) ∧
  i ∈ authorized_chats (config bot) ∧
  run env n
    (universal_message_handler format_mention (config bot')
       (current_spam_command bot') message)
  = ([Ev (delete_messages i (message_id message))
         (env _ n (delete_messages i (message_id message)))],
     Some tt).
Proof.
  intros Hcons Hcmd Hiscmd Hprivate Hchat.
  unfold remove_chat_command in Hcmd.
  destruct (is_owner sender (config bot)) eqn:Hown; cbn [negb] in Hcmd;
    [|by simplify_eq].
  apply Z.eqb_eq in Hown.
  destruct command as [|c0 [|chat_input rest]]; try by simplify_eq.
  assert (i ∈ authorized_chats (config bot) ∧
          bot' = with_config (remove_authorized_chat i (config bot)) bot)
    as [Hin ->].
  { destruct (resolve_chat_id get_chat chat_input) as [[|p|p]|];
      try (by simplify_eq);
      (match type of Hcmd with
       | context [bool_decide (?x ∈ ?l)] =>
           destruct (decide (x ∈ l)) as [Hin|Hin];
           [rewrite (bool_decide_eq_true_2 _ Hin) in Hcmd
           |rewrite (bool_decide_eq_false_2 _ Hin) in Hcmd]
       end; cbn [negb] in Hcmd;
       [injection Hcmd as <- <-; by split|discriminate Hcmd]). }
  split; [done|]. split; [done|].
  rewrite <- Hchat.
  apply GateFacts.run_handler_unauthorized_chat; [done|done|].
  rewrite Hchat. cbn. unfold remove_authorized_chat.
  rewrite (bool_decide_eq_true_2 _ Hin). cbn.
  apply ConfigExtra.list_remove_first_gone. apply Hcons.
Qed.

Lemma removed_chat_is_closed_witness :
  run Spec.calm_env 0
    (universal_message_handler Spec.format_basic
       (remove_authorized_chat 100 (config example_bot)) "/s"
       Spec.accepted_command)
  = ([Ev (delete_messages 100 7) Deleted], Some tt).
Proof.
  refine (proj2 (proj2
            (removed_chat_is_closed example_get_chat Spec.format_basic example_bot
               (with_config (remove_authorized_chat 100 (config example_bot))
                  example_bot)
               1 ["/removechat"; "100"] 100 Spec.calm_env 0 Spec.accepted_command
               example_bot_consistent _ _ _ _))).
  - reflexivity.
  - reflexivity.
  - discriminate.
  - reflexivity.
Defined.

End OwnerExtra.
